(** * Help Scout response evaluator: a shallow embedding of the cache,
      signature and post-processing layer

    The development follows the two JavaScript sources of the service:
    the express entry point (signature verification, cache-key
    derivation) and [sections/evaluation.js] (the orchestrator, the
    ledger access, the context classifier and the post-processor).

    JavaScript strings are Rocq [string]s read as their UTF-8 bytes, with
    the case folding and white space of ASCII; the in-flight [Set] is a
    [gset string]; the LRU cache is a recency-ordered association list;
    asynchronous code is cut at every [await] into the steps of a small
    state machine. *)

From Stdlib Require Import ZArith String Ascii List Lia Bool.
From Stdlib Require Import DecimalString Decimal DecimalPos DecimalZ.
From stdpp Require Import base strings gmap.
Import ListNotations.

Open Scope Z_scope.

(* ================================================================== *)
(** * 1. JavaScript string primitives *)
(* ================================================================== *)

(** [s.length > 0], the truthiness of a string. *)
Definition truthy (s : string) : bool :=
  match s with EmptyString => false | String _ _ => true end.

(** [a || b] on optional strings ([undefined] and [''] are falsy). *)
Definition or_else (a b : option string) : option string :=
  match a with
  | Some s => if truthy s then a else b
  | None => b
  end.

(** The value when it is truthy: [if (!v)] takes the other branch on
    [None]. *)
Definition present (a : option string) : option string := or_else a None.

Definition lower_ascii (c : ascii) : ascii :=
  let n := N_of_ascii c in
  if ((65 <=? n) && (n <=? 90))%N then ascii_of_N (n + 32) else c.

(** [String.prototype.toLowerCase], on the ASCII letters. *)
Fixpoint toLowerCase (s : string) : string :=
  match s with
  | EmptyString => EmptyString
  | String c r => String (lower_ascii c) (toLowerCase r)
  end.

(** [s.startsWith(p)]. *)
Fixpoint startsWith (p s : string) : bool :=
  match p, s with
  | EmptyString, _ => true
  | String a p', String b s' => Ascii.eqb a b && startsWith p' s'
  | String _ _, EmptyString => false
  end.

(** [s.includes(p)]: some suffix of [s] starts with [p]. *)
Fixpoint includes (s p : string) : bool :=
  startsWith p s ||
  match s with
  | EmptyString => false
  | String _ r => includes r p
  end.

(** Drop the first [n] characters. *)
Fixpoint drop_str (n : nat) (s : string) : string :=
  match n, s with
  | O, _ => s
  | S n', String _ r => drop_str n' r
  | S _, EmptyString => EmptyString
  end.

(** Keep the first [n] characters: [s.substring(0, n)]. *)
Fixpoint take_str (n : nat) (s : string) : string :=
  match n, s with
  | O, _ => EmptyString
  | S n', String c r => String c (take_str n' r)
  | S _, EmptyString => EmptyString
  end.

(** [s.replace(/p/gi, '')] for a literal lower-case pattern [p]: the
    regular expression engine scans from the left; at each position where
    the pattern matches (ignoring case) it drops the match and resumes
    right after it, otherwise it keeps the character and moves on by one.
    [fuel] bounds the number of positions visited. *)
Fixpoint remove_all_ci (fuel : nat) (p s : string) : string :=
  match fuel with
  | O => s
  | S fuel' =>
      match s with
      | EmptyString => EmptyString
      | String c r =>
          if startsWith p (toLowerCase s)
          then remove_all_ci fuel' p (drop_str (String.length p) s)
          else String c (remove_all_ci fuel' p r)
      end
  end.

Definition replace_ci_global (p s : string) : string :=
  remove_all_ci (String.length s) p s.

(** White space as [String.prototype.trim] sees it in ASCII text:
    space, tab, line feed, vertical tab, form feed, carriage return. *)
Definition is_space (c : ascii) : bool :=
  let n := N_of_ascii c in
  ((n =? 32) || ((9 <=? n) && (n <=? 13)))%N.

Fixpoint trimStart (s : string) : string :=
  match s with
  | String c r => if is_space c then trimStart r else s
  | EmptyString => EmptyString
  end.

(** Remove trailing white space: a character is kept when something
    that is kept follows it or when it is not white space itself. *)
Fixpoint trimEnd (s : string) : string :=
  match s with
  | EmptyString => EmptyString
  | String c r =>
      match trimEnd r with
      | EmptyString => if is_space c then EmptyString else String c EmptyString
      | r' => String c r'
      end
  end.

Definition trim (s : string) : string := trimEnd (trimStart s).

(** [s.split(sep)[0]] for a one-character separator: the text before
    the first separator, the whole string when there is none. *)
Fixpoint before_first (sep : ascii) (s : string) : string :=
  match s with
  | EmptyString => EmptyString
  | String c r => if Ascii.eqb c sep then EmptyString else String c (before_first sep r)
  end.

(** [parts.join(sep)]. *)
Fixpoint join (sep : string) (parts : list string) : string :=
  match parts with
  | [] => EmptyString
  | [p] => p
  | p :: rest => p +:+ sep +:+ join sep rest
  end.

(** [s.split(sep)] for a non-empty separator; [cur] holds, reversed by
    appending, the characters of the current piece. *)
Fixpoint split_go (fuel : nat) (sep : string) (cur s : string) : list string :=
  match fuel with
  | O => [cur +:+ s]
  | S fuel' =>
      match s with
      | EmptyString => [cur]
      | String c r =>
          if startsWith sep s
          then cur :: split_go fuel' sep EmptyString (drop_str (String.length sep) s)
          else split_go fuel' sep (cur +:+ String c EmptyString) r
      end
  end.

Definition split (sep s : string) : list string :=
  split_go (String.length s) sep EmptyString s.

(* ================================================================== *)
(** * 2. Digests of Node's [crypto] module *)
(* ================================================================== *)

(** The service calls [crypto.createHash('md5')] and
    [crypto.createHmac('sha1', secret)].  Both are transcribed from
    their RFCs (1321, 3174, 2104) on 32-bit words held in [Z]. *)

Definition bytes_of_string (s : string) : list Z :=
  map (fun c => Z.of_N (N_of_ascii c)) (list_ascii_of_string s).

Definition w32 (x : Z) : Z := x mod 4294967296.

Definition rotl32 (x c : Z) : Z :=
  w32 (Z.lor (Z.shiftl x c) (Z.shiftr x (32 - c))).

Definition not32 (x : Z) : Z := 4294967295 - x.

(** [n] zero bytes. *)
Definition zeros (n : nat) : list Z := repeat 0 n.

(** The [k] low bytes of [x], least significant first. *)
Fixpoint le_bytes (k : nat) (x : Z) : list Z :=
  match k with
  | O => []
  | S k' => (x mod 256) :: le_bytes k' (x / 256)
  end.

Definition be_bytes (k : nat) (x : Z) : list Z := rev (le_bytes k x).

Fixpoint le_word (bs : list Z) : Z :=
  match bs with
  | [] => 0
  | b :: r => b + 256 * le_word r
  end.

Definition be_word (bs : list Z) : Z := le_word (rev bs).

(** Cut a byte list into [n] consecutive pieces of [k] bytes. *)
Fixpoint chunks (n k : nat) (bs : list Z) : list (list Z) :=
  match n with
  | O => []
  | S n' => firstn k bs :: chunks n' k (skipn k bs)
  end.

(** Zero bytes to add after the [0x80] marker so that the message, the
    marker and the 8-byte length fill whole 64-byte blocks. *)
Definition pad_zeros (len : nat) : nat :=
  Z.to_nat ((55 - Z.of_nat len) mod 64).

Definition nthZ (l : list Z) (i : nat) : Z := nth i l 0.

Module Md5.

Definition K : list Z :=
  [ 0xd76aa478; 0xe8c7b756; 0x242070db; 0xc1bdceee; 0xf57c0faf; 0x4787c62a;
    0xa8304613; 0xfd469501; 0x698098d8; 0x8b44f7af; 0xffff5bb1; 0x895cd7be;
    0x6b901122; 0xfd987193; 0xa679438e; 0x49b40821; 0xf61e2562; 0xc040b340;
    0x265e5a51; 0xe9b6c7aa; 0xd62f105d; 0x02441453; 0xd8a1e681; 0xe7d3fbc8;
    0x21e1cde6; 0xc33707d6; 0xf4d50d87; 0x455a14ed; 0xa9e3e905; 0xfcefa3f8;
    0x676f02d9; 0x8d2a4c8a; 0xfffa3942; 0x8771f681; 0x6d9d6122; 0xfde5380c;
    0xa4beea44; 0x4bdecfa9; 0xf6bb4b60; 0xbebfbc70; 0x289b7ec6; 0xeaa127fa;
    0xd4ef3085; 0x04881d05; 0xd9d4d039; 0xe6db99e5; 0x1fa27cf8; 0xc4ac5665;
    0xf4292244; 0x432aff97; 0xab9423a7; 0xfc93a039; 0x655b59c3; 0x8f0ccc92;
    0xffeff47d; 0x85845dd1; 0x6fa87e4f; 0xfe2ce6e0; 0xa3014314; 0x4e0811a1;
    0xf7537e82; 0xbd3af235; 0x2ad7d2bb; 0xeb86d391 ].

Definition shifts : list Z :=
  [ 7; 12; 17; 22; 7; 12; 17; 22; 7; 12; 17; 22; 7; 12; 17; 22;
    5; 9; 14; 20; 5; 9; 14; 20; 5; 9; 14; 20; 5; 9; 14; 20;
    4; 11; 16; 23; 4; 11; 16; 23; 4; 11; 16; 23; 4; 11; 16; 23;
    6; 10; 15; 21; 6; 10; 15; 21; 6; 10; 15; 21; 6; 10; 15; 21 ].

Definition regs : Type := (Z * Z * Z * Z)%type.

Definition iv   : regs := (0x67452301, 0xefcdab89, 0x98badcfe, 0x10325476).

(** One of the 64 operations on the block [M] of 16 words. *)
Definition operation (M : list Z) (st   : regs) (i : nat)   : regs :=
  let '(a, b, c, d) := st in
  let '(f, g) :=
    if (i <? 16)%nat then (Z.lor (Z.land b c) (Z.land (not32 b) d), i)
    else if (i <? 32)%nat then
      (Z.lor (Z.land d b) (Z.land (not32 d) c), ((5 * i + 1) mod 16)%nat)
    else if (i <? 48)%nat then
      (Z.lxor b (Z.lxor c d), ((3 * i + 5) mod 16)%nat)
    else (Z.lxor c (Z.lor b (not32 d)), ((7 * i) mod 16)%nat) in
  let x := w32 (a + f + nthZ K i + nthZ M g) in
  (d, w32 (b + rotl32 x (nthZ shifts i)), b, c).

Definition compress (st   : regs) (bs : list Z)   : regs :=
  let M := map le_word (chunks 16 4 bs) in
  let '(a, b, c, d) := st in
  let '(a', b', c', d') := fold_left (operation M) (seq 0 64) st in
  (w32 (a + a'), w32 (b + b'), w32 (c + c'), w32 (d + d')).

Definition pad_le (msg : list Z) : list Z :=
  msg ++ [128] ++ zeros (pad_zeros (List.length msg))
      ++ le_bytes 8 (8 * Z.of_nat (List.length msg)).

Definition md5 (msg : list Z) : list Z :=
  let p := pad_le msg in
  let '(a, b, c, d) :=
    fold_left compress (chunks (Nat.div (List.length p) 64) 64 p) iv in
  le_bytes 4 a ++ le_bytes 4 b ++ le_bytes 4 c ++ le_bytes 4 d.

End Md5.

Module Sha1.

Definition regs5 : Type := (Z * Z * Z * Z * Z)%type.

Definition iv5   : regs5 :=
  (0x67452301, 0xefcdab89, 0x98badcfe, 0x10325476, 0xc3d2e1f0).

(** The message schedule: 16 words of the block, then 64 more, each
    from four earlier ones.  [w] holds the words so far, latest first. *)
Fixpoint expand (n : nat) (w : list Z) : list Z :=
  match n with
  | O => w
  | S n' =>
      let x := Z.lxor (Z.lxor (nthZ w 2) (nthZ w 7))
                      (Z.lxor (nthZ w 13) (nthZ w 15)) in
      expand n' (rotl32 x 1 :: w)
  end.

Definition schedule (bs : list Z) : list Z :=
  rev (expand 64 (rev (map be_word (chunks 16 4 bs)))).

Definition round (W : list Z) (st   : regs5) (i : nat)   : regs5 :=
  let '(a, b, c, d, e) := st in
  let '(f, k) :=
    if (i <? 20)%nat then (Z.lor (Z.land b c) (Z.land (not32 b) d), 0x5a827999)
    else if (i <? 40)%nat then (Z.lxor b (Z.lxor c d), 0x6ed9eba1)
    else if (i <? 60)%nat then
      (Z.lor (Z.lor (Z.land b c) (Z.land b d)) (Z.land c d), 0x8f1bbcdc)
    else (Z.lxor b (Z.lxor c d), 0xca62c1d6) in
  (w32 (rotl32 a 5 + f + e + k + nthZ W i), a, rotl32 b 30, c, d).

Definition compress5 (st   : regs5) (bs : list Z)   : regs5 :=
  let W := schedule bs in
  let '(a, b, c, d, e) := st in
  let '(a', b', c', d', e') := fold_left (round W) (seq 0 80) st in
  (w32 (a + a'), w32 (b + b'), w32 (c + c'), w32 (d + d'), w32 (e + e')).

Definition pad_be (msg : list Z) : list Z :=
  msg ++ [128] ++ zeros (pad_zeros (List.length msg))
      ++ be_bytes 8 (8 * Z.of_nat (List.length msg)).

Definition sha1 (msg : list Z) : list Z :=
  let p := pad_be msg in
  let '(a, b, c, d, e) :=
    fold_left compress5 (chunks (Nat.div (List.length p) 64) 64 p) iv5 in
  be_bytes 4 a ++ be_bytes 4 b ++ be_bytes 4 c ++ be_bytes 4 d ++ be_bytes 4 e.

(** HMAC (RFC 2104) with a 64-byte block. *)
Definition hmac (key msg : list Z) : list Z :=
  let k0 := if (64 <? List.length key)%nat then sha1 key else key in
  let k := k0 ++ zeros (64 - List.length k0) in
  let ipad := map (Z.lxor 0x36) k in
  let opad := map (Z.lxor 0x5c) k in
  sha1 (opad ++ sha1 (ipad ++ msg)).

End Sha1.

(** [digest('hex')]: two lower-case hexadecimal digits per byte. *)
Definition hex_digit (n : Z) : ascii :=
  ascii_of_N (Z.to_N (if n <? 10 then 48 + n else 87 + n)).

Fixpoint hex (bs : list Z) : string :=
  match bs with
  | [] => EmptyString
  | b :: r => String (hex_digit (b / 16)) (String (hex_digit (b mod 16)) (hex r))
  end.

(** [digest('base64')]: the standard alphabet, padded with [=]. *)
Definition b64_char (n : Z) : ascii :=
  ascii_of_N (Z.to_N
    (if n <? 26 then 65 + n
     else if n <? 52 then 71 + n
     else if n <? 62 then n - 4
     else if n =? 62 then 43 else 47)).

Fixpoint base64 (bs : list Z) : string :=
  match bs with
  | [] => EmptyString
  | [a] =>
      String (b64_char (a / 4))
        (String (b64_char ((a mod 4) * 16)) "==")
  | [a; b] =>
      String (b64_char (a / 4))
        (String (b64_char ((a mod 4) * 16 + b / 16))
           (String (b64_char ((b mod 16) * 4)) "="))
  | a :: b :: c :: r =>
      String (b64_char (a / 4))
        (String (b64_char ((a mod 4) * 16 + b / 16))
           (String (b64_char ((b mod 16) * 4 + c / 64))
              (String (b64_char (c mod 64)) (base64 r))))
  end.

Definition md5_hex (text : string) : string :=
  hex (Md5.md5 (bytes_of_string text)).

Definition hmac_sha1_base64 (secret body : string) : string :=
  base64 (Sha1.hmac (bytes_of_string secret) (bytes_of_string body)).

(* ================================================================== *)
(** * 3. Values and the data model *)
(* ================================================================== *)

(** ** Numbers

    A number is a finite decimal, [digits / 10 ^ places], written the
    way JavaScript prints it: no zero at the end of the fraction, so a
    number has one representation ([8.5] is 85 with one place, [7] is 7
    with none).  Ticket ids, ticket numbers and rubric scores are such
    numbers.  A double is taken with the decimal JavaScript prints for
    it (at most 17 significant digits); the rounding of longer
    literals and of literals beyond the range of a double is not
    modelled.  The infinities and [NaN] are not values of the records
    below: a JSON text holds neither unless a literal overflows. *)
Definition shortest (digits : Z) (places : nat) : bool :=
  match places with
  | O => true
  | S _ => negb (digits mod 10 =? 0)
  end.

Record JsNum : Type := {
  digits : Z;
  places : nat;
  is_shortest : shortest digits places = true
}.

Declare Scope num_scope.
Delimit Scope num_scope with num.
Bind Scope num_scope with JsNum.

(** An integer as a number. *)
Definition whole (n : Z) : JsNum :=
  {| digits := n; places := 0; is_shortest := eq_refl |}.

Coercion whole : Z >-> JsNum.

(** Drop the zeros at the end of a fraction of [p] places. *)
Fixpoint strip (m : Z) (p : nat) : Z * nat :=
  match p with
  | O => (m, O)
  | S p' => if m mod 10 =? 0 then strip (m / 10) p' else (m, p)
  end.

(** The number [m / 10 ^ p].  What [strip] returns is always
    [shortest], so the second branch is never taken. *)
Definition decimal (m : Z) (p : nat) : JsNum :=
  let '(m', p') := strip m p in
  match Bool.bool_dec (shortest m' p') true with
  | left H => {| digits := m'; places := p'; is_shortest := H |}
  | right _ => whole m'
  end.

(** [a <= b], both sides brought to the same number of places. *)
Definition num_leb (a b : JsNum) : bool :=
  digits a * 10 ^ Z.of_nat (places b) <=? digits b * 10 ^ Z.of_nat (places a).

Definition num_le (a b : JsNum) : Prop :=
  digits a * 10 ^ Z.of_nat (places b) <= digits b * 10 ^ Z.of_nat (places a).

Notation "a <= b" := (num_le a b) : num_scope.
Notation "a <= b <= c" := (num_le a b /\ num_le b c) : num_scope.

(** [Math.max(a, b)]. *)
Definition Math_max (a b : JsNum) : JsNum :=
  if num_leb a b then b else a.

(** The scalar values that reach the ledger and the id comparison. *)
Inductive JsVal : Type :=
| VNum (n : JsNum)
| VStr (s : string)
| VUndefined.

(** [String(n)] for an integer. *)
Definition string_of_Z (n : Z) : string :=
  NilZero.string_of_int (Z.to_int n).

Definition digit_char (d : Z) : ascii := ascii_of_N (48 + Z.to_N d).

(** The [k] digits of the fraction [f / 10 ^ k], zeros in front
    included. *)
Fixpoint fraction_text (k : nat) (f : Z) : string :=
  match k with
  | O => EmptyString
  | S k' => fraction_text k' (f / 10) +:+ String (digit_char (f mod 10)) EmptyString
  end.

(** [String(n)]: the sign, the integer part, and after a point the
    digits of the fraction.  JavaScript prints a number this way when
    its magnitude is at least [10^-6] and below [10^21]; beyond, it
    prints an exponent, which is not modelled. *)
Definition number_text (n : JsNum) : string :=
  match places n with
  | O => string_of_Z (digits n)
  | S _ =>
      let magnitude := Z.abs (digits n) in
      let one := 10 ^ Z.of_nat (places n) in
      (if digits n <? 0 then "-" else EmptyString)
      +:+ string_of_Z (magnitude / one)
      +:+ "."
      +:+ fraction_text (places n) (magnitude mod one)
  end.

(** [String(v)]. *)
Definition String_ (v : JsVal) : string :=
  match v with
  | VNum n => number_text n
  | VStr s => s
  | VUndefined => "undefined"
  end.

Definition digit_value (c : ascii) : option Z :=
  let n := N_of_ascii c in
  if ((48 <=? n) && (n <=? 57))%N then Some (Z.of_N n - 48) else None.

(** The longest run of decimal digits at the head of [s]: their value
    read after [acc], how many they are added to [count], and the text
    that follows them. *)
Fixpoint read_digits (s : string) (acc : Z) (count : nat) : Z * nat * string :=
  match s with
  | EmptyString => (acc, count, s)
  | String c r =>
      match digit_value c with
      | Some d => read_digits r (10 * acc + d) (S count)
      | None => (acc, count, s)
      end
  end.

(** The exponent part at the head of [s]: [e] or [E], an optional sign
    and at least one digit; without a digit there is no exponent part
    and the value is 0. *)
Definition signed_digits (negative : bool) (s : string) : Z :=
  let '(e, count, _) := read_digits s 0 0 in
  if (count =? 0)%nat then 0 else if negative then - e else e.

Definition read_exponent (s : string) : Z :=
  match s with
  | String c r =>
      if Ascii.eqb c "e" || Ascii.eqb c "E" then
        match r with
        | String "-" t => signed_digits true t
        | String "+" t => signed_digits false t
        | _ => signed_digits false r
        end
      else 0
  | EmptyString => 0
  end.

(** [m * 10 ^ e]. *)
Definition scale (m e : Z) : JsNum :=
  if 0 <=? e then whole (m * 10 ^ e) else decimal m (Z.to_nat (- e)).

(** What [parseFloat] returns. *)
Inductive Parsed : Type :=
| Num (n : JsNum)
| Infinity (negative : bool)
| NaN.

(** The longest prefix of [s] that is an unsigned decimal literal:
    [Infinity], or digits with an optional point and fraction (digits
    on at least one side of the point) and an optional exponent part.
    A literal longer than a double can hold is read exactly. *)
Definition read_number (negative : bool) (s : string) : Parsed :=
  if startsWith "Infinity" s then Infinity negative
  else
    let '(integer_part, ni, r1) := read_digits s 0 0 in
    let '(all, nf, r2) :=
      match r1 with
      | String "." t => read_digits t integer_part 0
      | _ => (integer_part, O, r1)
      end in
    if (ni + nf =? 0)%nat then NaN
    else Num (scale (if negative then - all else all)
                       (read_exponent r2 - Z.of_nat nf)).

(** [parseFloat(s)]: leading white space (that of ASCII, as for
    [trim]), an optional sign, then the longest decimal literal; the
    text after it is ignored. *)
Definition parseFloat (s : string) : Parsed :=
  match trimStart s with
  | String "-" r => read_number true r
  | String "+" r => read_number false r
  | t => read_number false t
  end.

(** [parseFloat(cell) || 0]: [NaN] and [0] are falsy, a missing cell
    parses to [NaN].  Only a cell that holds the text [Infinity] gives
    an infinite value; it is not a number of the records below and is
    read as 0 here. *)
Definition parse_or_zero (cell : option string) : JsNum :=
  match cell with
  | Some s => match parseFloat s with Num n => n | _ => 0 end
  | None => 0
  end.

(** [cell || '']. *)
Definition text_or_empty (cell : option string) : string :=
  match cell with Some s => s | None => EmptyString end.

Record CategoryDetail : Type := {
  score : JsNum;
  feedback : string
}.

(** [evaluation.categories]: the code guards every access with [?.],
    so each category may be missing.  These are the four categories
    the code reads; a reply may carry others (the prompt also asks for
    [following_structure]), which no function below looks at. *)
Record Categories : Type := {
  tone_empathy : option CategoryDetail;
  clarity_completeness : option CategoryDetail;
  standard_of_english : option CategoryDetail;
  problem_resolution : option CategoryDetail
}.

Record EvaluationResult : Type := {
  overall_score : JsNum;
  categories : option Categories;
  key_improvements : option (list string);
  error : option string
}.

Definition category (sel : Categories -> option CategoryDetail)
    (evaluation : EvaluationResult) : option CategoryDetail :=
  match categories evaluation with
  | Some cats => sel cats
  | None => None
  end.

(** The four fixed categories, in ledger column order. *)
Definition fixed_categories : list (Categories -> option CategoryDetail) :=
  [tone_empathy; clarity_completeness; standard_of_english; problem_resolution].

Record Ticket : Type := {
  id : JsVal;
  number : JsVal;
  tags : option (list string);
  subject : option string
}.

Record Agent : Type := {
  agent_id : JsVal;
  agent_name : JsVal
}.

Record Response : Type := {
  text : string;
  agent : option Agent
}.

(** [process.env], the variables the modelled functions read. *)
Record Env : Type := {
  DISABLE_SIGNATURE_VALIDATION : option string;
  HELPSCOUT_DYNAMIC_WIDGET_SECRET_KEY : option string;
  HELPSCOUT_APP_SECRET : option string;
  OPENAI_API_KEY : option string;
  OPENAI_MODEL : option string
}.

(** [config/ticket-classification.json] is read at start-up and is not
    among the sources; its shape is the one [getContextNote] accesses.
    It is a parameter of everything below. *)
Record ServicesRule : Type := {
  services_keywords : list string;
  services_context_note : string
}.

Record PresalesRule : Type := {
  presales_keywords : list string;
  presales_subject_keywords : list string;
  presales_context_note : string
}.

Record InvestigatingRule : Type := {
  investigating_phrases : list string;
  investigating_context_note : string
}.

Record TicketClassification : Type := {
  services : ServicesRule;
  presales : PresalesRule;
  investigating : InvestigatingRule
}.

(* ================================================================== *)
(** * 4. Signature verifier ([validateHelpScoutSignature]) *)
(* ================================================================== *)

Record HttpRequest : Type := {
  x_helpscout_signature : option string;
  rawBody : option string
}.

(** [crypto.timingSafeEqual(a, b)]: throws a [RangeError] ([None]) when
    the buffers differ in length. *)
Definition timingSafeEqual (a b : list Z) : option bool :=
  if (List.length a =? List.length b)%nat
  then Some (forallb (fun p => fst p =? snd p) (combine a b))
  else None.

(** Where the verifier leaves the function. *)
Inductive SignatureCheck : Type :=
| Disabled
| SecretNotConfigured
| HeaderMissing
| LengthMismatch
| Compared (isValid : bool)
| Caught.

Definition checkSignature (env : Env) (req : HttpRequest) : SignatureCheck :=
  if match DISABLE_SIGNATURE_VALIDATION env with
     | Some v => String.eqb v "true"
     | None => false
     end
  then Disabled
  else
    let signature := x_helpscout_signature req in
    let secret := or_else (HELPSCOUT_DYNAMIC_WIDGET_SECRET_KEY env)
                          (HELPSCOUT_APP_SECRET env) in
    match present secret with
    | None => SecretNotConfigured
    | Some secret =>
        match present signature with
        | None => HeaderMissing
        | Some signature =>
            let rawBody := text_or_empty (rawBody req) in
            let computedSignature := hmac_sha1_base64 secret rawBody in
            let signatureBuffer := bytes_of_string signature in
            let computedBuffer := bytes_of_string computedSignature in
            if negb (List.length signatureBuffer =? List.length computedBuffer)%nat
            then LengthMismatch
            else
              match timingSafeEqual signatureBuffer computedBuffer with
              | Some isValid => Compared isValid
              | None => Caught
              end
        end
    end.

Definition validateHelpScoutSignature (env : Env) (req : HttpRequest) : bool :=
  match checkSignature env req with
  | Disabled => true
  | Compared isValid => isValid
  | SecretNotConfigured | HeaderMissing | LengthMismatch | Caught => false
  end.

(** Did control reach [crypto.timingSafeEqual]? *)
Definition comparison_attempted (c : SignatureCheck) : bool :=
  match c with
  | Compared _ | Caught => true
  | _ => false
  end.

(* ================================================================== *)
(** * 5. Cache key (in the [POST /] handler) *)
(* ================================================================== *)

(** [createHash('md5').update(text).digest('hex').substring(0, 8)]. *)
Definition responseHash (text : string) : string :=
  take_str 8 (md5_hex text).

(** [`${ticket.id}_${responseHash}`]. *)
Definition cacheKey (ticket_id : JsVal) (text : string) : string :=
  String_ ticket_id +:+ "_" +:+ responseHash text.

(* ================================================================== *)
(** * 6. Context classifier and post-processor *)
(* ================================================================== *)

(** [keywords.some(keyword => s.toLowerCase().includes(keyword))]. *)
Definition has_keyword (keywords : list string) (s : string) : bool :=
  existsb (fun keyword => includes (toLowerCase s) keyword) keywords.

Definition isServicesTicket (config : TicketClassification) (ticketData : Ticket) : bool :=
  existsb (has_keyword (services_keywords (services config)))
          (default [] (tags ticketData)).

Definition isPresalesTicket (config : TicketClassification) (ticketData : Ticket) : bool :=
  existsb (has_keyword (presales_keywords (presales config)))
          (default [] (tags ticketData))
  || match subject ticketData with
     | Some s => truthy s && has_keyword (presales_subject_keywords (presales config)) s
     | None => false
     end.

Definition isInvestigating (config : TicketClassification) (cleanText : string) : bool :=
  existsb (fun phrase => includes (toLowerCase cleanText) (toLowerCase phrase))
          (investigating_phrases (investigating config)).

Definition getContextNote (config : TicketClassification)
    (ticketData : Ticket) (cleanText : string) : string :=
  if isServicesTicket config ticketData then services_context_note (services config)
  else if isPresalesTicket config ticketData then presales_context_note (presales config)
  else if isInvestigating config cleanText then investigating_context_note (investigating config)
  else EmptyString.

Definition set_feedback (f : string) (c : CategoryDetail) : CategoryDetail :=
  {| score := score c; feedback := f |}.

Definition services_tone_note : string :=
  "Services team communication - standard tone requirements adjusted".

(** The filter of the improvements list. *)
Definition keep_improvement (imp : string) : bool :=
  if (String.length imp <? 5)%nat then false
  else if includes (toLowerCase imp) "continue" && includes (toLowerCase imp) "good" then false
  else if String.eqb (toLowerCase imp) "no recommendations" then false
  else true.

Definition clean_improvements (imps : list string) : list string :=
  match List.filter keep_improvement imps with
  | [] => ["No recommendations"%string]
  | l => l
  end.

(** [validateEvaluation(evaluation, responseText, ticketData)].  The
    three repairs run in the order of the source, each on the result of
    the one before. *)
Definition fix_contradiction (evaluation : EvaluationResult) : EvaluationResult :=
  let clarityFeedback :=
    match category clarity_completeness evaluation with
    | Some c => feedback c | None => EmptyString end in
  let resolutionFeedback :=
    match category problem_resolution evaluation with
    | Some c => feedback c | None => EmptyString end in
  if includes (toLowerCase clarityFeedback) "concise"
     && includes (toLowerCase resolutionFeedback) "more detail"
  then
    {| overall_score := overall_score evaluation;
       categories :=
         option_map (fun cats =>
           {| tone_empathy := tone_empathy cats;
              clarity_completeness := clarity_completeness cats;
              standard_of_english := standard_of_english cats;
              problem_resolution :=
                option_map
                  (set_feedback
                     (trim (replace_ci_global "provide more detail" resolutionFeedback)))
                  (problem_resolution cats) |})
           (categories evaluation);
       key_improvements := key_improvements evaluation;
       error := error evaluation |}
  else evaluation.

Definition services_floor (config : TicketClassification) (ticketData : Ticket)
    (evaluation : EvaluationResult) : EvaluationResult :=
  if isServicesTicket config ticketData
  then
    {| overall_score := overall_score evaluation;
       categories :=
         option_map (fun cats =>
           {| tone_empathy :=
                option_map (fun t =>
                  {| score := Math_max (score t) 7; feedback := services_tone_note |})
                  (tone_empathy cats);
              clarity_completeness := clarity_completeness cats;
              standard_of_english := standard_of_english cats;
              problem_resolution := problem_resolution cats |})
           (categories evaluation);
       key_improvements := key_improvements evaluation;
       error := error evaluation |}
  else evaluation.

Definition tidy_improvements (evaluation : EvaluationResult) : EvaluationResult :=
  {| overall_score := overall_score evaluation;
     categories := categories evaluation;
     key_improvements := option_map clean_improvements (key_improvements evaluation);
     error := error evaluation |}.

Definition validateEvaluation (config : TicketClassification)
    (evaluation : EvaluationResult) (responseText : string)
    (ticketData : Ticket) : EvaluationResult :=
  tidy_improvements (services_floor config ticketData (fix_contradiction evaluation)).

(* ================================================================== *)
(** * 7. The evaluation engine call ([evaluateResponse]) *)
(* ================================================================== *)

(** What the [catch] block reads from a thrown error:
    [error.message] and [error.response?.data?.error?.message]. *)
Record JsError : Type := {
  message : string;
  api_error_message : option string
}.

(** How everything inside the [try] of [evaluateResponse] ends once the
    request is built: an evaluation was read from the reply, or
    something threw (the request was rejected or timed out, the reply
    could not be read or parsed). *)
Inductive ApiReply : Type :=
| Answered (evaluation : EvaluationResult)
| Threw (err : JsError).

Definition api_error_feedback : string := "Unable to evaluate - API error".

(** The object the [catch] block returns. *)
Definition error_result (err : JsError) : EvaluationResult :=
  let failed := Some {| score := 0; feedback := api_error_feedback |} in
  {| overall_score := 0;
     categories := Some {| tone_empathy := failed;
                           clarity_completeness := failed;
                           standard_of_english := failed;
                           problem_resolution := failed |};
     key_improvements := Some ["OpenAI API error occurred - check logs for details"%string];
     error := or_else (api_error_message err) (Some (message err)) |}.

Definition isGPT5 (model : string) : bool :=
  startsWith "gpt-5" model || startsWith "o1" model || startsWith "o3" model.

(** [evaluateResponse(cleanText, conversation, ticketData)].  The prompt
    only feeds the request; [openai_model] is the [model] entry of
    [config/openai.json], which is not among the sources. *)
Definition evaluateResponse (config : TicketClassification) (env : Env)
    (openai_model : string) (cleanText : string) (ticketData : Ticket)
    (reply : ApiReply) : EvaluationResult :=
  match present (OPENAI_API_KEY env) with
  | None =>
      error_result {| message := "OpenAI API key is missing";
                      api_error_message := None |}
  | Some _ =>
      let model := text_or_empty (or_else (OPENAI_MODEL env) (Some openai_model)) in
      match reply with
      | Answered evaluation =>
          if isGPT5 model then evaluation
          else validateEvaluation config evaluation cleanText ticketData
      | Threw err => error_result err
      end
  end.

(* ================================================================== *)
(** * 8. The ledger ([saveToGoogleSheets], [checkGoogleSheets]) *)
(* ================================================================== *)

(** A row as [spreadsheets.values.get] returns it: the cells of columns
    A to P as text, trailing empty cells left out. *)
Abbreviation Row := (list string).

(** The spreadsheet service, as the two calls see it: [values.append]
    with [valueInputOption: 'RAW'] stores the cells as given, after the
    last row; reading gives a number as its decimal text and a string
    unchanged. *)
Definition render_cell (v : JsVal) : string :=
  match v with
  | VNum n => number_text n
  | VStr s => s
  | VUndefined => EmptyString
  end.

Fixpoint drop_trailing_empty (cells : list string) : list string :=
  match cells with
  | [] => []
  | c :: r =>
      match drop_trailing_empty r with
      | [] => if truthy c then [c] else []
      | r' => c :: r'
      end
  end.

Definition values_append (sheet : list Row) (rowData : list JsVal) : list Row :=
  sheet ++ [drop_trailing_empty (map render_cell rowData)].

(** The array [rowData] of [saveToGoogleSheets]; [None] when building
    it throws (a missing agent, category or improvements list), which
    the surrounding [try] logs and swallows. *)
Definition rowData (timestamp : string) (ticket : Ticket) (response : Response)
    (evaluation : EvaluationResult) : option (list JsVal) :=
  a ← agent response;
  cats ← categories evaluation;
  te ← tone_empathy cats;
  cc ← clarity_completeness cats;
  se ← standard_of_english cats;
  pr ← problem_resolution cats;
  imps ← key_improvements evaluation;
  Some [ VStr timestamp; id ticket; agent_id a; agent_name a;
         VNum (overall_score evaluation);
         VNum (score te); VNum (score cc); VNum (score se); VNum (score pr);
         VStr (join "; " imps); VStr (text response); number ticket;
         VStr (feedback te); VStr (feedback cc); VStr (feedback se);
         VStr (feedback pr) ].

(** [saveToGoogleSheets]: the sheet afterwards.  [timestamp] is
    [new Date().toISOString()]; [accepted] tells whether the service
    took the append (a failure is logged and swallowed). *)
Definition saveToGoogleSheets (sheet : list Row) (timestamp : string)
    (accepted : bool) (ticket : Ticket) (response : Response)
    (evaluation : EvaluationResult) : list Row :=
  match rowData timestamp ticket response evaluation with
  | Some cells => if accepted then values_append sheet cells else sheet
  | None => sheet
  end.

(** How [spreadsheets.values.get] settles. *)
Inductive SheetsGet : Type :=
| Resolved (values : list Row)
| Rejected.

(** [String(row[1])]: a missing cell is [undefined]. *)
Definition String_cell (cell : option string) : string :=
  match cell with Some s => s | None => "undefined"%string end.

(** [row[0] ? row[0].split('T')[0] : null]. *)
Definition rowDate (row : Row) : option string :=
  match present (row !! 0%nat) with
  | Some stamp => Some (before_first "T" stamp)
  | None => None
  end.

Definition row_matches (today : string) (ticketId : JsVal) (row : Row) : bool :=
  String.eqb (String_cell (row !! 1%nat)) (String_ ticketId)
  && match rowDate row with
     | Some d => String.eqb d today
     | None => false
     end.

Definition row_category (row : Row) (score_col feedback_col : nat) : option CategoryDetail :=
  Some {| score := parse_or_zero (row !! score_col);
          feedback := text_or_empty (row !! feedback_col) |}.

(** The object built from a matching row. *)
Definition row_evaluation (row : Row) : EvaluationResult :=
  {| overall_score := parse_or_zero (row !! 4%nat);
     categories :=
       Some {| tone_empathy := row_category row 5 12;
               clarity_completeness := row_category row 6 13;
               standard_of_english := row_category row 7 14;
               problem_resolution := row_category row 8 15 |};
     key_improvements :=
       Some (List.filter truthy (split "; " (text_or_empty (row !! 9%nat))));
     error := None |}.

(** [checkGoogleSheets(ticketId, googleSheets)].  [googleSheets] is
    [None] without a client; [now] is [new Date().toISOString()].  The
    loop runs from the last row to the first and returns at the first
    match. *)
Definition checkGoogleSheets (now : string) (ticketId : JsVal)
    (googleSheets : option SheetsGet) : option EvaluationResult :=
  match googleSheets with
  | None => None
  | Some Rejected => None
  | Some (Resolved rows) =>
      let today := before_first "T" now in
      option_map row_evaluation (List.find (row_matches today ticketId) (rev rows))
  end.

(* ================================================================== *)
(** * 9. The memory cache ([lru-cache], [max: 500]) *)
(* ================================================================== *)

(** Entries from the most to the least recently used.  The time-to-live
    of an entry needs a clock and is not modelled. *)
Definition LRUCache : Type := list (string * EvaluationResult).

Definition cache_max : nat := 500.

Definition is_key (k : string) (e : string * EvaluationResult) : bool :=
  String.eqb (fst e) k.

Definition cache_has (k : string) (c : LRUCache) : bool :=
  existsb (is_key k) c.

Definition cache_without (k : string) (c : LRUCache) : LRUCache :=
  List.filter (fun e => negb (is_key k e)) c.

(** [cache.get(k)]: the value, and the cache with the entry moved to
    the front. *)
Definition cache_get (k : string) (c : LRUCache) : option EvaluationResult * LRUCache :=
  match List.find (is_key k) c with
  | Some (_, v) => (Some v, (k, v) :: cache_without k c)
  | None => (None, c)
  end.

(** [cache.set(k, v)]: the entry goes to the front and the least
    recently used ones beyond [max] are evicted. *)
Definition cache_set (k : string) (v : EvaluationResult) (c : LRUCache) : LRUCache :=
  firstn cache_max ((k, v) :: cache_without k c).

(* ================================================================== *)
(** * 10. The orchestrator ([process], [evaluateInBackground]) *)
(* ================================================================== *)

(** The process-wide state of the entry point and the ledger, together
    with what the event loop holds: the calls of [process] suspended at
    the ledger lookup, and logs of the cache keys for which
    [evaluateInBackground] was started and for which it has settled. *)
Record World : Type := {
  evaluationCache : LRUCache;
  runningEvaluations : gset string;
  ledger : list Row;
  awaiting : list string;
  dispatched : list string;
  settled : list string
}.

Definition initial_world : World :=
  {| evaluationCache := []; runningEvaluations := ∅; ledger := [];
     awaiting := []; dispatched := []; settled := [] |}.

(** The argument of [process]; [sheets] tells whether a spreadsheet
    client was configured. *)
Record Data : Type := {
  ticket : Ticket;
  response : Response;
  key : string;
  sheets : bool
}.

(** The argument the [POST /] handler builds. *)
Definition handler_data (t : Ticket) (r : Response) (sheetsClient : bool) : Data :=
  {| ticket := t; response := r; key := cacheKey (id t) (text r); sheets := sheetsClient |}.

(** ** Rendering ([renderEvaluation], [escapeHtml]) *)

Definition quot : ascii := ascii_of_N 34.

Definition apos : ascii := ascii_of_N 39.

(** Replace every character by a text. *)
Fixpoint map_chars (f : ascii -> string) (s : string) : string :=
  match s with
  | EmptyString => EmptyString
  | String c r => f c +:+ map_chars f r
  end.

(** The table of the section's [escapeHtml]. *)
Definition escape_entity (c : ascii) : string :=
  if Ascii.eqb c "&" then "&amp;"
  else if Ascii.eqb c "<" then "&lt;"
  else if Ascii.eqb c ">" then "&gt;"
  else if Ascii.eqb c quot then "&quot;"
  else if Ascii.eqb c apos then "&#039;"
  else String c EmptyString.

(** [EvaluationSection.escapeHtml]: one pass over the text, each of the
    five special characters replaced by its entry in [map]. *)
Definition escapeHtml (text : string) : string := map_chars escape_entity text.

(** What [process] returns: the evaluation template filled from an
    evaluation, the error template filled with a message, or the
    processing template.  The templates themselves are not among the
    sources. *)
Inductive Html : Type :=
| Scorecard (evaluation : EvaluationResult)
| ErrorPage (error_message : string)
| ProcessingPlaceholder.

Definition rendering_failed : string :=
  "Unable to display evaluation results. Please refresh the page.".

(** [renderEvaluation(evaluation)]: an evaluation with a non-empty
    [error] gives the error template with that message; reading a
    field of [undefined] (no evaluation, or no [categories]) throws
    inside the [try], and the [catch] returns the error template with
    a fixed message; otherwise the evaluation template is filled. *)
Definition renderEvaluation (evaluation : option EvaluationResult) : Html :=
  match evaluation with
  | None => ErrorPage (escapeHtml rendering_failed)
  | Some e =>
      match present (error e) with
      | Some shown => ErrorPage (escapeHtml shown)
      | None =>
          match categories e with
          | Some _ => Scorecard e
          | None => ErrorPage (escapeHtml rendering_failed)
          end
      end
  end.

(** The two tests at the head of [process]: [Some html] when the call
    returns there, [None] when it goes on to the ledger lookup. *)
Definition process_head (w : World) (data : Data) : World * option Html :=
  if cache_has (key data) (evaluationCache w) then
    let (cachedEvaluation, c) := cache_get (key data) (evaluationCache w) in
    ({| evaluationCache := c;
        runningEvaluations := runningEvaluations w;
        ledger := ledger w;
        awaiting := awaiting w;
        dispatched := dispatched w;
        settled := settled w |},
     Some (renderEvaluation cachedEvaluation))
  else if bool_decide (key data ∈ runningEvaluations w) then
    (w, Some ProcessingPlaceholder)
  else (w, None).

(** [process], from the moment the ledger lookup settled with
    [sheetsEvaluation] to its return. *)
Definition process_tail (w : World) (data : Data)
    (sheetsEvaluation : option EvaluationResult) : World * Html :=
  match sheetsEvaluation with
  | Some found =>
      ({| evaluationCache := cache_set (key data) found (evaluationCache w);
          runningEvaluations := runningEvaluations w;
          ledger := ledger w;
          awaiting := awaiting w;
          dispatched := dispatched w;
          settled := settled w |},
       renderEvaluation (Some found))
  | None =>
      ({| evaluationCache := evaluationCache w;
          runningEvaluations := {[ key data ]} ∪ runningEvaluations w;
          ledger := ledger w;
          awaiting := awaiting w;
          dispatched := dispatched w ++ [key data];
          settled := settled w |},
       ProcessingPlaceholder)
  end.

(** The lookup [process] awaits, against the ledger as it stands. *)
Definition ledger_lookup (w : World) (data : Data) (now : string)
    (reachable : bool) : option EvaluationResult :=
  checkGoogleSheets now (id (ticket data))
    (if sheets data
     then Some (if reachable then Resolved (ledger w) else Rejected)
     else None).

(** A call of [process] that no other turn of the event loop
    interleaves with. *)
Definition process_alone (w : World) (data : Data) (now : string)
    (reachable : bool) : World * Html :=
  match process_head w data with
  | (w', Some html) => (w', html)
  | (w', None) => process_tail w' data (ledger_lookup w' data now reachable)
  end.

(** Remove the first occurrence of [k]; [None] when there is none. *)
Fixpoint take_one (k : string) (l : list string) : option (list string) :=
  match l with
  | [] => None
  | x :: r =>
      if String.eqb x k then Some r
      else option_map (cons x) (take_one k r)
  end.

Definition suspend (w : World) (k : string) : World :=
  {| evaluationCache := evaluationCache w;
     runningEvaluations := runningEvaluations w;
     ledger := ledger w;
     awaiting := awaiting w ++ [k];
     dispatched := dispatched w;
     settled := settled w |}.

Definition wake (w : World) (rest : list string) : World :=
  {| evaluationCache := evaluationCache w;
     runningEvaluations := runningEvaluations w;
     ledger := ledger w;
     awaiting := rest;
     dispatched := dispatched w;
     settled := settled w |}.

Section Orchestrator.

Variable config : TicketClassification.
Variable env : Env.
Variable openai_model : string.
(** [decodeHtml] relies on the entity table of the [he] package. *)
Variable decodeHtml : string -> string.

(** [evaluateInBackground], from the moment the engine call settled
    with [reply]: the result is cached, then saved to the ledger. *)
Definition background_settle (w : World) (data : Data) (reply : ApiReply)
    (timestamp : string) (accepted : bool) : World :=
  let cleanText := decodeHtml (text (response data)) in
  let evaluation := evaluateResponse config env openai_model cleanText (ticket data) reply in
  {| evaluationCache := cache_set (key data) evaluation (evaluationCache w);
     runningEvaluations := runningEvaluations w;
     ledger :=
       match sheets data, agent (response data) with
       | true, Some _ =>
           saveToGoogleSheets (ledger w) timestamp accepted
             (ticket data) (response data) evaluation
       | _, _ => ledger w
       end;
     awaiting := awaiting w;
     dispatched := dispatched w;
     settled := settled w |}.

(** The [finally] callback attached in [process]. *)
Definition background_finally (w : World) (data : Data) : World :=
  {| evaluationCache := evaluationCache w;
     runningEvaluations := runningEvaluations w ∖ {[ key data ]};
     ledger := ledger w;
     awaiting := awaiting w;
     dispatched := dispatched w;
     settled := settled w ++ [key data] |}.

(** The turns of the event loop that touch the shared state: a call of
    [process] arrives and runs up to its [await]; a suspended call is
    resumed with the answer of the ledger; a background evaluation gets
    the answer of the engine; its [finally] callback runs.  Without a
    spreadsheet client [checkGoogleSheets] returns at once and the call
    goes on in the same turn; with one, the lookup is a network request
    and other turns may run before its answer. *)
Inductive Event : Type :=
| Arrives (data : Data)
| LedgerReplied (data : Data) (now : string) (reachable : bool)
| EngineReplied (data : Data) (reply : ApiReply) (timestamp : string) (accepted : bool)
| Finally (data : Data).

Definition step (w : World) (e : Event) : World * option Html :=
  match e with
  | Arrives data =>
      match process_head w data with
      | (w', Some html) => (w', Some html)
      | (w', None) =>
          if sheets data then (suspend w' (key data), None)
          else let (w'', html) := process_tail w' data None in (w'', Some html)
      end
  | LedgerReplied data now reachable =>
      match take_one (key data) (awaiting w) with
      | Some rest =>
          let (w', html) :=
            process_tail (wake w rest) data (ledger_lookup w data now reachable) in
          (w', Some html)
      | None => (w, None)
      end
  | EngineReplied data reply timestamp accepted =>
      (background_settle w data reply timestamp accepted, None)
  | Finally data => (background_finally w data, None)
  end.

(** Run a schedule; the pages returned, in order. *)
Fixpoint run (w : World) (schedule : list Event) : World * list Html :=
  match schedule with
  | [] => (w, [])
  | e :: rest =>
      let (w1, out) := step w e in
      let (w2, outs) := run w1 rest in
      (w2, match out with Some html => html :: outs | None => outs end)
  end.

End Orchestrator.

(** Background evaluations started and not yet settled for the key. *)
Definition in_flight (w : World) (k : string) : Z :=
  Z.of_nat (count_occ string_dec (dispatched w) k)
  - Z.of_nat (count_occ string_dec (settled w) k).

(** [n] calls of [process] for [data], one after the other. *)
Fixpoint process_repeatedly (w : World) (data : Data) (calls : list (string * bool))
    : World * list Html :=
  match calls with
  | [] => (w, [])
  | (now, reachable) :: rest =>
      let (w1, html) := process_alone w data now reachable in
      let (w2, htmls) := process_repeatedly w1 data rest in
      (w2, html :: htmls)
  end.

(* ================================================================== *)
(** * 11. The vocabulary of the specification *)
(* ================================================================== *)

(** [p] occurs in [s]. *)
Definition Substring (p s : string) : Prop :=
  exists pre post, s = pre +:+ p +:+ post.

(** The rules in the words of the specification.  [contains_ci s k]:
    [k] occurs in [s] when case is ignored. *)
Definition contains_ci (s keyword : string) : Prop :=
  Substring (toLowerCase keyword) (toLowerCase s).

Definition spec_services_ticket (config : TicketClassification) (ticketData : Ticket) : Prop :=
  exists tag keyword,
    In tag (default [] (tags ticketData))
    /\ In keyword (services_keywords (services config))
    /\ contains_ci tag keyword.

Definition spec_presales_ticket (config : TicketClassification) (ticketData : Ticket) : Prop :=
  (exists tag keyword,
      In tag (default [] (tags ticketData))
      /\ In keyword (presales_keywords (presales config))
      /\ contains_ci tag keyword)
  \/ (exists s keyword,
         subject ticketData = Some s
         /\ In keyword (presales_subject_keywords (presales config))
         /\ contains_ci s keyword).

Definition spec_investigating (config : TicketClassification) (cleanText : string) : Prop :=
  exists phrase,
    In phrase (investigating_phrases (investigating config))
    /\ contains_ci cleanText phrase.

(** The classification file writes its keywords in lower case, and no
    subject keyword is empty; the code compares a keyword as written
    with the lower-cased tag or subject. *)
Definition lower_case (s : string) : Prop := toLowerCase s = s.

Record keywords_well_formed (config : TicketClassification) : Prop := {
  services_lower : Forall lower_case (services_keywords (services config));
  presales_lower : Forall lower_case (presales_keywords (presales config));
  subject_lower : Forall lower_case (presales_subject_keywords (presales config));
  subject_nonempty :
    Forall (fun k => k <> EmptyString) (presales_subject_keywords (presales config))
}.

(** Each of the four fixed categories is there with a score in
    [[lo, hi]]. *)
Definition scores_within (lo hi : Z) (evaluation : EvaluationResult) : Prop :=
  forall sel, In sel fixed_categories ->
    exists c, category sel evaluation = Some c /\ (lo <= score c <= hi)%num.

(** [k] is in the cache with value [v]. *)
Definition cached (k : string) (c : LRUCache) (v : EvaluationResult) : Prop :=
  exists k', List.find (is_key k) c = Some (k', v).

(** The value of a digit sequence read from the left with a running
    total, as [read_digits] computes it. *)
Fixpoint uint_value (d : Decimal.uint) (acc : Z) : Z :=
  match d with
  | Decimal.Nil => acc
  | Decimal.D0 r => uint_value r (10 * acc)
  | Decimal.D1 r => uint_value r (10 * acc + 1)
  | Decimal.D2 r => uint_value r (10 * acc + 2)
  | Decimal.D3 r => uint_value r (10 * acc + 3)
  | Decimal.D4 r => uint_value r (10 * acc + 4)
  | Decimal.D5 r => uint_value r (10 * acc + 5)
  | Decimal.D6 r => uint_value r (10 * acc + 6)
  | Decimal.D7 r => uint_value r (10 * acc + 7)
  | Decimal.D8 r => uint_value r (10 * acc + 8)
  | Decimal.D9 r => uint_value r (10 * acc + 9)
  end.

(** [row] was stored for the ticket [ticketId] on the day [today]: its
    id cell is the text of the number and its time stamp is of that
    day. *)
Definition stored_for (ticketId : JsNum) (today : string) (row : Row) : Prop :=
  row !! 1%nat = Some (number_text ticketId)
  /\ exists stamp,
       row !! 0%nat = Some stamp /\ stamp <> EmptyString
       /\ before_first "T" stamp = today.

(** The in-flight set tells the truth: a key has one evaluation in
    flight when it is in [runningEvaluations], none otherwise. *)
Definition single_flight (w : World) : Prop :=
  forall k,
    in_flight w k = if bool_decide (k ∈ runningEvaluations w) then 1 else 0.

(** The states reached when no call of [process] is interleaved with
    another turn: calls run from start to end, engine answers arrive,
    and [finally] runs for evaluations that were started. *)
Inductive reached_in_turn (config : TicketClassification) (env : Env)
    (openai_model : string) (decodeHtml : string -> string) : World -> Prop :=
| reached_initial :
    reached_in_turn config env openai_model decodeHtml initial_world
| reached_call w data now reachable :
    reached_in_turn config env openai_model decodeHtml w ->
    reached_in_turn config env openai_model decodeHtml
      (fst (process_alone w data now reachable))
| reached_settle w data reply timestamp accepted :
    reached_in_turn config env openai_model decodeHtml w ->
    reached_in_turn config env openai_model decodeHtml
      (background_settle config env openai_model decodeHtml w data reply
         timestamp accepted)
| reached_finally w data :
    reached_in_turn config env openai_model decodeHtml w ->
    key data ∈ runningEvaluations w ->
    reached_in_turn config env openai_model decodeHtml (background_finally w data).

(* ================================================================== *)
(** * 12. Sample data for the worked instances *)
(* ================================================================== *)

Definition sample_config : TicketClassification :=
  {| services :=
       {| services_keywords := ["services"; "custom-dev"]%string;
          services_context_note := " This is a services ticket." |};
     presales :=
       {| presales_keywords := ["presales"; "pre-sales"]%string;
          presales_subject_keywords := ["pre-sale"; "before buying"]%string;
          presales_context_note := " This is a presales ticket." |};
     investigating :=
       {| investigating_phrases := ["looking into"; "Investigating"]%string;
          investigating_context_note := " The agent is investigating." |} |}.

Definition sample_env : Env :=
  {| DISABLE_SIGNATURE_VALIDATION := None;
     HELPSCOUT_DYNAMIC_WIDGET_SECRET_KEY := Some "Jefe"%string;
     HELPSCOUT_APP_SECRET := None;
     OPENAI_API_KEY := Some "test-key"%string;
     OPENAI_MODEL := Some "gpt-4"%string |}.

Definition services_ticket : Ticket :=
  {| id := VNum 4711; number := VNum 12;
     tags := Some ["VIP"; "Services-Team"]%string;
     subject := Some "Custom layout"%string |}.


Definition sample_response : Response :=
  {| text := "<p>Thanks for reaching out!</p>";
     agent := Some {| agent_id := VNum 7; agent_name := VStr "Alex" |} |}.

Definition sample_evaluation : EvaluationResult :=
  {| overall_score := 8;
     categories :=
       Some {| tone_empathy := Some {| score := 5; feedback := "Curt greeting" |};
               clarity_completeness :=
                 Some {| score := 8; feedback := "Clear but could be more concise" |};
               standard_of_english := Some {| score := 9; feedback := EmptyString |};
               problem_resolution :=
                 Some {| score := 6;
                         feedback := "Please provide more detail on the setup steps and more detail on pricing" |} |};
     key_improvements := Some ["Thank the customer at the start"; "ok"]%string;
     error := None |}.

(** The reply the prompt gives as its example, with the four
    categories the code reads. *)
Definition prompt_evaluation : EvaluationResult :=
  {| overall_score := decimal 85 1;
     categories :=
       Some {| tone_empathy :=
                 Some {| score := 9;
                         feedback := "Great empathetic tone, thanked customer at start" |};
               clarity_completeness :=
                 Some {| score := 8;
                         feedback := "Clear explanation but could be more concise" |};
               standard_of_english :=
                 Some {| score := 7;
                         feedback := "Could use more natural phrasing in some areas" |};
               problem_resolution :=
                 Some {| score := 8;
                         feedback := "Addressed the issue but could suggest more alternatives" |} |};
     key_improvements :=
       Some ["Consider suggesting an alternative approach";
             "Add a link to the relevant documentation"]%string;
     error := None |}.

Definition sample_error : JsError :=
  {| message := "timeout of 60000ms exceeded"; api_error_message := None |}.

Definition sample_data : Data :=
  handler_data services_ticket sample_response true.
From Stdlib Require Import Sorted Permutation.

(* ================================================================== *)
(** * 13. The signature script ([test-signature.js]) *)
(* ================================================================== *)

(** The script signs with [crypto.createHmac('sha256', secret)];
    SHA-256 is transcribed from FIPS 180-4. *)
Module Sha256.

(** The constants of the standard are fractional parts of roots of the
    first primes.  [root_search] looks for the integer [k]-th root of
    [x] between [lo] and [hi] by halving. *)
Fixpoint root_search (fuel : nat) (k x lo hi : Z) : Z :=
  match fuel with
  | O => lo
  | S fuel' =>
      let mid := (lo + hi) / 2 in
      if mid ^ k <=? x then root_search fuel' k x mid hi
      else root_search fuel' k x lo mid
  end.

(** The first 32 bits of the fractional part of the [k]-th root of
    [p]. *)
Definition root_fraction (k p : Z) : Z :=
  w32 (root_search 40 k (p * 2 ^ (32 * k)) 0 (2 ^ 36)).

Definition is_prime (n : nat) : bool :=
  forallb (fun d => negb (Nat.eqb (Nat.modulo n d) 0)) (seq 2 (n - 2)).

Definition first_primes (count : nat) : list Z :=
  map Z.of_nat (firstn count (List.filter is_prime (seq 2 400))).

(** The 64 round constants: cube roots of the first 64 primes. *)
Definition K256 : list Z :=
  Eval vm_compute in map (root_fraction 3) (first_primes 64).

Definition regs8 : Type := (Z * Z * Z * Z * Z * Z * Z * Z)%type.

(** The initial hash value: square roots of the first 8 primes. *)
Definition iv8 : regs8 :=
  Eval vm_compute in
    match map (root_fraction 2) (first_primes 8) with
    | [a; b; c; d; e; f; g; h] => (a, b, c, d, e, f, g, h)
    | _ => (0, 0, 0, 0, 0, 0, 0, 0)
    end.

Definition rotr32 (x c : Z) : Z := rotl32 x (32 - c).

(** The message schedule, latest word first: each new word comes from
    the words 2, 7, 15 and 16 places back. *)
Fixpoint expand256 (n : nat) (w : list Z) : list Z :=
  match n with
  | O => w
  | S n' =>
      let w15 := nthZ w 14 in
      let w2 := nthZ w 1 in
      let s0 := Z.lxor (Z.lxor (rotr32 w15 7) (rotr32 w15 18)) (Z.shiftr w15 3) in
      let s1 := Z.lxor (Z.lxor (rotr32 w2 17) (rotr32 w2 19)) (Z.shiftr w2 10) in
      expand256 n' (w32 (nthZ w 15 + s0 + nthZ w 6 + s1) :: w)
  end.

Definition schedule256 (bs : list Z) : list Z :=
  rev (expand256 48 (rev (map be_word (chunks 16 4 bs)))).

Definition round256 (W : list Z) (st : regs8) (i : nat) : regs8 :=
  let '(a, b, c, d, e, f, g, h) := st in
  let S1 := Z.lxor (Z.lxor (rotr32 e 6) (rotr32 e 11)) (rotr32 e 25) in
  let ch := Z.lxor (Z.land e f) (Z.land (not32 e) g) in
  let t1 := w32 (h + S1 + ch + nthZ K256 i + nthZ W i) in
  let S0 := Z.lxor (Z.lxor (rotr32 a 2) (rotr32 a 13)) (rotr32 a 22) in
  let maj := Z.lxor (Z.lxor (Z.land a b) (Z.land a c)) (Z.land b c) in
  let t2 := w32 (S0 + maj) in
  (w32 (t1 + t2), a, b, c, w32 (d + t1), e, f, g).

Definition compress256 (st : regs8) (bs : list Z) : regs8 :=
  let W := schedule256 bs in
  let '(a, b, c, d, e, f, g, h) := st in
  let '(a', b', c', d', e', f', g', h') := fold_left (round256 W) (seq 0 64) st in
  (w32 (a + a'), w32 (b + b'), w32 (c + c'), w32 (d + d'),
   w32 (e + e'), w32 (f + f'), w32 (g + g'), w32 (h + h')).

Definition sha256 (msg : list Z) : list Z :=
  let p := Sha1.pad_be msg in
  let '(a, b, c, d, e, f, g, h) :=
    fold_left compress256 (chunks (Nat.div (List.length p) 64) 64 p) iv8 in
  be_bytes 4 a ++ be_bytes 4 b ++ be_bytes 4 c ++ be_bytes 4 d
  ++ be_bytes 4 e ++ be_bytes 4 f ++ be_bytes 4 g ++ be_bytes 4 h.

Definition hmac256 (key msg : list Z) : list Z :=
  let k0 := if (64 <? List.length key)%nat then sha256 key else key in
  let k := k0 ++ zeros (64 - List.length k0) in
  let ipad := map (Z.lxor 0x36) k in
  let opad := map (Z.lxor 0x5c) k in
  sha256 (opad ++ sha256 (ipad ++ msg)).

End Sha256.

(** [generateSignature(body, secret)] of the script; [serialized] is
    [JSON.stringify(body)]. *)
Definition generateSignature (serialized secret : string) : string :=
  base64 (Sha256.hmac256 (bytes_of_string secret) (bytes_of_string serialized)).

(** The body of [validateHelpScoutSignature] that the request reaches
    with validation on, a secret and a header: the signature the
    server computes for it. *)
Definition computedSignature (secret : string) (req : HttpRequest) : string :=
  hmac_sha1_base64 secret (text_or_empty (rawBody req)).

(** Every character of [s] passes [ok]. *)
Fixpoint all_chars (ok : ascii -> bool) (s : string) : bool :=
  match s with
  | EmptyString => true
  | String c r => ok c && all_chars ok r
  end.

(** [0-9a-f]. *)
Definition is_hex_char (c : ascii) : bool :=
  let n := N_of_ascii c in
  (((48 <=? n) && (n <=? 57)) || ((97 <=? n) && (n <=? 102)))%N.

(* ================================================================== *)
(** * 14. Escaping at the entry point ([escapeHtml] of [server.js]) *)
(* ================================================================== *)

(** [s.replace(/c/g, r)] for one character [c]. *)
Definition replace_char (c : ascii) (r : string) (s : string) : string :=
  map_chars (fun x => if Ascii.eqb x c then r else String x EmptyString) s.

(** The [escapeHtml] of the entry point: empty for a missing or empty
    text, else five replacements one after the other, [&] first. *)
Definition escapeHtml_server (text : option string) : string :=
  match present text with
  | None => EmptyString
  | Some t =>
      replace_char apos "&#39;"
        (replace_char quot "&quot;"
           (replace_char ">" "&gt;"
              (replace_char "<" "&lt;"
                 (replace_char "&" "&amp;" t))))
  end.

(** The five passes of the entry point, seen on one character. *)
Definition server_entity (c : ascii) : string :=
  if Ascii.eqb c apos then "&#39;" else escape_entity c.

(** The characters that open or close markup or an attribute value. *)
Definition is_markup (c : ascii) : bool :=
  Ascii.eqb c "<" || Ascii.eqb c ">" || Ascii.eqb c quot || Ascii.eqb c apos.

Definition not_markup (c : ascii) : bool := negb (is_markup c).

(* ================================================================== *)
(** * 15. Chat detection ([shouldDisplay]) *)
(* ================================================================== *)

(** The fields of the ticket that [shouldDisplay] reads; [source_type]
    is [ticket.source?.type]. *)
Record DisplayTicket : Type := {
  ticket_type : JsVal;
  source_type : JsVal;
  ticket_subject : option string
}.

(** [v === s]. *)
Definition is_string (v : JsVal) (s : string) : bool :=
  match v with
  | VStr t => String.eqb t s
  | _ => false
  end.

(** [typeof v === 'string' && names.includes(v.toLowerCase())]. *)
Definition lower_is_among (v : JsVal) (names : list string) : bool :=
  match v with
  | VStr t => existsb (String.eqb (toLowerCase t)) names
  | _ => false
  end.

Definition shouldDisplay (t : DisplayTicket) : bool :=
  let isChatConversation :=
    is_string (ticket_type t) "chat"
    || is_string (source_type t) "chat"
    || is_string (source_type t) "beacon"
    || lower_is_among (ticket_type t) ["chat"%string]
    || lower_is_among (source_type t) ["chat"; "beacon"]%string
    || match present (ticket_subject t) with
       | Some s => startsWith "Live chat on " s
       | None => false
       end in
  negb isChatConversation.

(* ================================================================== *)
(** * 16. Conversation threads ([findLatestTeamResponse],
      [getConversationContext], [decodeHtml]) *)
(* ================================================================== *)

(** [thread.createdBy]: a plain name, an object with [type], [id] and
    [first], or nothing. *)
Inductive CreatedBy : Type :=
| CreatedByName (name : string)
| CreatedByPerson (person_type : option string) (person_id : JsVal)
    (first : option string)
| CreatedByNobody.

(** A thread; [createdAt] is the time value of [new Date(createdAt)],
    in milliseconds. *)
Record Thread : Type := {
  createdAt : Z;
  thread_type : option string;
  createdBy : CreatedBy;
  body : option string
}.

(** [createdBy === who || createdBy?.type === who]. *)
Definition created_by (who : string) (c : CreatedBy) : bool :=
  match c with
  | CreatedByName name => String.eqb name who
  | CreatedByPerson (Some t) _ _ => String.eqb t who
  | CreatedByPerson None _ _ => false
  | CreatedByNobody => false
  end.

(** [Array.prototype.sort] is stable; with a comparator that orders by
    time its result is the stable sorted arrangement, built here by
    insertion from the right.  [before a b] tells whether a thread of
    time [a] must come strictly before one of time [b]. *)
Fixpoint insert_thread (before : Z -> Z -> bool) (x : Thread) (l : list Thread)
    : list Thread :=
  match l with
  | [] => [x]
  | y :: r =>
      if before (createdAt y) (createdAt x)
      then y :: insert_thread before x r
      else x :: y :: r
  end.

Definition sort_threads (before : Z -> Z -> bool) (l : list Thread) : list Thread :=
  fold_right (insert_thread before) [] l.

(** [(a, b) => new Date(b.createdAt) - new Date(a.createdAt)]. *)
Definition newest_first (a b : Z) : bool := b <? a.

(** [(a, b) => new Date(a.createdAt) - new Date(b.createdAt)]. *)
Definition oldest_first (a b : Z) : bool := a <? b.

(** What [findLatestTeamResponse] returns. *)
Record TeamResponse : Type := {
  latest_text : string;
  latest_createdAt : Z;
  latest_createdBy : CreatedBy
}.

(** [thread.type === 'message' && isUser && thread.body]. *)
Definition is_team_message (t : Thread) : bool :=
  match thread_type t with Some ty => String.eqb ty "message" | None => false end
  && created_by "user" (createdBy t)
  && match present (body t) with Some _ => true | None => false end.

(** [findLatestTeamResponse(conversation)]; the argument is
    [conversation._embedded?.threads]. *)
Definition findLatestTeamResponse (threads : option (list Thread)) : option TeamResponse :=
  match threads with
  | None => None
  | Some ts =>
      match List.find is_team_message (sort_threads newest_first ts) with
      | Some t =>
          Some {| latest_text := text_or_empty (body t);
                  latest_createdAt := createdAt t;
                  latest_createdBy := createdBy t |}
      | None => None
      end
  end.

(** [l.slice(-n)]. *)
Definition last_n (n : nat) (l : list Thread) : list Thread :=
  skipn (List.length l - n) l.

Definition sender (c : CreatedBy) : string :=
  if created_by "customer" c then "CUSTOMER"
  else if created_by "user" c then "TEAM"
  else "SYSTEM".

Definition blank_line : string :=
  String (ascii_of_N 10) (String (ascii_of_N 10) EmptyString).

Section ConversationContext.

(** [decodeHtml], defined below from the entity decoder of [he]. *)
Variable decode : string -> string.

(** [`${sender}: ${text}`]. *)
Definition context_line (t : Thread) : string :=
  sender (createdBy t) +:+ ": "
  +:+ match present (body t) with
      | Some b => decode b
      | None => EmptyString
      end.

(** The threads the context is built from: the last five in time
    order. *)
Definition context_window (ts : list Thread) : list Thread :=
  last_n 5 (sort_threads oldest_first ts).

(** [getConversationContext(conversation)]. *)
Definition getConversationContext (threads : option (list Thread)) : string :=
  match threads with
  | None => EmptyString
  | Some ts =>
      join blank_line
        (List.filter (fun msg => (10 <? String.length msg)%nat)
           (map context_line (context_window ts)))
  end.

End ConversationContext.

(** Is there a [>] in [s]? *)
Fixpoint has_gt (s : string) : bool :=
  match s with
  | EmptyString => false
  | String c r => Ascii.eqb c ">" || has_gt r
  end.

(** [decoded.replace(/<[^>]*>/g, ' ')]: a [<] opens a match when a [>]
    follows somewhere; the match runs to the first [>] and becomes one
    space.  [in_tag] tells that the scan is inside a match. *)
Fixpoint strip_tags (in_tag : bool) (s : string) : string :=
  match s with
  | EmptyString => EmptyString
  | String c r =>
      if in_tag then
        if Ascii.eqb c ">" then strip_tags false r else strip_tags true r
      else if Ascii.eqb c "<" then
        if has_gt r then String " " (strip_tags true r) else s
      else String c (strip_tags false r)
  end.

(** [decoded.replace(/\s+/g, ' ')]: each run of white space becomes one
    space.  [in_run] tells that the character before was white
    space.  White space is that of [is_space], the ASCII part of what
    the class and [trim] match. *)
Fixpoint collapse_spaces (in_run : bool) (s : string) : string :=
  match s with
  | EmptyString => EmptyString
  | String c r =>
      if is_space c then
        if in_run then collapse_spaces true r
        else String " " (collapse_spaces true r)
      else String c (collapse_spaces false r)
  end.

(** [decodeHtml(text)]; [he_decode] is [he.decode], the entity decoder
    of the [he] package. *)
Definition decodeHtml (he_decode : string -> string) (text : string) : string :=
  trim (collapse_spaces false (strip_tags false (he_decode text))).

(** All white space in [s] is single spaces; with [after_space] the
    text may not start with one. *)
Fixpoint single_spaced (after_space : bool) (s : string) : bool :=
  match s with
  | EmptyString => true
  | String c r =>
      if is_space c
      then Ascii.eqb c " " && negb after_space && single_spaced true r
      else single_spaced false r
  end.

(** The last character of [s] is white space. *)
Fixpoint ends_in_space (s : string) : bool :=
  match s with
  | EmptyString => false
  | String c EmptyString => is_space c
  | String _ r => ends_in_space r
  end.

(** Some [<] of [s] is followed, somewhere, by a [>]; [opened] tells
    that a [<] was met already. *)
Fixpoint tag_scan (opened : bool) (s : string) : bool :=
  match s with
  | EmptyString => false
  | String c r =>
      if Ascii.eqb c ">" && opened then true
      else tag_scan (opened || Ascii.eqb c "<") r
  end.

(** No [;] in the text. *)
Definition no_semicolon (s : string) : bool :=
  all_chars (fun c => negb (Ascii.eqb c ";")) s.

(** An improvement the sheet gives back as written: not empty and
    without [;]. *)
Definition plain_entry (s : string) : Prop :=
  s <> EmptyString /\ no_semicolon s = true.

(* ================================================================== *)
(** * 17. A new process *)
(* ================================================================== *)

(** [evaluationCache] and [runningEvaluations] are created empty when
    [server.js] is loaded; the spreadsheet is outside the process and
    keeps its rows. *)
Definition restart (w : World) : World :=
  {| evaluationCache := evaluationCache initial_world;
     runningEvaluations := runningEvaluations initial_world;
     ledger := ledger w;
     awaiting := awaiting initial_world;
     dispatched := dispatched initial_world;
     settled := settled initial_world |}.

(** The engine answers that a schedule delivers with an accepted
    append. *)
Definition accepted_answers (schedule : list Event) : nat :=
  List.length
    (List.filter
       (fun e => match e with
                 | EngineReplied _ _ _ accepted => accepted
                 | _ => false
                 end)
       schedule).


(* ================================================================== *)
(** * 18. Facts about the string primitives *)
(* ================================================================== *)

Lemma append_cons (c : ascii) (a b : string) :
  String c a +:+ b = String c (a +:+ b).
Proof. reflexivity. Qed.

Lemma append_nil_l (s : string) : EmptyString +:+ s = s.
Proof. reflexivity. Qed.

Lemma append_nil_r (s : string) : s +:+ EmptyString = s.
Proof.
  induction s as [|c s IH]; [reflexivity |].
  now rewrite append_cons, IH.
Qed.

Lemma append_assoc (a b c : string) : (a +:+ b) +:+ c = a +:+ b +:+ c.
Proof.
  induction a as [|x a IH]; [reflexivity |].
  now rewrite !append_cons, IH.
Qed.

Lemma append_inj_l (a x y : string) : a +:+ x = a +:+ y -> x = y.
Proof.
  induction a as [|c a IH]; intros H; [exact H |].
  rewrite !append_cons in H. injection H as H. now apply IH.
Qed.

Lemma append_length (a b : string) :
  String.length (a +:+ b) = (String.length a + String.length b)%nat.
Proof.
  induction a as [|c a IH]; [reflexivity |].
  rewrite append_cons. simpl. now rewrite IH.
Qed.

Lemma startsWith_spec (p s : string) :
  startsWith p s = true <-> exists post, s = p +:+ post.
Proof.
  revert s. induction p as [|a p IH]; intros s; simpl.
  - split; [intros _; now exists s | reflexivity].
  - destruct s as [|b s].
    + split; [discriminate | intros [post H]; discriminate].
    + rewrite andb_true_iff, Ascii.eqb_eq, IH. split.
      * intros [-> [post ->]]. now exists post.
      * intros [post H]. rewrite append_cons in H. injection H as -> ->.
        split; [reflexivity | now exists post].
Qed.

Lemma includes_spec (s p : string) :
  includes s p = true <-> Substring p s.
Proof.
  unfold Substring. induction s as [|c s IH].
  - simpl. rewrite orb_false_r, startsWith_spec. split.
    + intros [post H]. now exists EmptyString, post.
    + intros [pre [post H]]. destruct pre; [now exists post | discriminate].
  - cbn [includes]. rewrite orb_true_iff, IH, startsWith_spec. split.
    + intros [[post H] | [pre [post H]]].
      * now exists EmptyString, post.
      * exists (String c pre), post. now rewrite append_cons, H.
    + intros [pre [post H]]. destruct pre as [|x pre].
      * left. now exists post.
      * right. rewrite append_cons in H. injection H as _ H. now exists pre, post.
Qed.

Example string_primitives :
  trim "  Please  on the setup  " = "Please  on the setup"%string
  /\ replace_ci_global "provide more detail" "Provide More Detail, then provide more detail."
     = ", then ."%string
  /\ split "; " "Thank the customer; ; Add a link" = ["Thank the customer"; EmptyString; "Add a link"]%string
  /\ split "; " EmptyString = [EmptyString]
  /\ join "; " ["a"; "b"; "c"]%string = "a; b; c"%string
  /\ before_first "T" "2025-01-15T10:30:00.000Z" = "2025-01-15"%string
  /\ includes (toLowerCase "Could Be More CONCISE") "concise" = true
  /\ includes "services" EmptyString = true.
Proof. repeat split. Qed.

Lemma bytes_of_string_length (s : string) :
  List.length (bytes_of_string s) = String.length s.
Proof.
  unfold bytes_of_string. rewrite length_map.
  induction s as [|c s IH]; simpl; [reflexivity | now rewrite IH].
Qed.

Lemma present_truthy (a : option string) (s : string) :
  present a = Some s <-> a = Some s /\ truthy s = true.
Proof.
  unfold present, or_else. destruct a as [t|].
  - destruct (truthy t) eqn:E; split.
    + intros H. injection H as <-. now split.
    + now intros [H _].
    + discriminate.
    + intros [H T]. injection H as ->. congruence.
  - split; [discriminate | now intros [H _]].
Qed.

(* ================================================================== *)
(** * 19. Numbers: representation and order *)
(* ================================================================== *)

Lemma JsNum_eq (a b : JsNum) :
  digits a = digits b -> places a = places b -> a = b.
Proof.
  destruct a as [m p H], b as [m' p' H']. simpl. intros -> ->.
  f_equal. apply Eqdep_dec.UIP_dec, Bool.bool_dec.
Qed.

Lemma whole_inj (n m : Z) : whole n = whole m -> n = m.
Proof. intros H. now injection H. Qed.

Lemma strip_shortest (m : Z) (p : nat) :
  shortest (fst (strip m p)) (snd (strip m p)) = true.
Proof.
  revert m. induction p as [|p IH]; intros m; [reflexivity |].
  cbn [strip]. destruct (m mod 10 =? 0) eqn:E; [apply IH |].
  cbn [fst snd shortest]. now rewrite E.
Qed.

Lemma decimal_strip (m : Z) (p : nat) :
  digits (decimal m p) = fst (strip m p)
  /\ places (decimal m p) = snd (strip m p).
Proof.
  unfold decimal. pose proof (strip_shortest m p) as H.
  destruct (strip m p) as [m' p']. cbn [fst snd] in *.
  destruct (Bool.bool_dec _ _) as [H' | H']; [now split | contradiction].
Qed.

Lemma strip_fixed (m : Z) (p : nat) :
  shortest m p = true -> strip m p = (m, p).
Proof.
  destruct p as [|p]; [reflexivity |]. cbn [shortest strip].
  destruct (m mod 10 =? 0); [discriminate | reflexivity].
Qed.

(** A number is the [decimal] of its own digits and places. *)
Lemma decimal_shortest (n : JsNum) : decimal (digits n) (places n) = n.
Proof.
  destruct (decimal_strip (digits n) (places n)) as [Hd Hp].
  rewrite (strip_fixed _ _ (is_shortest n)) in Hd, Hp.
  now apply JsNum_eq.
Qed.

Lemma pow10_pos (k : nat) : 0 < 10 ^ Z.of_nat k.
Proof. apply Z.pow_pos_nonneg; lia. Qed.

Lemma num_leb_le (a b : JsNum) : num_leb a b = true <-> (a <= b)%num.
Proof. apply Z.leb_le. Qed.


Lemma num_le_refl (a : JsNum) : (a <= a)%num.
Proof. unfold num_le. lia. Qed.

Lemma num_le_trans (a b c : JsNum) :
  (a <= b)%num -> (b <= c)%num -> (a <= c)%num.
Proof.
  unfold num_le. intros H1 H2.
  pose proof (pow10_pos (places a)) as Pa.
  pose proof (pow10_pos (places b)) as Pb.
  pose proof (pow10_pos (places c)) as Pc.
  apply (Z.mul_le_mono_pos_r _ _ (10 ^ Z.of_nat (places b))); [exact Pb |].
  apply (Z.mul_le_mono_nonneg_r _ _ (10 ^ Z.of_nat (places c))) in H1; [| lia].
  apply (Z.mul_le_mono_nonneg_r _ _ (10 ^ Z.of_nat (places a))) in H2; [| lia].
  lia.
Qed.

Lemma whole_le (n m : Z) : (whole n <= whole m)%num <-> n <= m.
Proof. unfold num_le. simpl. lia. Qed.

Lemma Math_max_l (a b : JsNum) : (a <= Math_max a b)%num.
Proof.
  unfold Math_max. destruct (num_leb a b) eqn:E.
  - now apply num_leb_le.
  - apply num_le_refl.
Qed.


Lemma Math_max_either (a b : JsNum) : Math_max a b = a \/ Math_max a b = b.
Proof. unfold Math_max. destruct (num_leb a b); tauto. Qed.

(** [Math.max] keeps a range that holds both arguments. *)
Lemma Math_max_within (lo hi a b : JsNum) :
  (lo <= a <= hi)%num -> (lo <= b <= hi)%num -> (lo <= Math_max a b <= hi)%num.
Proof.
  intros Ha Hb. destruct (Math_max_either a b) as [-> | ->]; assumption.
Qed.

Lemma shortest_more_places (a b : JsNum) :
  (places a < places b)%nat ->
  digits a * 10 ^ Z.of_nat (places b) <> digits b * 10 ^ Z.of_nat (places a).
Proof.
  intros Hlt H.
  pose proof (is_shortest b) as Hb.
  destruct (places b) as [|pb] eqn:Epb; [lia |]. cbn [shortest] in Hb.
  replace (Z.of_nat (S pb)) with (Z.of_nat (places a) + (Z.of_nat (S pb - places a)))
    in H by lia.
  rewrite Z.pow_add_r in H by lia.
  pose proof (pow10_pos (places a)) as Pa.
  assert (E : digits b = digits a * 10 ^ Z.of_nat (S pb - places a)) by nia.
  replace (Z.of_nat (S pb - places a)) with (Z.succ (Z.of_nat (pb - places a))) in E by lia.
  rewrite Z.pow_succ_r in E by lia.
  assert (Hm : digits b mod 10 = 0).
  { rewrite E. replace (digits a * (10 * 10 ^ Z.of_nat (pb - places a)))
      with ((digits a * 10 ^ Z.of_nat (pb - places a)) * 10) by lia.
    apply Z.mod_mul. lia. }
  rewrite Hm in Hb. discriminate Hb.
Qed.

(** Two numbers that are at most each other are the same number: a
    number has one representation. *)
Lemma num_le_antisym (a b : JsNum) :
  (a <= b)%num -> (b <= a)%num -> a = b.
Proof.
  unfold num_le. intros H1 H2.
  assert (E : digits a * 10 ^ Z.of_nat (places b)
              = digits b * 10 ^ Z.of_nat (places a)) by lia.
  destruct (Nat.lt_trichotomy (places a) (places b)) as [Hlt | [Heq | Hgt]].
  - now apply shortest_more_places in E.
  - apply JsNum_eq; [| exact Heq]. rewrite Heq in E.
    pose proof (pow10_pos (places b)). nia.
  - symmetry in E. now apply shortest_more_places in E.
Qed.

(* ================================================================== *)
(** * 20. Numbers as text *)
(* ================================================================== *)

Lemma digit_char_value (d : Z) :
  0 <= d < 10 -> digit_value (digit_char d) = Some d.
Proof.
  intros H.
  assert (Hall : forallb (fun k => match digit_value (digit_char (Z.of_nat k)) with
                                   | Some v => v =? Z.of_nat k
                                   | None => false
                                   end) (seq 0 10) = true) by reflexivity.
  rewrite forallb_forall in Hall.
  specialize (Hall (Z.to_nat d)). rewrite Z2Nat.id in Hall by lia.
  destruct (digit_value (digit_char d)) as [v|].
  - f_equal. apply Z.eqb_eq, Hall, in_seq. lia.
  - discriminate Hall. apply in_seq. lia.
Qed.

Lemma read_digits_step (c : ascii) (v : Z) (r : string) (acc : Z) (count : nat) :
  digit_value c = Some v ->
  read_digits (String c r) acc count = read_digits r (10 * acc + v) (S count).
Proof. intros H. cbn [read_digits]. now rewrite H. Qed.

Lemma read_digits_stop (c : ascii) (r : string) (acc : Z) (count : nat) :
  digit_value c = None ->
  read_digits (String c r) acc count = (acc, count, String c r).
Proof. intros H. cbn [read_digits]. now rewrite H. Qed.

(** Reading the digits of a fraction of [k] places. *)
Lemma read_digits_fraction (k : nat) (f : Z) (rest : string) (acc : Z) (count : nat) :
  0 <= f < 10 ^ Z.of_nat k ->
  read_digits (fraction_text k f +:+ rest) acc count
  = read_digits rest (acc * 10 ^ Z.of_nat k + f) (count + k).
Proof.
  revert f rest. induction k as [|k IH]; intros f rest Hf.
  - cbn [fraction_text]. rewrite append_nil_l. f_equal; simpl in *; lia.
  - cbn [fraction_text].
    rewrite append_assoc, append_cons, append_nil_l.
    rewrite Nat2Z.inj_succ, Z.pow_succ_r in * by lia.
    rewrite IH by (split; [apply Z.div_pos; lia | apply Z.div_lt_upper_bound; lia]).
    rewrite (read_digits_step _ (f mod 10)) by (apply digit_char_value, Z.mod_pos_bound; lia).
    pose proof (Z.div_mod f 10 ltac:(lia)) as E.
    f_equal; lia.
Qed.

Lemma read_digits_uint (d : Decimal.uint) (rest : string) (acc : Z) (count : nat) :
  read_digits (NilEmpty.string_of_uint d +:+ rest) acc count
  = read_digits rest (uint_value d acc) (count + Decimal.nb_digits d).
Proof.
  revert acc count. induction d; intros acc count;
    cbn [NilEmpty.string_of_uint uint_value Decimal.nb_digits];
    [rewrite append_nil_l; f_equal; lia | ..];
    rewrite append_cons;
    match goal with
    | |- context [read_digits (String ?c _) _ _] =>
        let v := eval vm_compute in (digit_value c) in
        match v with
        | Some ?x => rewrite (read_digits_step c x) by reflexivity
        end
    end;
    rewrite IHd; f_equal; try (f_equal; lia); lia.
Qed.

Lemma uint_value_acc (d : Decimal.uint) (acc : positive) :
  uint_value d (Zpos acc) = Zpos (Pos.of_uint_acc d acc).
Proof.
  revert acc. induction d; intros acc; cbn [uint_value Pos.of_uint_acc];
    [reflexivity | ..];
    rewrite <- IHd; f_equal; lia.
Qed.

Lemma uint_value_of_uint (d : Decimal.uint) :
  uint_value d 0 = Z.of_N (Pos.of_uint d).
Proof.
  induction d; cbn [uint_value Pos.of_uint Z.of_N];
    [reflexivity | exact IHd | ..];
    rewrite <- uint_value_acc; reflexivity.
Qed.

Lemma uint_value_to_uint (p : positive) : uint_value (Pos.to_uint p) 0 = Zpos p.
Proof.
  now rewrite uint_value_of_uint, DecimalPos.Unsigned.of_to.
Qed.

Lemma digits_of_positive (p : positive) :
  exists c r,
    NilZero.string_of_uint (Pos.to_uint p) = String c r
    /\ NilEmpty.string_of_uint (Pos.to_uint p) = String c r
    /\ (exists v, digit_value c = Some v)
    /\ (0 < Decimal.nb_digits (Pos.to_uint p))%nat.
Proof.
  pose proof (DecimalPos.Unsigned.to_uint_nonnil p) as Hn.
  destruct (Pos.to_uint p); [contradiction | ..]; simpl;
    eexists _, _; repeat split; try (eexists; reflexivity); lia.
Qed.

(** The text of a natural number starts with a digit, and reading it
    gives the number back. *)
Lemma string_of_Z_digits (n : Z) :
  0 <= n ->
  exists c r v k,
    string_of_Z n = String c r
    /\ digit_value c = Some v
    /\ forall rest,
         read_digits (string_of_Z n +:+ rest) 0 0 = read_digits rest n (S k).
Proof.
  intros Hn. unfold string_of_Z. destruct n as [|p|p]; [| | lia].
  - exists "0"%char, EmptyString, 0, O. repeat split.
  - simpl Z.to_int. unfold NilZero.string_of_int.
    destruct (digits_of_positive p) as [c [r [E [E' [[v Hv] Hk]]]]].
    exists c, r, v, (Nat.pred (Decimal.nb_digits (Pos.to_uint p))).
    split; [exact E |]. split; [exact Hv |]. intros rest.
    rewrite E, <- E', read_digits_uint, uint_value_to_uint.
    f_equal. lia.
Qed.

Lemma digit_not_sign (c : ascii) (v : Z) (r : string) :
  digit_value c = Some v ->
  parseFloat (String c r) = read_number false (String c r)
  /\ startsWith "Infinity" (String c r) = false
  /\ truthy (String c r) = true.
Proof.
  intros H.
  destruct c as [[] [] [] [] [] [] [] []]; try discriminate H; repeat split.
Qed.

(** What [read_number] makes of the text of a number without its
    sign. *)
Lemma read_number_magnitude (negative : bool) (n : JsNum) (m : Z) :
  0 <= m -> Z.abs (digits n) = m ->
  (if negative then - m else m) = digits n ->
  read_number negative
    (match places n with
     | O => string_of_Z m
     | S _ =>
         string_of_Z (m / 10 ^ Z.of_nat (places n)) +:+ "."
         +:+ fraction_text (places n) (m mod 10 ^ Z.of_nat (places n))
     end)
  = Num n.
Proof.
  intros Hm Habs Hsign.
  pose proof (decimal_shortest n) as Hn.
  destruct (places n) as [|p] eqn:Hp.
  - destruct (string_of_Z_digits m Hm) as [c [r [v [k [E [Hv Hread]]]]]].
    unfold read_number.
    rewrite E, (proj1 (proj2 (digit_not_sign c v r Hv))), <- E.
    rewrite <- (append_nil_r (string_of_Z m)), Hread.
    cbn [read_digits Nat.add Nat.eqb read_exponent]. f_equal.
    rewrite Hsign. unfold scale. simpl.
    apply JsNum_eq; simpl; [lia | now rewrite Hp].
  - set (one := 10 ^ Z.of_nat (S p)).
    assert (Hone : 0 < one) by apply pow10_pos.
    destruct (string_of_Z_digits (m / one) ltac:(apply Z.div_pos; lia))
      as [c [r [v [k [E [Hv Hread]]]]]].
    unfold read_number.
    rewrite E, append_cons, (proj1 (proj2 (digit_not_sign c v _ Hv))),
      <- append_cons, <- E.
    rewrite Hread.
    change ("." +:+ fraction_text (S p) (m mod one))
      with (String "." (fraction_text (S p) (m mod one))).
    rewrite (read_digits_stop "." _ _ _ eq_refl).
    rewrite <- (append_nil_r (fraction_text (S p) (m mod one))).
    rewrite read_digits_fraction by (apply Z.mod_pos_bound; exact Hone).
    cbn [read_digits Nat.add Nat.eqb read_exponent]. f_equal.
    fold one. rewrite Z.mul_comm, <- Z.div_mod by lia.
    rewrite Hsign. unfold scale.
    replace (0 <=? 0 - Z.of_nat (S p)) with false by (symmetry; apply Z.leb_gt; lia).
    replace (Z.to_nat (- (0 - Z.of_nat (S p)))) with (S p) by lia.
    exact Hn.
Qed.

(** [parseFloat(String(n)) === n] for every number. *)
Lemma parseFloat_number_text (n : JsNum) : parseFloat (number_text n) = Num n.
Proof.
  unfold number_text.
  destruct (digits n <? 0) eqn:Hneg.
  - apply Z.ltb_lt in Hneg.
    pose proof (read_number_magnitude true n (Z.abs (digits n))
                  ltac:(lia) eq_refl ltac:(cbv iota; lia)) as H.
    destruct (places n) as [|p] eqn:Hp.
    + destruct (digits n) as [|q|q] eqn:Hd; try lia.
      unfold string_of_Z at 1. simpl Z.to_int.
      unfold NilZero.string_of_int. unfold parseFloat. cbn [trimStart].
      change (is_space "-") with false. cbv iota.
      exact H.
    + rewrite append_cons, append_nil_l. unfold parseFloat. cbn [trimStart].
      change (is_space "-") with false. cbv iota. exact H.
  - apply Z.ltb_ge in Hneg.
    pose proof (read_number_magnitude false n (Z.abs (digits n))
                  ltac:(lia) eq_refl ltac:(cbv iota; lia)) as H.
    rewrite Z.abs_eq in * by lia.
    destruct (places n) as [|p] eqn:Hp.
    + destruct (string_of_Z_digits (digits n) Hneg) as [c [r [v [k [E [Hv _]]]]]].
      rewrite E in *. now rewrite (proj1 (digit_not_sign c v r Hv)).
    + rewrite append_nil_l.
      destruct (string_of_Z_digits (digits n / 10 ^ Z.of_nat (S p))
                  ltac:(apply Z.div_pos; [lia | apply pow10_pos]))
        as [c [r [v [k [E [Hv _]]]]]].
      rewrite E, append_cons in *. now rewrite (proj1 (digit_not_sign c v _ Hv)).
Qed.

Lemma number_text_inj (a b : JsNum) : number_text a = number_text b -> a = b.
Proof.
  intros H. pose proof (parseFloat_number_text a) as Ha.
  rewrite H, parseFloat_number_text in Ha. now injection Ha.
Qed.

Lemma parse_or_zero_number_text (n : JsNum) :
  parse_or_zero (Some (number_text n)) = n.
Proof. unfold parse_or_zero. now rewrite parseFloat_number_text. Qed.

Lemma number_text_truthy (n : JsNum) : truthy (number_text n) = true.
Proof.
  destruct (number_text n) eqn:E; [| reflexivity].
  pose proof (parseFloat_number_text n) as H. rewrite E in H. discriminate H.
Qed.

Lemma number_text_defined (n : JsNum) : number_text n <> "undefined"%string.
Proof.
  intros E. pose proof (parseFloat_number_text n) as H.
  rewrite E in H. discriminate H.
Qed.

Lemma string_of_Z_inj (n m : Z) : string_of_Z n = string_of_Z m -> n = m.
Proof. intros H. apply whole_inj, number_text_inj. exact H. Qed.

Lemma string_of_Z_truthy (n : Z) : truthy (string_of_Z n) = true.
Proof. apply (number_text_truthy (whole n)). Qed.

Example parseFloat_examples :
  parseFloat "7" = Num 7 /\ parseFloat " -12 apples" = Num (-12)
  /\ parseFloat "8.5" = Num (decimal 85 1) /\ parseFloat "1e2" = Num 100
  /\ parseFloat ".5" = Num (decimal 5 1) /\ parseFloat "2.50e-1x" = Num (decimal 25 2)
  /\ parseFloat "-Infinity" = Infinity true
  /\ parseFloat EmptyString = NaN /\ parseFloat "n/a" = NaN
  /\ parseFloat "." = NaN /\ parseFloat "1e" = Num 1
  /\ number_text 4711 = "4711"%string /\ number_text (-3) = "-3"%string
  /\ number_text (decimal 85 1) = "8.5"%string
  /\ number_text (decimal (-5) 2) = "-0.05"%string
  /\ number_text (decimal 700 2) = "7"%string.
Proof. repeat split. Qed.

(* ================================================================== *)
(** * 21. The digests on known vectors *)
(* ================================================================== *)

Example md5_abc : md5_hex "abc" = "900150983cd24fb0d6963f7d28e17f72"%string.
Proof. vm_compute. reflexivity. Qed.

Example md5_empty : md5_hex EmptyString = "d41d8cd98f00b204e9800998ecf8427e"%string.
Proof. vm_compute. reflexivity. Qed.

(** A message longer than one block. *)
Example md5_two_blocks :
  md5_hex ("The quick brown fox jumps over the lazy dog. "
           +:+ "The quick brown fox jumps over the lazy dog.")
  = "f168d89e05b664041ee6745f050caa4b"%string.
Proof. vm_compute. reflexivity. Qed.

Example sha1_abc :
  hex (Sha1.sha1 (bytes_of_string "abc"))
  = "a9993e364706816aba3e25717850c26c9cd0d89d"%string.
Proof. vm_compute. reflexivity. Qed.

(** A key longer than one block is hashed first. *)
Example hmac_long_key :
  hmac_sha1_base64
    "kkkkkkkkkkkkkkkkkkkkkkkkkkkkkkkkkkkkkkkkkkkkkkkkkkkkkkkkkkkkkkkkkkkkkkkkkkkkkkkk"
    ("The quick brown fox jumps over the lazy dog. "
     +:+ "The quick brown fox jumps over the lazy dog.")
  = "0jZsE7PudcOcDseRbjdplNdU9l8="%string.
Proof. vm_compute. reflexivity. Qed.

(** RFC 2202, test case 2. *)
Example hmac_rfc2202 :
  hmac_sha1_base64 "Jefe" "what do ya want for nothing?"
  = "7/zfauXrL6LSdBbV8YTfnCWafHk="%string.
Proof. vm_compute. reflexivity. Qed.

(* ================================================================== *)
(** * 22. Cache key *)
(* ================================================================== *)

(** C2, as the specification words it: distinct response texts give
    distinct keys.  It fails: the key keeps 32 bits of the digest, and
    these two texts agree on them. *)
Lemma cacheKey_collision :
  let text1 := "Thanks for reaching out! Ticket note 6397"%string in
  let text2 := "Thanks for reaching out! Ticket note 6694"%string in
  text1 <> text2 /\
  md5_hex text1 <> md5_hex text2 /\
  cacheKey (VNum 4711) text1 = cacheKey (VNum 4711) text2.
Proof.
  cbv zeta. split; [discriminate |]. split.
  - vm_compute. discriminate.
  - vm_compute. reflexivity.
Qed.

(** C2, amended: for one ticket id, two response texts have the same
    cache key exactly when the first 8 hexadecimal characters of their
    MD5 digests agree; in particular the key is a function of the text,
    and texts whose truncated digests differ have different keys. *)
Theorem cacheKey_same_iff_same_hash (ticket_id : JsVal) (text1 text2 : string) :
  cacheKey ticket_id text1 = cacheKey ticket_id text2
  <-> responseHash text1 = responseHash text2.
Proof.
  unfold cacheKey. split.
  - intros H. apply append_inj_l in H. now apply (append_inj_l "_") in H.
  - now intros ->.
Qed.

(* ================================================================== *)
(** * 23. Signature verifier *)
(* ================================================================== *)

(** The length test in front of [timingSafeEqual] keeps it from
    throwing: the [catch] block is never entered from there. *)
Lemma checkSignature_never_caught (env : Env) (req : HttpRequest) :
  checkSignature env req <> Caught.
Proof.
  unfold checkSignature, timingSafeEqual.
  destruct (match DISABLE_SIGNATURE_VALIDATION env with
            | Some v => String.eqb v "true" | None => false end);
    [discriminate |].
  destruct (present _); [| discriminate].
  destruct (present _); [| discriminate].
  destruct (List.length _ =? List.length _)%nat; simpl; discriminate.
Qed.

(** C4, as the specification words it: a signature of another length
    is refused.  It fails when the escape hatch is on: nothing is then
    computed or compared, and the request is accepted. *)
Lemma length_mismatch_accepted_when_disabled :
  let env := {| DISABLE_SIGNATURE_VALIDATION := Some "true"%string;
                HELPSCOUT_DYNAMIC_WIDGET_SECRET_KEY := Some "test-secret"%string;
                HELPSCOUT_APP_SECRET := None;
                OPENAI_API_KEY := None;
                OPENAI_MODEL := None |} in
  let req := {| x_helpscout_signature := Some "short"%string;
                rawBody := Some "what do ya want for nothing?"%string |} in
  String.length "short" <> String.length
    (hmac_sha1_base64 "test-secret" "what do ya want for nothing?") /\
  validateHelpScoutSignature env req = true.
Proof. cbv zeta. split; [vm_compute; discriminate | reflexivity]. Qed.

Lemma validation_enabled (env : Env) :
  DISABLE_SIGNATURE_VALIDATION env <> Some "true"%string ->
  match DISABLE_SIGNATURE_VALIDATION env with
  | Some v => String.eqb v "true"
  | None => false
  end = false.
Proof.
  intros Hon. destruct (DISABLE_SIGNATURE_VALIDATION env) as [v|]; [| reflexivity].
  destruct (String.eqb_spec v "true"); [subst v; now contradiction Hon | reflexivity].
Qed.

(** C4, amended: unless [DISABLE_SIGNATURE_VALIDATION] is ['true'],
    for every configured secret and raw body, a signature header whose
    length differs from that of the computed base64 HMAC-SHA1 signature
    makes [validateHelpScoutSignature] return [false], and the
    timing-safe comparison is not attempted. *)
Theorem signature_length_mismatch_rejected
    (env : Env) (req : HttpRequest) (secret signature : string) :
  DISABLE_SIGNATURE_VALIDATION env <> Some "true"%string ->
  present (or_else (HELPSCOUT_DYNAMIC_WIDGET_SECRET_KEY env) (HELPSCOUT_APP_SECRET env))
    = Some secret ->
  x_helpscout_signature req = Some signature ->
  String.length signature
    <> String.length (hmac_sha1_base64 secret (text_or_empty (rawBody req))) ->
  validateHelpScoutSignature env req = false
  /\ comparison_attempted (checkSignature env req) = false.
Proof.
  intros Hon Hsecret Hsig Hlen.
  assert (Hc : checkSignature env req = HeaderMissing
               \/ checkSignature env req = LengthMismatch).
  { unfold checkSignature.
    rewrite (validation_enabled env Hon), Hsecret, Hsig.
    destruct (present (Some signature)) as [sg|] eqn:Ep; [| now left].
    apply present_truthy in Ep. destruct Ep as [Ep _]. injection Ep as <-.
    rewrite !bytes_of_string_length.
    destruct (Nat.eqb_spec (String.length signature)
                (String.length (hmac_sha1_base64 secret (text_or_empty (rawBody req)))));
      [contradiction | now right]. }
  unfold validateHelpScoutSignature. destruct Hc as [-> | ->]; now split.
Qed.

Lemma signature_length_mismatch_rejected_witness :
  let env := {| DISABLE_SIGNATURE_VALIDATION := None;
                HELPSCOUT_DYNAMIC_WIDGET_SECRET_KEY := Some "Jefe"%string;
                HELPSCOUT_APP_SECRET := None;
                OPENAI_API_KEY := None;
                OPENAI_MODEL := None |} in
  let req := {| x_helpscout_signature := Some "7/zfauXrL6LSdBbV8YTfnCWafHk"%string;
                rawBody := Some "what do ya want for nothing?"%string |} in
  validateHelpScoutSignature env req = false
  /\ comparison_attempted (checkSignature env req) = false.
Proof.
  cbv zeta.
  apply (signature_length_mismatch_rejected _ _ "Jefe" "7/zfauXrL6LSdBbV8YTfnCWafHk").
  - discriminate.
  - reflexivity.
  - reflexivity.
  - vm_compute. discriminate.
Defined.

(* ================================================================== *)
(** * 24. Context classifier *)
(* ================================================================== *)

Lemma toLowerCase_empty (s : string) : toLowerCase s = EmptyString -> s = EmptyString.
Proof. destruct s; [reflexivity | discriminate]. Qed.

Lemma Substring_nonempty (p s : string) :
  Substring p s -> p <> EmptyString -> s <> EmptyString.
Proof.
  intros [pre [post ->]] Hp H.
  destruct pre; [| discriminate].
  destruct p; [now apply Hp | discriminate].
Qed.

Lemma truthy_nonempty (s : string) : truthy s = true <-> s <> EmptyString.
Proof. destruct s; simpl; split; congruence. Qed.

Lemma has_keyword_spec (keywords : list string) (s : string) :
  Forall lower_case keywords ->
  has_keyword keywords s = true
  <-> exists keyword, In keyword keywords /\ contains_ci s keyword.
Proof.
  intros Hlow. unfold has_keyword, contains_ci. rewrite existsb_exists.
  rewrite List.Forall_forall in Hlow.
  split; intros [k [Hin Hk]]; exists k; (split; [exact Hin |]).
  - apply includes_spec in Hk. now rewrite (Hlow k Hin).
  - apply includes_spec. now rewrite <- (Hlow k Hin).
Qed.

Lemma tags_have_keyword_spec (keywords : list string) (ticketData : Ticket) :
  Forall lower_case keywords ->
  existsb (has_keyword keywords) (default [] (tags ticketData)) = true
  <-> exists tag keyword,
        In tag (default [] (tags ticketData)) /\ In keyword keywords
        /\ contains_ci tag keyword.
Proof.
  intros Hlow. rewrite existsb_exists. split.
  - intros [tag [Hin Hk]]. apply (has_keyword_spec _ _ Hlow) in Hk.
    destruct Hk as [k [Hk Hc]]. now exists tag, k.
  - intros [tag [k [Hin [Hk Hc]]]]. exists tag. split; [exact Hin |].
    apply (has_keyword_spec _ _ Hlow). now exists k.
Qed.

Lemma isServicesTicket_spec (config : TicketClassification) (ticketData : Ticket) :
  Forall lower_case (services_keywords (services config)) ->
  isServicesTicket config ticketData = true <-> spec_services_ticket config ticketData.
Proof. intros Hlow. now apply tags_have_keyword_spec. Qed.

Lemma isPresalesTicket_spec (config : TicketClassification) (ticketData : Ticket) :
  keywords_well_formed config ->
  isPresalesTicket config ticketData = true <-> spec_presales_ticket config ticketData.
Proof.
  intros [_ Hp Hs Hne]. unfold isPresalesTicket, spec_presales_ticket.
  rewrite orb_true_iff, (tags_have_keyword_spec _ _ Hp).
  apply or_iff_compat_l.
  destruct (subject ticketData) as [s|].
  - rewrite andb_true_iff, (has_keyword_spec _ _ Hs), truthy_nonempty. split.
    + intros [_ [k [Hin Hk]]]. now exists s, k.
    + intros [s' [k [Heq [Hin Hk]]]]. injection Heq as <-.
      split; [| now exists k].
      intros ->. rewrite List.Forall_forall in Hne.
      apply (Substring_nonempty _ _ Hk); [| reflexivity].
      intros Hk0. apply toLowerCase_empty in Hk0. now apply (Hne k Hin).
  - split; [discriminate |]. intros [s [k [Heq _]]]. discriminate.
Qed.

Lemma isInvestigating_spec (config : TicketClassification) (cleanText : string) :
  isInvestigating config cleanText = true <-> spec_investigating config cleanText.
Proof.
  unfold isInvestigating, spec_investigating, contains_ci.
  rewrite existsb_exists.
  split; intros [p [Hin Hp]]; exists p; (split; [exact Hin |]);
    now apply includes_spec.
Qed.

(** C6: the services note whenever some tag contains a services keyword
    (ignoring case), whatever the other rules say; otherwise the
    presales note whenever a tag contains a presales keyword or the
    subject a presales subject keyword; otherwise the investigating note
    whenever the response text contains an investigating phrase
    (ignoring case); otherwise the empty string. *)
Theorem getContextNote_precedence
    (config : TicketClassification) (ticketData : Ticket) (cleanText : string) :
  keywords_well_formed config ->
  (spec_services_ticket config ticketData ->
     getContextNote config ticketData cleanText = services_context_note (services config))
  /\ (~ spec_services_ticket config ticketData ->
      spec_presales_ticket config ticketData ->
      getContextNote config ticketData cleanText = presales_context_note (presales config))
  /\ (~ spec_services_ticket config ticketData ->
      ~ spec_presales_ticket config ticketData ->
      spec_investigating config cleanText ->
      getContextNote config ticketData cleanText
      = investigating_context_note (investigating config))
  /\ (~ spec_services_ticket config ticketData ->
      ~ spec_presales_ticket config ticketData ->
      ~ spec_investigating config cleanText ->
      getContextNote config ticketData cleanText = EmptyString).
Proof.
  intros Hwf.
  pose proof (isServicesTicket_spec config ticketData (services_lower _ Hwf)) as Hs.
  pose proof (isPresalesTicket_spec config ticketData Hwf) as Hp.
  pose proof (isInvestigating_spec config cleanText) as Hi.
  unfold getContextNote.
  destruct (isServicesTicket config ticketData);
    destruct (isPresalesTicket config ticketData);
    destruct (isInvestigating config cleanText);
    repeat split; intros; try reflexivity;
    repeat match goal with
           | H : ~ _, E : true = true <-> _ |- _ => exfalso; apply H, E; reflexivity
           | H : ?P, E : false = true <-> ?P |- _ => apply E in H; discriminate
           end.
Qed.


Lemma services_ticket_is_services : spec_services_ticket sample_config services_ticket.
Proof.
  exists "Services-Team"%string, "services"%string. simpl.
  split; [now right; left |]. split; [now left |].
  now exists EmptyString, "-team"%string.
Qed.


Lemma getContextNote_precedence_witness :
  getContextNote sample_config services_ticket "We are looking into it"
  = services_context_note (services sample_config).
Proof.
  apply (getContextNote_precedence sample_config services_ticket
           "We are looking into it").
  - split; simpl; repeat constructor; discriminate.
  - exact services_ticket_is_services.
Defined.

(* ================================================================== *)
(** * 25. Post-processor *)
(* ================================================================== *)


Lemma tidy_improvements_category (sel : Categories -> option CategoryDetail)
    (evaluation : EvaluationResult) :
  category sel (tidy_improvements evaluation) = category sel evaluation.
Proof. reflexivity. Qed.




(** C7, at an input the engine can return: the clarity feedback asks for
    concision and the resolution feedback says "provide more detail",
    yet "more detail" is still in the cleaned resolution feedback: only
    the occurrences that follow "provide" are cut. *)
Theorem contradiction_survives (config : TicketClassification) (ticketData : Ticket) :
  exists clarity resolution cleaned,
    category clarity_completeness sample_evaluation = Some clarity
    /\ category problem_resolution sample_evaluation = Some resolution
    /\ includes (toLowerCase (feedback clarity)) "concise" = true
    /\ includes (toLowerCase (feedback resolution)) "provide more detail" = true
    /\ category problem_resolution
         (validateEvaluation config sample_evaluation EmptyString ticketData) = Some cleaned
    /\ feedback cleaned = "Please  on the setup steps and more detail on pricing"%string
    /\ includes (feedback cleaned) "more detail" = true.
Proof.
  eexists _, _, _. split; [reflexivity |]. split; [reflexivity |].
  split; [vm_compute; reflexivity |]. split; [vm_compute; reflexivity |].
  split.
  - unfold validateEvaluation. rewrite tidy_improvements_category.
    unfold services_floor.
    destruct (isServicesTicket config ticketData); vm_compute; reflexivity.
  - split; vm_compute; reflexivity.
Qed.

(* ================================================================== *)
(** * 26. Score range *)
(* ================================================================== *)

Lemma scores_within_categories (lo hi : Z) (evaluation : EvaluationResult) :
  scores_within lo hi evaluation <->
  exists t c e p,
    categories evaluation
    = Some {| tone_empathy := Some t; clarity_completeness := Some c;
              standard_of_english := Some e; problem_resolution := Some p |}
    /\ (lo <= score t <= hi)%num /\ (lo <= score c <= hi)%num
    /\ (lo <= score e <= hi)%num /\ (lo <= score p <= hi)%num.
Proof.
  unfold scores_within, fixed_categories, category. split.
  - intros H.
    destruct (H tone_empathy) as [t [Ht Rt]]; [simpl; tauto |].
    destruct (H clarity_completeness) as [c [Hc Rc]]; [simpl; tauto |].
    destruct (H standard_of_english) as [e [He Re]]; [simpl; tauto |].
    destruct (H problem_resolution) as [p [Hp Rp]]; [simpl; tauto |].
    destruct (categories evaluation) as [[a b c' d]|]; [| discriminate].
    simpl in *. subst. now exists t, c, e, p.
  - intros [t [c [e [p [-> [Rt [Rc [Re Rp]]]]]]]] sel Hin.
    simpl in Hin.
    destruct Hin as [<- | [<- | [<- | [<- | []]]]]; simpl; eauto.
Qed.

Lemma error_result_scores (err : JsError) : scores_within 0 0 (error_result err).
Proof.
  apply scores_within_categories. unfold error_result. simpl.
  eexists _, _, _, _. split; [reflexivity |]. simpl.
  repeat split; apply num_le_refl.
Qed.

Lemma validateEvaluation_scores (lo hi : Z) (config : TicketClassification)
    (evaluation : EvaluationResult) (responseText : string) (ticketData : Ticket) :
  lo <= 7 <= hi ->
  scores_within lo hi evaluation ->
  scores_within lo hi (validateEvaluation config evaluation responseText ticketData).
Proof.
  intros H7 H. apply scores_within_categories in H.
  destruct H as [t [c [e [p [Hc R]]]]].
  apply scores_within_categories.
  unfold validateEvaluation, tidy_improvements, services_floor, fix_contradiction,
    category.
  assert (R7 : (lo <= whole 7 <= hi)%num) by (split; apply whole_le; lia).
  destruct R as [Rt R].
  pose proof (Math_max_within lo hi (score t) 7 Rt R7) as Rm.
  destruct (_ && _); destruct (isServicesTicket config ticketData); simpl;
    rewrite ?Hc; simpl;
    eexists _, _, _, _; (split; [reflexivity |]); simpl; tauto.
Qed.

(** C3, as the specification words it: every result has its four
    category scores in [[1, 10]].  It fails on the result built when the
    engine call fails, which is also what gets cached. *)
Lemma error_result_out_of_range :
  let failure :=
    evaluateResponse sample_config sample_env "gpt-4" "Thanks for reaching out!"
      services_ticket (Threw sample_error) in
  let w := background_settle sample_config sample_env "gpt-4" (fun s => s)
             initial_world sample_data (Threw sample_error)
             "2025-01-15T10:30:00.000Z" true in
  category tone_empathy failure
    = Some {| score := 0; feedback := api_error_feedback |}
  /\ ~ scores_within 1 10 failure
  /\ exists cached,
       fst (cache_get (key sample_data) (evaluationCache w)) = Some cached
       /\ ~ scores_within 1 10 cached.
Proof.
  cbv zeta.
  assert (Hno : forall e, category tone_empathy e
                          = Some {| score := 0; feedback := api_error_feedback |}
                          -> ~ scores_within 1 10 e).
  { intros e He H. destruct (H tone_empathy) as [c [Hc R]]; [simpl; tauto |].
    rewrite He in Hc. injection Hc as <-. unfold num_le in R. simpl in R. lia. }
  split; [reflexivity |]. split; [now apply Hno |].
  eexists. split; [vm_compute; reflexivity |]. now apply Hno.
Qed.

(** C3, amended: when the engine's own reply has its four category
    scores in [[1, 10]], every result of [evaluateResponse] has them in
    [[1, 10]] too (post-processing keeps the range), except the result
    built when the call fails, whose four category scores are 0. *)
Theorem evaluateResponse_scores
    (config : TicketClassification) (env : Env) (openai_model cleanText : string)
    (ticketData : Ticket) (reply : ApiReply) :
  (forall evaluation, reply = Answered evaluation -> scores_within 1 10 evaluation) ->
  let result := evaluateResponse config env openai_model cleanText ticketData reply in
  scores_within 1 10 result
  \/ ((exists err, result = error_result err) /\ scores_within 0 0 result).
Proof.
  intros Hreply. cbv zeta. unfold evaluateResponse.
  destruct (present (OPENAI_API_KEY env)).
  - destruct reply as [evaluation | err].
    + left. destruct (isGPT5 _).
      * now apply Hreply.
      * apply validateEvaluation_scores; [lia | now apply Hreply].
    + right. split; [now exists err | apply error_result_scores].
  - right. split; [eauto | apply error_result_scores].
Qed.

Lemma evaluateResponse_scores_witness :
  scores_within 1 10
    (evaluateResponse sample_config sample_env "gpt-4" "Thanks for reaching out!"
       services_ticket (Answered sample_evaluation))
  \/ ((exists err,
         evaluateResponse sample_config sample_env "gpt-4" "Thanks for reaching out!"
           services_ticket (Answered sample_evaluation) = error_result err)
      /\ scores_within 0 0
           (evaluateResponse sample_config sample_env "gpt-4" "Thanks for reaching out!"
              services_ticket (Answered sample_evaluation))).
Proof.
  apply (evaluateResponse_scores sample_config sample_env "gpt-4"
           "Thanks for reaching out!" services_ticket (Answered sample_evaluation)).
  intros evaluation H. injection H as <-.
  apply scores_within_categories. eexists _, _, _, _.
  split; [reflexivity |]. unfold num_le. simpl. lia.
Defined.

(* ================================================================== *)
(** * 27. Memory cache *)
(* ================================================================== *)

Lemma is_key_refl (k : string) (v : EvaluationResult) : is_key k (k, v) = true.
Proof. unfold is_key. simpl. apply String.eqb_refl. Qed.

Lemma cached_has (k : string) (c : LRUCache) (v : EvaluationResult) :
  cached k c v -> cache_has k c = true.
Proof.
  intros [k' H]. unfold cache_has. apply existsb_exists.
  apply find_some in H. now exists (k', v).
Qed.

Lemma cached_front (k : string) (c : LRUCache) (v : EvaluationResult) :
  cached k ((k, v) :: c) v.
Proof. exists k. simpl. now rewrite is_key_refl. Qed.

Lemma cache_set_cached (k : string) (v : EvaluationResult) (c : LRUCache) :
  cached k (cache_set k v c) v.
Proof.
  unfold cache_set. change cache_max with (S 499). rewrite firstn_cons.
  apply cached_front.
Qed.

Lemma cache_get_cached (k : string) (c : LRUCache) (v : EvaluationResult) :
  cached k c v ->
  cache_get k c = (Some v, (k, v) :: cache_without k c).
Proof. intros [k' H]. unfold cache_get. now rewrite H. Qed.


(** The bound of the cache is kept by every insertion. *)
Lemma cache_set_bounded (k : string) (v : EvaluationResult) (c : LRUCache) :
  (List.length (cache_set k v c) <= cache_max)%nat.
Proof. unfold cache_set. apply firstn_le_length. Qed.

(** A call of [process] for a cached key returns the rendering of the
    cached entry; it starts nothing and leaves the entry in the
    cache. *)
Lemma process_alone_cached (w : World) (data : Data) (now : string)
    (reachable : bool) (v : EvaluationResult) :
  cached (key data) (evaluationCache w) v ->
  exists w', process_alone w data now reachable = (w', renderEvaluation (Some v))
             /\ cached (key data) (evaluationCache w') v
             /\ dispatched w' = dispatched w
             /\ runningEvaluations w' = runningEvaluations w.
Proof.
  intros Hc. unfold process_alone, process_head.
  rewrite (cached_has _ _ _ Hc), (cache_get_cached _ _ _ Hc).
  eexists. split; [reflexivity |]. simpl.
  split; [apply cached_front | now split].
Qed.

Lemma process_repeatedly_cached (w : World) (data : Data)
    (calls : list (string * bool)) (v : EvaluationResult) :
  cached (key data) (evaluationCache w) v ->
  snd (process_repeatedly w data calls)
  = repeat (renderEvaluation (Some v)) (List.length calls)
  /\ dispatched (fst (process_repeatedly w data calls)) = dispatched w.
Proof.
  revert w. induction calls as [|[now reachable] calls IH]; intros w Hc.
  - now split.
  - simpl.
    destruct (process_alone_cached w data now reachable v Hc)
      as [w' [E [Hc' [Hd _]]]].
    rewrite E. destruct (IH w' Hc') as [IH1 IH2].
    destruct (process_repeatedly w' data calls) as [w2 pages]. simpl in *.
    split; [now rewrite IH1 | congruence].
Qed.

(* ================================================================== *)
(** * 28. Failure caching *)
(* ================================================================== *)

Lemma error_result_error (err : JsError) :
  truthy (message err) = true ->
  exists e, error (error_result err) = Some e /\ e <> EmptyString.
Proof.
  intros Hm. unfold error_result, or_else. simpl.
  destruct (api_error_message err) as [m|].
  - destruct (truthy m) eqn:E.
    + exists m. split; [reflexivity | now apply truthy_nonempty].
    + exists (message err). split; [reflexivity | now apply truthy_nonempty].
  - exists (message err). split; [reflexivity | now apply truthy_nonempty].
Qed.

(** C5: when the engine call fails or times out, the result has all four
    category scores at the minimum (0), one improvement entry and a
    non-empty error field; it is stored in the memory cache under the
    same key, and every following request for that key is answered with
    it from the cache (the page is the error template with the escaped
    error), no evaluation being started. *)
Theorem failure_is_cached
    (config : TicketClassification) (env : Env) (openai_model : string)
    (decodeHtml : string -> string) (w : World) (data : Data) (err : JsError)
    (timestamp : string) (accepted : bool) :
  truthy (message err) = true ->
  let w1 := background_settle config env openai_model decodeHtml w data
              (Threw err) timestamp accepted in
  exists failure,
    fst (cache_get (key data) (evaluationCache w1)) = Some failure
    /\ scores_within 0 0 failure
    /\ key_improvements failure
       = Some ["OpenAI API error occurred - check logs for details"%string]
    /\ (exists e, error failure = Some e /\ e <> EmptyString
                   /\ renderEvaluation (Some failure) = ErrorPage (escapeHtml e))
    /\ forall data' calls, key data' = key data ->
         snd (process_repeatedly w1 data' calls)
         = repeat (renderEvaluation (Some failure)) (List.length calls)
         /\ dispatched (fst (process_repeatedly w1 data' calls)) = dispatched w1.
Proof.
  intros Hm. cbv zeta.
  set (failure := evaluateResponse config env openai_model
                    (decodeHtml (text (response data))) (ticket data) (Threw err)).
  assert (Hf : exists err', failure = error_result err' /\ truthy (message err') = true).
  { unfold failure, evaluateResponse.
    destruct (present (OPENAI_API_KEY env)); eexists; split; reflexivity || exact Hm. }
  destruct Hf as [err' [Hf Hm']].
  assert (Hc : cached (key data)
                 (evaluationCache (background_settle config env openai_model decodeHtml
                                     w data (Threw err) timestamp accepted)) failure).
  { unfold background_settle. simpl. apply cache_set_cached. }
  exists failure. split; [now rewrite (cache_get_cached _ _ _ Hc) |].
  split; [rewrite Hf; apply error_result_scores |].
  split; [now rewrite Hf |].
  split.
  { rewrite Hf. destruct (error_result_error err' Hm') as [e [He Hne]].
    exists e. split; [exact He |]. split; [exact Hne |].
    unfold renderEvaluation. rewrite He.
    replace (present (Some e)) with (Some e); [reflexivity |].
    symmetry. apply present_truthy. split; [reflexivity | now apply truthy_nonempty]. }
  intros data' calls Hk. apply process_repeatedly_cached. now rewrite Hk.
Qed.

Lemma failure_is_cached_witness :
  exists failure,
    fst (cache_get (key sample_data)
           (evaluationCache
              (background_settle sample_config sample_env "gpt-4" (fun s => s)
                 initial_world sample_data (Threw sample_error)
                 "2025-01-15T10:30:00.000Z" true))) = Some failure
    /\ error failure = Some "timeout of 60000ms exceeded"%string.
Proof.
  destruct (failure_is_cached sample_config sample_env "gpt-4" (fun s => s)
              initial_world sample_data sample_error
              "2025-01-15T10:30:00.000Z" true eq_refl)
    as [failure [Hget _]].
  exists failure. split; [exact Hget |].
  vm_compute in Hget. injection Hget as <-. reflexivity.
Defined.

(* ================================================================== *)
(** * 29. Single flight *)
(* ================================================================== *)

Lemma initial_lookup_empty (data : Data) (now : string) (reachable : bool)
    (w : World) :
  ledger w = [] -> ledger_lookup w data now reachable = None.
Proof.
  intros H. unfold ledger_lookup, checkGoogleSheets. rewrite H.
  destruct (sheets data); [| reflexivity]. now destruct reachable.
Qed.

Lemma count_twice (k : string) : count_occ string_dec [k; k] k = 2%nat.
Proof. simpl. destruct (string_dec k k); [reflexivity | contradiction]. Qed.

(** Calls that come one after the other behave as the comments of the
    source say: the first starts the evaluation, the second finds the
    key in [runningEvaluations] and only returns the placeholder. *)
Lemma calls_in_turn_dispatch_once (data : Data) (now1 now2 : string)
    (reachable1 reachable2 : bool) :
  let (w1, page1) := process_alone initial_world data now1 reachable1 in
  let (w2, page2) := process_alone w1 data now2 reachable2 in
  page1 = ProcessingPlaceholder /\ page2 = ProcessingPlaceholder
  /\ dispatched w2 = [key data].
Proof.
  unfold process_alone, process_head. simpl.
  rewrite bool_decide_eq_false_2; [| set_solver].
  rewrite initial_lookup_empty by reflexivity. simpl.
  rewrite bool_decide_eq_true_2; [| set_solver].
  now repeat split.
Qed.

Lemma count_occ_snoc (l : list string) (k k' : string) :
  count_occ string_dec (l ++ [k]) k'
  = (count_occ string_dec l k' + if string_dec k k' then 1 else 0)%nat.
Proof.
  rewrite count_occ_app. simpl. now destruct (string_dec k k').
Qed.

Lemma elem_of_added (k k' : string) (running : gset string) :
  k' ∈ {[ k ]} ∪ running <-> k' = k \/ k' ∈ running.
Proof. now rewrite elem_of_union, elem_of_singleton. Qed.

Lemma elem_of_removed (k k' : string) (running : gset string) :
  k' ∈ running ∖ {[ k ]} <-> k' ∈ running /\ k' <> k.
Proof. now rewrite elem_of_difference, elem_of_singleton. Qed.

(** A call that runs from start to end keeps the in-flight set
    truthful: it starts an evaluation only for a key that is not in the
    set, and then puts the key in. *)
Lemma process_alone_single_flight (w : World) (data : Data) (now : string)
    (reachable : bool) :
  single_flight w -> single_flight (fst (process_alone w data now reachable)).
Proof.
  intros Hw. unfold process_alone, process_head.
  destruct (cache_has _ _).
  - destruct (cache_get _ _). exact Hw.
  - destruct (bool_decide (key data ∈ runningEvaluations w)) eqn:Hr; [exact Hw |].
    unfold process_tail. destruct (ledger_lookup _ _ _ _); [exact Hw |].
    intros k. specialize (Hw k). unfold in_flight in *. simpl.
    rewrite count_occ_snoc, Nat2Z.inj_add.
    apply bool_decide_eq_false in Hr.
    destruct (string_dec (key data) k) as [<- | Hne].
    + rewrite (bool_decide_eq_false_2 _ Hr) in Hw.
      rewrite bool_decide_eq_true_2; [lia | apply elem_of_added; now left].
    + destruct (bool_decide (k ∈ runningEvaluations w)) eqn:Hk.
      * apply bool_decide_eq_true in Hk.
        rewrite bool_decide_eq_true_2; [lia | apply elem_of_added; now right].
      * apply bool_decide_eq_false in Hk.
        rewrite bool_decide_eq_false_2; [lia |].
        rewrite elem_of_added. intros [-> | Hin]; contradiction.
Qed.

Lemma background_finally_single_flight (w : World) (data : Data) :
  single_flight w -> key data ∈ runningEvaluations w ->
  single_flight (background_finally w data).
Proof.
  intros Hw Hin k. specialize (Hw k). unfold in_flight in *. simpl.
  rewrite count_occ_snoc, Nat2Z.inj_add.
  destruct (string_dec (key data) k) as [<- | Hne].
  - rewrite (bool_decide_eq_true_2 _ Hin) in Hw.
    rewrite bool_decide_eq_false_2; [lia |].
    rewrite elem_of_removed. now intros [_ Hk].
  - destruct (bool_decide (k ∈ runningEvaluations w)) eqn:Hk.
    + apply bool_decide_eq_true in Hk.
      rewrite bool_decide_eq_true_2; [lia |].
      apply elem_of_removed. split; [exact Hk | congruence].
    + apply bool_decide_eq_false in Hk.
      rewrite bool_decide_eq_false_2; [lia |].
      rewrite elem_of_removed. now intros [Hk' _].
Qed.

Section SingleFlight.

Variable config : TicketClassification.
Variable env : Env.
Variable openai_model : string.
Variable decodeHtml : string -> string.

(** A call for a key that is neither cached nor marked as running goes
    on to the ledger lookup and is suspended there. *)
Lemma arrives_unresolved (w : World) (data : Data) :
  sheets data = true ->
  cache_has (key data) (evaluationCache w) = false ->
  key data ∉ runningEvaluations w ->
  step config env openai_model decodeHtml w (Arrives data)
  = (suspend w (key data), None).
Proof.
  intros Hs Hc Hr. simpl. unfold process_head. rewrite Hc.
  now rewrite (bool_decide_eq_false_2 _ Hr), Hs.
Qed.

(** A suspended call that gets no row from the ledger marks the key as
    running and starts the evaluation, whatever happened meanwhile. *)
Lemma ledger_replied_nothing (w : World) (data : Data) (now : string)
    (reachable : bool) (rest : list string) :
  take_one (key data) (awaiting w) = Some rest ->
  ledger w = [] ->
  step config env openai_model decodeHtml w (LedgerReplied data now reachable)
  = ({| evaluationCache := evaluationCache w;
        runningEvaluations := {[ key data ]} ∪ runningEvaluations w;
        ledger := ledger w;
        awaiting := rest;
        dispatched := dispatched w ++ [key data];
        settled := settled w |},
     Some ProcessingPlaceholder).
Proof.
  intros Ht Hl. simpl. rewrite Ht.
  now rewrite (initial_lookup_empty data now reachable w Hl).
Qed.

Lemma take_one_head (k : string) (l : list string) : take_one k (k :: l) = Some l.
Proof. simpl. now rewrite String.eqb_refl. Qed.

(** Without interleaving the design works: by induction on the turns,
    no key ever has more than one evaluation in flight. *)
Lemma in_turn_single_flight (w : World) :
  reached_in_turn config env openai_model decodeHtml w ->
  single_flight w /\ forall k, 0 <= in_flight w k <= 1.
Proof.
  intros Hr.
  assert (Hs : single_flight w).
  { induction Hr as [| w data now reachable _ IH
                     | w data reply timestamp accepted _ IH
                     | w data _ IH Hin].
    - intros k. unfold in_flight. simpl.
      now rewrite bool_decide_eq_false_2; [| set_solver].
    - now apply process_alone_single_flight.
    - exact IH.
    - now apply background_finally_single_flight. }
  split; [exact Hs |].
  intros k. rewrite (Hs k). destruct (bool_decide _); lia.
Qed.

(** C1, on the schedule that breaks it: two calls of [process] for one
    unresolved key, the second arriving while the first awaits the
    ledger.  Both pass the test on [runningEvaluations] before either
    adds the key, so both start [evaluateInBackground]: two evaluations
    of the key are in flight. *)
Theorem interleaved_calls_dispatch_twice (data : Data) (now1 now2 : string)
    (reachable1 reachable2 : bool) :
  sheets data = true ->
  let schedule :=
    [ Arrives data; Arrives data;
      LedgerReplied data now1 reachable1; LedgerReplied data now2 reachable2 ] in
  let (w, pages) := run config env openai_model decodeHtml initial_world schedule in
  pages = [ProcessingPlaceholder; ProcessingPlaceholder]
  /\ dispatched w = [key data; key data]
  /\ in_flight w (key data) = 2.
Proof.
  intros Hs. cbv zeta. cbn [run].
  rewrite arrives_unresolved; [| exact Hs | reflexivity | set_solver].
  rewrite arrives_unresolved; [| exact Hs | reflexivity | set_solver].
  rewrite (ledger_replied_nothing _ data now1 reachable1 [key data]);
    [| apply take_one_head | reflexivity].
  rewrite (ledger_replied_nothing _ data now2 reachable2 []);
    [| apply take_one_head | reflexivity].
  repeat split. unfold in_flight. simpl dispatched. simpl settled.
  rewrite count_twice. reflexivity.
Qed.

End SingleFlight.

Lemma interleaved_calls_dispatch_twice_witness :
  let (w, pages) :=
    run sample_config sample_env "gpt-4" (fun s => s) initial_world
      [ Arrives sample_data; Arrives sample_data;
        LedgerReplied sample_data "2025-01-15T10:30:00.000Z" true;
        LedgerReplied sample_data "2025-01-15T10:30:00.200Z" true ] in
  pages = [ProcessingPlaceholder; ProcessingPlaceholder]
  /\ dispatched w = [key sample_data; key sample_data]
  /\ in_flight w (key sample_data) = 2.
Proof.
  apply (interleaved_calls_dispatch_twice sample_config sample_env "gpt-4"
           (fun s => s) sample_data). reflexivity.
Defined.

(* ================================================================== *)
(** * 30. Ledger *)
(* ================================================================== *)

(** Cells in front of a non-empty cell survive the trimming of the
    row. *)
Lemma drop_trailing_empty_kept (cells : list string) (i j : nat) (c : string) :
  (i <= j)%nat -> cells !! j = Some c -> truthy c = true ->
  drop_trailing_empty cells !! i = cells !! i.
Proof.
  revert i j. induction cells as [|x r IH]; intros i j Hij Hj Hc; [reflexivity |].
  destruct j as [|j].
  - assert (i = 0%nat) as -> by lia. simpl in Hj. injection Hj as ->.
    simpl. destruct (drop_trailing_empty r); [now rewrite Hc | reflexivity].
  - simpl in Hj.
    pose proof (IH j j (Nat.le_refl j) Hj Hc) as Hjj.
    simpl. destruct (drop_trailing_empty r) as [|y r'] eqn:E.
    + rewrite Hj in Hjj. discriminate.
    + destruct i as [|i]; [reflexivity |]. simpl.
      apply (IH i j); [lia | exact Hj | exact Hc].
Qed.

(** A trimmed cell reads as the empty text it was. *)
Lemma drop_trailing_empty_text (cells : list string) (i : nat) :
  text_or_empty (drop_trailing_empty cells !! i) = text_or_empty (cells !! i).
Proof.
  revert i. induction cells as [|x r IH]; intros i; [reflexivity |].
  simpl. destruct (drop_trailing_empty r) as [|y r'] eqn:E.
  - destruct i as [|i].
    + destruct x; reflexivity.
    + simpl. rewrite <- IH.
      destruct (truthy x); simpl; now destruct i.
  - destruct i as [|i]; [reflexivity |]. simpl. apply IH.
Qed.

Lemma find_last_appended (f : Row -> bool) (sheet : list Row) (row : Row) :
  f row = true -> List.find f (rev (sheet ++ [row])) = Some row.
Proof. intros H. rewrite rev_unit. simpl. now rewrite H. Qed.

Lemma render_cell_String (v : JsVal) :
  v <> VUndefined -> render_cell v = String_ v.
Proof. destruct v; [reflexivity | reflexivity | contradiction]. Qed.

(** The evaluation that the lookup rebuilds from the row just
    appended. *)
Lemma lookup_after_save
    (sheet : list Row) (timestamp now : string) (ticket : Ticket)
    (response : Response) (evaluation : EvaluationResult)
    (t c e p : CategoryDetail) (improvements : list string) (a : Agent) :
  categories evaluation
  = Some {| tone_empathy := Some t; clarity_completeness := Some c;
            standard_of_english := Some e; problem_resolution := Some p |} ->
  key_improvements evaluation = Some improvements ->
  agent response = Some a ->
  id ticket <> VUndefined ->
  timestamp <> EmptyString ->
  before_first "T" timestamp = before_first "T" now ->
  checkGoogleSheets now (id ticket)
    (Some (Resolved (saveToGoogleSheets sheet timestamp true
                       ticket response evaluation)))
  = Some {| overall_score := overall_score evaluation;
            categories := categories evaluation;
            key_improvements :=
              Some (List.filter truthy (split "; " (join "; " improvements)));
            error := None |}.
Proof.
  intros Hcats Himps Hagent Hid Hstamp Hday.
  unfold saveToGoogleSheets, rowData.
  rewrite Hagent, Hcats, Himps. cbn [mbind option_bind tone_empathy
    clarity_completeness standard_of_english problem_resolution].
  unfold values_append.
  set (cells := map render_cell _).
  assert (Hkeep : forall i, (i <= 8)%nat ->
                    drop_trailing_empty cells !! i = cells !! i).
  { intros i Hi.
    apply (drop_trailing_empty_kept cells i 8 (number_text (score p)));
      [exact Hi | reflexivity | apply number_text_truthy]. }
  assert (Hmatch : row_matches (before_first "T" now) (id ticket)
                     (drop_trailing_empty cells) = true).
  { unfold row_matches, rowDate.
    rewrite !Hkeep by lia. subst cells. cbn [map lookup list_lookup].
    rewrite (render_cell_String _ Hid). cbn [String_cell].
    rewrite String.eqb_refl. cbn [render_cell].
    replace (present (Some timestamp)) with (Some timestamp)
      by (symmetry; apply present_truthy; split; [reflexivity |];
          now apply truthy_nonempty).
    rewrite Hday. now rewrite String.eqb_refl. }
  unfold checkGoogleSheets.
  rewrite (find_last_appended _ sheet _ Hmatch). cbn [option_map].
  unfold row_evaluation, row_category.
  rewrite !drop_trailing_empty_text. rewrite !Hkeep by lia.
  subst cells. cbn [map lookup list_lookup render_cell text_or_empty].
  rewrite !parse_or_zero_number_text.
  now destruct t, c, e, p.
Qed.

(** C9: a row appended for a ticket and looked up for the same ticket
    id on the same calendar day gives back the overall score, the four
    category scores and the four feedback texts that were appended,
    whole or fractional. *)
Theorem ledger_round_trip
    (sheet : list Row) (timestamp now : string) (ticket : Ticket)
    (response : Response) (evaluation : EvaluationResult)
    (t c e p : CategoryDetail) (improvements : list string) (a : Agent) :
  categories evaluation
  = Some {| tone_empathy := Some t; clarity_completeness := Some c;
            standard_of_english := Some e; problem_resolution := Some p |} ->
  key_improvements evaluation = Some improvements ->
  agent response = Some a ->
  id ticket <> VUndefined ->
  timestamp <> EmptyString ->
  before_first "T" timestamp = before_first "T" now ->
  exists found,
    checkGoogleSheets now (id ticket)
      (Some (Resolved (saveToGoogleSheets sheet timestamp true
                         ticket response evaluation)))
    = Some found
    /\ overall_score found = overall_score evaluation
    /\ categories found = categories evaluation.
Proof.
  intros Hcats Himps Hagent Hid Hstamp Hday.
  rewrite (lookup_after_save sheet timestamp now ticket response evaluation
             t c e p improvements a Hcats Himps Hagent Hid Hstamp Hday).
  eexists. split; [reflexivity |]. now split.
Qed.

Lemma ledger_round_trip_witness :
  exists found,
    checkGoogleSheets "2025-01-15T23:59:59.000Z" (id services_ticket)
      (Some (Resolved (saveToGoogleSheets [["Timestamp"; "Ticket"]%string]
                         "2025-01-15T10:30:00.000Z" true
                         services_ticket sample_response prompt_evaluation)))
    = Some found
    /\ overall_score found = decimal 85 1
    /\ categories found = categories prompt_evaluation.
Proof.
  apply (ledger_round_trip _ "2025-01-15T10:30:00.000Z" "2025-01-15T23:59:59.000Z"
           services_ticket sample_response prompt_evaluation
           {| score := 9; feedback := "Great empathetic tone, thanked customer at start" |}
           {| score := 8; feedback := "Clear explanation but could be more concise" |}
           {| score := 7; feedback := "Could use more natural phrasing in some areas" |}
           {| score := 8;
              feedback := "Addressed the issue but could suggest more alternatives" |}
           ["Consider suggesting an alternative approach";
            "Add a link to the relevant documentation"]%string
           {| agent_id := VNum 7; agent_name := VStr "Alex" |}).
  - reflexivity.
  - reflexivity.
  - reflexivity.
  - discriminate.
  - discriminate.
  - reflexivity.
Defined.

(** The rows that two evaluations leave in the sheet, and what the
    lookup rebuilds from the first on the next day. *)
Example ledger_sample_row :
  saveToGoogleSheets [] "2025-01-15T10:30:00.000Z" true
    services_ticket sample_response sample_evaluation
  = [[ "2025-01-15T10:30:00.000Z"; "4711"; "7"; "Alex"; "8"; "5"; "8"; "9"; "6";
       "Thank the customer at the start; ok"; "<p>Thanks for reaching out!</p>";
       "12"; "Curt greeting"; "Clear but could be more concise"; EmptyString;
       "Please provide more detail on the setup steps and more detail on pricing"
     ]%string]
  /\ firstn 9 (concat (saveToGoogleSheets [] "2025-01-15T10:30:00.000Z" true
                         services_ticket sample_response prompt_evaluation))
     = [ "2025-01-15T10:30:00.000Z"; "4711"; "7"; "Alex"; "8.5"; "9"; "8"; "7"; "8"
       ]%string
  /\ checkGoogleSheets "2025-01-16T00:00:01.000Z" (VNum 4711)
       (Some (Resolved (saveToGoogleSheets [] "2025-01-15T10:30:00.000Z" true
                          services_ticket sample_response sample_evaluation)))
     = None.
Proof. repeat split; vm_compute; reflexivity. Qed.

Lemma String_cell_number (n : JsNum) (cell : option string) :
  String_cell cell = number_text n <-> cell = Some (number_text n).
Proof.
  destruct cell as [s|]; simpl.
  - split; [now intros -> | intros H; now injection H].
  - split; [| discriminate]. intros H. symmetry in H.
    now apply number_text_defined in H.
Qed.

(** The row test, read off the cells. *)
Lemma row_matches_stored (n : JsNum) (today : string) (row : Row) :
  row_matches today (VNum n) row = true <-> stored_for n today row.
Proof.
  unfold row_matches, stored_for, rowDate. cbn [String_].
  rewrite andb_true_iff, String.eqb_eq, String_cell_number.
  apply and_iff_compat_l.
  destruct (present (row !! 0%nat)) as [stamp|] eqn:E.
  - apply present_truthy in E. destruct E as [E T].
    rewrite String.eqb_eq. split.
    + intros H. exists stamp. split; [exact E |].
      split; [now apply truthy_nonempty | exact H].
    + intros [stamp' [E' [_ H]]]. congruence.
  - split; [discriminate |]. intros [stamp [E' [Hne _]]].
    assert (present (row !! 0%nat) = Some stamp) as E''
      by (apply present_truthy; split; [exact E' | now apply truthy_nonempty]).
    congruence.
Qed.

(** C10: the lookup compares [String(rowTicketId)] with
    [String(ticketId)].  A numeric ticket id and its text select the
    same rows and give the same answer; the rows selected are exactly
    those of the day whose id cell holds the text of the number, so the
    lookup finds something exactly when the sheet has such a row, and
    what it finds is read from such a row; a row stored for another
    number is not selected. *)
Theorem lookup_coerces_ticket_id (n : JsNum) (now : string) (rows : list Row) :
  let today := before_first "T" now in
  let numeric := checkGoogleSheets now (VNum n) (Some (Resolved rows)) in
  let textual := checkGoogleSheets now (VStr (number_text n)) (Some (Resolved rows)) in
  numeric = textual
  /\ (forall row,
        row_matches today (VNum n) row = row_matches today (VStr (number_text n)) row)
  /\ (forall row, row_matches today (VNum n) row = true <-> stored_for n today row)
  /\ (numeric <> None <-> exists row, In row rows /\ stored_for n today row)
  /\ (forall found, numeric = Some found ->
        exists row, In row rows /\ stored_for n today row
                    /\ found = row_evaluation row)
  /\ (forall m row, m <> n -> row !! 1%nat = Some (number_text m) ->
        row_matches today (VNum n) row = false).
Proof.
  cbv zeta. split; [reflexivity |]. split; [reflexivity |].
  split; [intros row; apply row_matches_stored |].
  unfold checkGoogleSheets.
  destruct (List.find _ (rev rows)) as [hit|] eqn:Hf; cbn [option_map].
  - apply find_some in Hf. destruct Hf as [Hin Hm].
    apply in_rev in Hin. apply row_matches_stored in Hm.
    split; [split; [intros _; now exists hit | discriminate] |].
    split.
    + intros found H. injection H as <-. now exists hit.
    + intros m row Hne Hcell.
      destruct (row_matches _ (VNum n) row) eqn:E; [| reflexivity].
      apply row_matches_stored in E. destruct E as [E _].
      rewrite Hcell in E. injection E as E. now apply number_text_inj in E.
  - split.
    + split; [contradiction |]. intros [row [Hin Hs]].
      apply row_matches_stored in Hs.
      rewrite (find_none _ _ Hf row) in Hs; [discriminate | now apply in_rev in Hin].
    + split; [discriminate |].
      intros m row Hne Hcell.
      destruct (row_matches _ (VNum n) row) eqn:E; [| reflexivity].
      apply row_matches_stored in E. destruct E as [E _].
      rewrite Hcell in E. injection E as E. now apply number_text_inj in E.
Qed.

Lemma lookup_coerces_ticket_id_witness :
  checkGoogleSheets "2025-01-15T23:59:59.000Z" (VNum 4711)
    (Some (Resolved [["2025-01-15T10:30:00.000Z"; "4712"; "7"; "Alex"; "3"];
                     ["2025-01-15T10:30:00.000Z"; "4711"; "7"; "Alex"; "8.5"]]%string))
  <> None
  /\ row_matches "2025-01-15" (VNum 4711)
       ["2025-01-15T10:30:00.000Z"; "4712"; "7"; "Alex"; "3"]%string = false.
Proof.
  destruct (lookup_coerces_ticket_id 4711 "2025-01-15T23:59:59.000Z"
              [["2025-01-15T10:30:00.000Z"; "4712"; "7"; "Alex"; "3"];
               ["2025-01-15T10:30:00.000Z"; "4711"; "7"; "Alex"; "8.5"]]%string)
    as [_ [_ [_ [Hfound [_ Hother]]]]].
  split.
  - apply Hfound.
    exists ["2025-01-15T10:30:00.000Z"; "4711"; "7"; "Alex"; "8.5"]%string.
    split; [right; left; reflexivity |].
    split; [reflexivity |].
    exists "2025-01-15T10:30:00.000Z"%string.
    split; [reflexivity |]. split; [discriminate | reflexivity].
  - apply (Hother 4712); [| reflexivity].
    intros H. apply whole_inj in H. discriminate H.
Defined.

(* ================================================================== *)
(** * 31. Signature verifier: acceptance *)
(* ================================================================== *)

Example sha256_constants :
  nthZ Sha256.K256 0 = 0x428a2f98 /\ nthZ Sha256.K256 63 = 0xc67178f2
  /\ List.length Sha256.K256 = 64%nat
  /\ fst Sha256.iv8 = (0x6a09e667, 0xbb67ae85, 0x3c6ef372, 0xa54ff53a,
                        0x510e527f, 0x9b05688c, 0x1f83d9ab)
  /\ snd Sha256.iv8 = 0x5be0cd19.
Proof. repeat split. Qed.

Example sha256_vectors :
  hex (Sha256.sha256 (bytes_of_string "abc"))
  = "ba7816bf8f01cfea414140de5dae2223b00361a396177a9cb410ff61f20015ad"%string
  /\ hex (Sha256.sha256 (bytes_of_string
            ("The quick brown fox jumps over the lazy dog. "
             +:+ "The quick brown fox jumps over the lazy dog.")))
     = "635241ac823ee4a81fbb410c92be616b0a89191083d8d7b5d232c823dc8df4f5"%string
  /\ generateSignature "what do ya want for nothing?" "Jefe"
     = "W9zBRr9gdU5qBCQmCJV1x1oAPwidJzmDnexYuWTsOEM="%string.
Proof. repeat split; vm_compute; reflexivity. Qed.

Lemma base64_length (bs : list Z) :
  String.length (base64 bs) = (4 * ((List.length bs + 2) / 3))%nat.
Proof.
  remember (List.length bs) as n eqn:Hn. revert bs Hn.
  induction n as [n IH] using lt_wf_ind. intros bs Hn.
  destruct bs as [|a [|b [|c r]]]; subst n; try reflexivity.
  cbn [base64 String.length List.length].
  rewrite (IH (List.length r)) by (simpl; lia || reflexivity).
  replace (S (S (S (List.length r))) + 2)%nat
    with (List.length r + 2 + 1 * 3)%nat by lia.
  rewrite Nat.div_add by discriminate. lia.
Qed.

Lemma sha1_length (msg : list Z) : List.length (Sha1.sha1 msg) = 20%nat.
Proof.
  unfold Sha1.sha1.
  destruct (fold_left _ _ _) as [[[[a b] c] d] e]. reflexivity.
Qed.

Lemma sha256_length (msg : list Z) : List.length (Sha256.sha256 msg) = 32%nat.
Proof.
  unfold Sha256.sha256.
  destruct (fold_left _ _ _) as [[[[[[[a b] c] d] e] f] g] h]. reflexivity.
Qed.

(** The signature the server computes always has 28 characters. *)
Lemma hmac_sha1_base64_length (secret body : string) :
  String.length (hmac_sha1_base64 secret body) = 28%nat.
Proof.
  unfold hmac_sha1_base64, Sha1.hmac. now rewrite base64_length, sha1_length.
Qed.

(** The one the script generates always has 44. *)
Lemma generateSignature_length (serialized secret : string) :
  String.length (generateSignature serialized secret) = 44%nat.
Proof.
  unfold generateSignature, Sha256.hmac256.
  now rewrite base64_length, sha256_length.
Qed.

Lemma bytes_of_string_inj (a b : string) :
  bytes_of_string a = bytes_of_string b -> a = b.
Proof.
  unfold bytes_of_string. revert b.
  induction a as [|x a IH]; intros [|y b] H; simpl in H; try discriminate;
    [reflexivity |].
  injection H as Hx Hr. apply N2Z.inj in Hx.
  rewrite <- (ascii_N_embedding x), <- (ascii_N_embedding y), Hx.
  f_equal. now apply IH.
Qed.

Lemma forallb_combine_eq (a b : list Z) :
  List.length a = List.length b ->
  forallb (fun p => fst p =? snd p) (combine a b) = true <-> a = b.
Proof.
  revert b. induction a as [|x a IH]; intros [|y b] Hl; simpl in *;
    try discriminate; [tauto |].
  injection Hl as Hl. rewrite andb_true_iff, Z.eqb_eq, (IH b Hl).
  split; [intros [-> ->]; reflexivity | intros H; injection H as -> ->; now split].
Qed.

(** [timingSafeEqual] answers [true] exactly on equal buffers. *)
Lemma timingSafeEqual_true (a b : list Z) :
  timingSafeEqual a b = Some true <-> a = b.
Proof.
  unfold timingSafeEqual.
  destruct (Nat.eqb_spec (List.length a) (List.length b)) as [Hl | Hl].
  - rewrite <- (forallb_combine_eq a b Hl). split; congruence.
  - split; [discriminate | intros ->; contradiction].
Qed.

Lemma length_28_truthy (s : string) : String.length s = 28%nat -> truthy s = true.
Proof. destruct s; [discriminate | reflexivity]. Qed.

Lemma computedSignature_present (secret : string) (req : HttpRequest) :
  present (Some (computedSignature secret req)) = Some (computedSignature secret req).
Proof.
  apply present_truthy. split; [reflexivity |].
  apply length_28_truthy, hmac_sha1_base64_length.
Qed.

(** With validation on, a secret and a header that is there, the
    answer is the comparison of the header with the computed
    signature. *)
Lemma checkSignature_compared (env : Env) (req : HttpRequest) (secret sg : string) :
  DISABLE_SIGNATURE_VALIDATION env <> Some "true"%string ->
  present (or_else (HELPSCOUT_DYNAMIC_WIDGET_SECRET_KEY env) (HELPSCOUT_APP_SECRET env))
    = Some secret ->
  present (x_helpscout_signature req) = Some sg ->
  validateHelpScoutSignature env req = true <-> sg = computedSignature secret req.
Proof.
  intros Hon Hsecret Hsg.
  unfold validateHelpScoutSignature, checkSignature, computedSignature.
  rewrite (validation_enabled env Hon), Hsecret, Hsg.
  destruct (Nat.eqb_spec (List.length (bytes_of_string sg))
              (List.length (bytes_of_string
                 (hmac_sha1_base64 secret (text_or_empty (rawBody req))))))
    as [Hl | Hl]; simpl.
  - destruct (timingSafeEqual _ _) as [[]|] eqn:Et.
    + apply timingSafeEqual_true, bytes_of_string_inj in Et. now split.
    + split; [discriminate |]. intros ->.
      rewrite (proj2 (timingSafeEqual_true _ _) eq_refl) in Et. discriminate.
    + split; [discriminate |]. intros ->.
      rewrite (proj2 (timingSafeEqual_true _ _) eq_refl) in Et. discriminate.
  - split; [discriminate |]. intros ->. now contradiction Hl.
Qed.

Lemma validation_switch (env : Env) :
  DISABLE_SIGNATURE_VALIDATION env = Some "true"%string
  \/ DISABLE_SIGNATURE_VALIDATION env <> Some "true"%string.
Proof.
  destruct (DISABLE_SIGNATURE_VALIDATION env) as [v|]; [| now right].
  destruct (String.eqb_spec v "true"); [left | right]; congruence.
Qed.

(** With validation on, an accepted request carries the computed
    signature of a configured secret. *)
Lemma accepted_when_enabled (env : Env) (req : HttpRequest) :
  DISABLE_SIGNATURE_VALIDATION env <> Some "true"%string ->
  validateHelpScoutSignature env req = true ->
  exists secret,
    present (or_else (HELPSCOUT_DYNAMIC_WIDGET_SECRET_KEY env)
                     (HELPSCOUT_APP_SECRET env)) = Some secret
    /\ x_helpscout_signature req = Some (computedSignature secret req).
Proof.
  intros Hon Hacc.
  destruct (present (or_else (HELPSCOUT_DYNAMIC_WIDGET_SECRET_KEY env)
                             (HELPSCOUT_APP_SECRET env))) as [secret|] eqn:Hsecret.
  - destruct (present (x_helpscout_signature req)) as [sg|] eqn:Hsg.
    + apply (checkSignature_compared env req secret sg Hon Hsecret Hsg) in Hacc.
      apply present_truthy in Hsg. destruct Hsg as [Hsg _].
      exists secret. split; [reflexivity | congruence].
    + unfold validateHelpScoutSignature, checkSignature in Hacc.
      rewrite (validation_enabled env Hon), Hsecret, Hsg in Hacc. discriminate.
  - unfold validateHelpScoutSignature, checkSignature in Hacc.
    rewrite (validation_enabled env Hon), Hsecret in Hacc. discriminate.
Qed.

(** X1: a request is accepted exactly when validation is switched off,
    or a secret is configured (the widget key, else the app secret) and
    the header is the base64 HMAC-SHA1 of the raw body under it. *)
Theorem validateHelpScoutSignature_accepts (env : Env) (req : HttpRequest) :
  validateHelpScoutSignature env req = true
  <-> DISABLE_SIGNATURE_VALIDATION env = Some "true"%string
      \/ exists secret,
           present (or_else (HELPSCOUT_DYNAMIC_WIDGET_SECRET_KEY env)
                            (HELPSCOUT_APP_SECRET env)) = Some secret
           /\ x_helpscout_signature req = Some (computedSignature secret req).
Proof.
  destruct (validation_switch env) as [Hoff | Hon].
  { split; [now left |]. intros _.
    unfold validateHelpScoutSignature, checkSignature. now rewrite Hoff. }
  split.
  - intros Hacc. right. now apply accepted_when_enabled.
  - intros [Hoff | [secret [Hsecret Hh]]]; [contradiction |].
    apply (checkSignature_compared env req secret (computedSignature secret req)
             Hon Hsecret); [| reflexivity].
    rewrite Hh. apply computedSignature_present.
Qed.

(** X2: a header produced the way [test-signature.js] produces it
    (HMAC-SHA256, 44 characters) is never accepted by the server, which
    computes HMAC-SHA1 (28 characters), whatever the secrets and the
    body, unless validation is switched off. *)
Theorem script_signature_rejected
    (env : Env) (req : HttpRequest) (serialized secret : string) :
  DISABLE_SIGNATURE_VALIDATION env <> Some "true"%string ->
  x_helpscout_signature req = Some (generateSignature serialized secret) ->
  validateHelpScoutSignature env req = false.
Proof.
  intros Hon Hh.
  destruct (validateHelpScoutSignature env req) eqn:E; [| reflexivity].
  destruct (accepted_when_enabled env req Hon E) as [s [_ Hs]].
  rewrite Hh in Hs. injection Hs as Hs.
  apply (f_equal String.length) in Hs.
  unfold computedSignature in Hs.
  rewrite generateSignature_length, hmac_sha1_base64_length in Hs. discriminate.
Qed.

Lemma script_signature_rejected_witness :
  validateHelpScoutSignature sample_env
    {| x_helpscout_signature :=
         Some (generateSignature "what do ya want for nothing?" "Jefe");
       rawBody := Some "what do ya want for nothing?"%string |} = false.
Proof.
  apply (script_signature_rejected sample_env _ "what do ya want for nothing?" "Jefe").
  - discriminate.
  - reflexivity.
Defined.

(* ================================================================== *)
(** * 32. Cache key: shape and separation *)
(* ================================================================== *)

Lemma md5_bytes (msg : list Z) :
  List.length (Md5.md5 msg) = 16%nat
  /\ Forall (fun b => 0 <= b < 256) (Md5.md5 msg).
Proof.
  unfold Md5.md5. destruct (fold_left _ _ _) as [[[a b] c] d].
  split; [reflexivity |].
  cbn [le_bytes app]. repeat constructor; apply Z.mod_pos_bound; lia.
Qed.

Lemma hex_length (bs : list Z) :
  String.length (hex bs) = (2 * List.length bs)%nat.
Proof. induction bs as [|b r IH]; simpl; [reflexivity | rewrite IH; lia]. Qed.

Lemma hex_digit_is_hex (n : Z) : 0 <= n < 16 -> is_hex_char (hex_digit n) = true.
Proof.
  intros H.
  assert (Hall : forallb (fun k => is_hex_char (hex_digit (Z.of_nat k))) (seq 0 16)
                 = true) by reflexivity.
  rewrite forallb_forall in Hall.
  specialize (Hall (Z.to_nat n)). rewrite Z2Nat.id in Hall by lia.
  apply Hall, in_seq. lia.
Qed.

Lemma hex_is_hex (bs : list Z) :
  Forall (fun b => 0 <= b < 256) bs -> all_chars is_hex_char (hex bs) = true.
Proof.
  induction 1 as [|b r Hb _ IH]; [reflexivity |].
  cbn [hex all_chars]. rewrite IH, !hex_digit_is_hex; [reflexivity | |].
  - apply Z.mod_pos_bound. lia.
  - split; [apply Z.div_pos; lia | apply Z.div_lt_upper_bound; lia].
Qed.

Lemma take_str_length (n : nat) (s : string) :
  String.length (take_str n s) = Nat.min n (String.length s).
Proof.
  revert s. induction n as [|n IH]; intros [|c r]; simpl; try reflexivity.
  now rewrite IH.
Qed.

Lemma take_str_all_chars (ok : ascii -> bool) (n : nat) (s : string) :
  all_chars ok s = true -> all_chars ok (take_str n s) = true.
Proof.
  revert s. induction n as [|n IH]; intros [|c r]; simpl; try reflexivity.
  rewrite !andb_true_iff. intros [Hc Hr]. split; [exact Hc | now apply IH].
Qed.

Lemma responseHash_length_8 (text : string) :
  String.length (responseHash text) = 8%nat.
Proof.
  unfold responseHash, md5_hex.
  destruct (md5_bytes (bytes_of_string text)) as [Hl _].
  now rewrite take_str_length, hex_length, Hl.
Qed.

(** X3: the fingerprint in a cache key is always exactly 8 characters
    out of [0-9a-f]. *)
Theorem responseHash_shape (text : string) :
  String.length (responseHash text) = 8%nat
  /\ all_chars is_hex_char (responseHash text) = true.
Proof.
  unfold responseHash, md5_hex.
  split; [apply responseHash_length_8 |].
  unfold responseHash, md5_hex.
  destruct (md5_bytes (bytes_of_string text)) as [_ Hb].
  now apply take_str_all_chars, hex_is_hex.
Qed.

Lemma append_same_length (a b x y : string) :
  String.length a = String.length b -> a +:+ x = b +:+ y -> a = b /\ x = y.
Proof.
  revert b. induction a as [|c a IH]; intros [|d b] Hl H; try discriminate.
  - now split.
  - rewrite !append_cons in H. injection H as -> H. injection Hl as Hl.
    destruct (IH b Hl H) as [-> ->]. now split.
Qed.

(** X4: cache keys keep tickets apart: two different ticket ids never
    get the same key, whatever the two response texts. *)
Theorem cacheKey_separates_tickets (n m : Z) (text1 text2 : string) :
  n <> m -> cacheKey (VNum n) text1 <> cacheKey (VNum m) text2.
Proof.
  intros Hne H. unfold cacheKey, String_ in H.
  assert (Hl : String.length (number_text n) = String.length (number_text m)).
  { apply (f_equal String.length) in H.
    rewrite !append_length in H.
    rewrite !responseHash_length_8 in H. lia. }
  destruct (append_same_length _ _ _ _ Hl H) as [Hs _].
  now apply Hne, whole_inj, number_text_inj.
Qed.

Lemma cacheKey_separates_tickets_witness :
  cacheKey (VNum 4711) "Thanks for reaching out! Ticket note 6397"
  <> cacheKey (VNum 4712) "Thanks for reaching out! Ticket note 6694".
Proof. apply cacheKey_separates_tickets. discriminate. Defined.

(* ================================================================== *)
(** * 33. Escaping *)
(* ================================================================== *)

Lemma all_chars_append (ok : ascii -> bool) (a b : string) :
  all_chars ok (a +:+ b) = all_chars ok a && all_chars ok b.
Proof.
  induction a as [|c a IH]; [reflexivity |].
  rewrite append_cons. simpl. now rewrite IH, andb_assoc.
Qed.

Lemma all_chars_map_chars (ok : ascii -> bool) (f : ascii -> string) (s : string) :
  (forall c, all_chars ok (f c) = true) -> all_chars ok (map_chars f s) = true.
Proof.
  intros Hf. induction s as [|c s IH]; [reflexivity |].
  simpl. now rewrite all_chars_append, Hf, IH.
Qed.

Lemma map_chars_append (f : ascii -> string) (a b : string) :
  map_chars f (a +:+ b) = map_chars f a +:+ map_chars f b.
Proof.
  induction a as [|c a IH]; [reflexivity |].
  rewrite append_cons. simpl. now rewrite IH, append_assoc.
Qed.

Lemma map_chars_compose (f g : ascii -> string) (s : string) :
  map_chars g (map_chars f s) = map_chars (fun c => map_chars g (f c)) s.
Proof.
  induction s as [|c s IH]; [reflexivity |].
  simpl. now rewrite map_chars_append, IH.
Qed.

Lemma map_chars_ext (f g : ascii -> string) (s : string) :
  (forall c, f c = g c) -> map_chars f s = map_chars g s.
Proof.
  intros H. induction s as [|c s IH]; [reflexivity |]. simpl. now rewrite H, IH.
Qed.

Lemma escape_entity_safe (c : ascii) : all_chars not_markup (escape_entity c) = true.
Proof. destruct c as [[] [] [] [] [] [] [] []]; reflexivity. Qed.

(** X5: whatever the text, the section's [escapeHtml] leaves none of
    the characters [<], [>], double quote and apostrophe in its
    output. *)
Theorem escapeHtml_safe (text : string) :
  all_chars not_markup (escapeHtml text) = true.
Proof. apply all_chars_map_chars, escape_entity_safe. Qed.

Lemma escapeHtml_server_one_pass (t : string) :
  t <> EmptyString ->
  escapeHtml_server (Some t) = map_chars server_entity t.
Proof.
  intros Ht. unfold escapeHtml_server.
  replace (present (Some t)) with (Some t)
    by (symmetry; apply present_truthy; split; [reflexivity | now apply truthy_nonempty]).
  unfold replace_char. rewrite !map_chars_compose.
  apply map_chars_ext. intros c.
  destruct c as [[] [] [] [] [] [] [] []]; reflexivity.
Qed.

Lemma server_entity_safe (c : ascii) : all_chars not_markup (server_entity c) = true.
Proof. destruct c as [[] [] [] [] [] [] [] []]; reflexivity. Qed.

(** X6: the five replacements of the entry point's [escapeHtml] never
    escape twice: they amount to one pass that maps each character to
    its entity, and the output has no [<], [>], double quote or
    apostrophe; a missing or empty text gives the empty text. *)
Theorem escapeHtml_server_safe (text : option string) :
  all_chars not_markup (escapeHtml_server text) = true
  /\ (present text = None -> escapeHtml_server text = EmptyString)
  /\ (forall t, present text = Some t ->
        escapeHtml_server text = map_chars server_entity t).
Proof.
  destruct (present text) as [t|] eqn:Hp.
  - apply present_truthy in Hp. destruct Hp as [-> Ht].
    apply truthy_nonempty in Ht.
    rewrite (escapeHtml_server_one_pass t Ht).
    split; [apply all_chars_map_chars, server_entity_safe |].
    split; [discriminate | intros t' H; now injection H as <-].
  - unfold escapeHtml_server. rewrite Hp.
    split; [reflexivity |]. split; [reflexivity | discriminate].
Qed.

(** X7: the two [escapeHtml] functions agree on every non-empty text
    without an apostrophe; on an apostrophe one writes [&#039;] and the
    other [&#39;]. *)
Theorem escapeHtml_versions_agree (t : string) :
  t <> EmptyString ->
  all_chars (fun c => negb (Ascii.eqb c apos)) t = true ->
  escapeHtml_server (Some t) = escapeHtml t.
Proof.
  intros Ht Ha. rewrite (escapeHtml_server_one_pass t Ht). unfold escapeHtml.
  clear Ht. induction t as [|c t IH]; [reflexivity |].
  simpl in *. apply andb_true_iff in Ha. destruct Ha as [Hc Ha].
  rewrite (IH Ha). unfold server_entity.
  apply negb_true_iff in Hc. now rewrite Hc.
Qed.

Lemma escapeHtml_versions_agree_witness :
  escapeHtml_server (Some "<b>Tom & Jerry</b>"%string)
  = escapeHtml "<b>Tom & Jerry</b>".
Proof. apply escapeHtml_versions_agree; [discriminate | reflexivity]. Defined.

Example escapeHtml_examples :
  escapeHtml "<b>Tom & Jerry</b>" = "&lt;b&gt;Tom &amp; Jerry&lt;/b&gt;"%string
  /\ escapeHtml "it's" = "it&#039;s"%string
  /\ escapeHtml_server (Some "it's"%string) = "it&#39;s"%string
  /\ escapeHtml_server (Some "&lt;"%string) = "&amp;lt;"%string
  /\ escapeHtml_server None = EmptyString.
Proof. repeat split. Qed.

(* ================================================================== *)
(** * 34. Chat detection *)
(* ================================================================== *)

(** X8: the evaluation is hidden exactly for a ticket whose type is
    the text "chat" in any letter case, whose source type is "chat" or
    "beacon" in any letter case, or whose subject starts with
    "Live chat on " (as written); values that are not texts never
    hide it. *)
Theorem shouldDisplay_hidden (t : DisplayTicket) :
  shouldDisplay t = false
  <-> (exists s, ticket_type t = VStr s /\ toLowerCase s = "chat"%string)
      \/ (exists s, source_type t = VStr s
                    /\ (toLowerCase s = "chat"%string
                        \/ toLowerCase s = "beacon"%string))
      \/ (exists s rest, ticket_subject t = Some s
                         /\ s = "Live chat on " +:+ rest).
Proof.
  unfold shouldDisplay. rewrite negb_false_iff, !orb_true_iff. split.
  - intros [[[[[H | H] | H] | H] | H] | H].
    + left. destruct (ticket_type t) as [| s |]; try discriminate.
      apply String.eqb_eq in H. subst s. now exists "chat"%string.
    + right; left. destruct (source_type t) as [| s |]; try discriminate.
      apply String.eqb_eq in H. subst s. exists "chat"%string. now split; [| left].
    + right; left. destruct (source_type t) as [| s |]; try discriminate.
      apply String.eqb_eq in H. subst s. exists "beacon"%string. now split; [| right].
    + left. destruct (ticket_type t) as [| s |]; try discriminate.
      simpl in H. rewrite orb_false_r in H. apply String.eqb_eq in H. now exists s.
    + right; left. destruct (source_type t) as [| s |]; try discriminate.
      simpl in H. rewrite orb_false_r, orb_true_iff, !String.eqb_eq in H.
      now exists s.
    + right; right. destruct (present (ticket_subject t)) as [s|] eqn:Hs;
        [| discriminate].
      apply present_truthy in Hs. destruct Hs as [Hs _].
      apply startsWith_spec in H. destruct H as [rest H]. now exists s, rest.
  - intros [[s [Ht Hl]] | [[s [Ht Hl]] | [s [rest [Ht Hs]]]]].
    + left; left; right. rewrite Ht. simpl. now rewrite Hl.
    + left; right. rewrite Ht. simpl.
      destruct Hl as [-> | ->]; reflexivity.
    + right. rewrite Ht.
      replace (present (Some s)) with (Some s).
      * apply startsWith_spec. now exists rest.
      * symmetry. apply present_truthy. split; [reflexivity |]. now subst s.
Qed.

(* ================================================================== *)
(** * 35. Conversation threads *)
(* ================================================================== *)

Section SortFacts.

Variable before : Z -> Z -> bool.

(** [precedes x y]: [x] may stand in front of [y]. *)
Variable precedes : Thread -> Thread -> Prop.

Hypothesis precedes_trans :
  forall x y z, precedes x y -> precedes y z -> precedes x z.
Hypothesis before_precedes :
  forall x y, before (createdAt y) (createdAt x) = true -> precedes y x.
Hypothesis not_before_precedes :
  forall x y, before (createdAt y) (createdAt x) = false -> precedes x y.

Lemma insert_thread_In (x y : Thread) (l : list Thread) :
  In y (insert_thread before x l) <-> y = x \/ In y l.
Proof.
  induction l as [|z r IH]; simpl; [intuition |].
  destruct (before (createdAt z) (createdAt x)); simpl; [rewrite IH |]; intuition.
Qed.

Lemma insert_thread_perm (x : Thread) (l : list Thread) :
  Permutation (x :: l) (insert_thread before x l).
Proof.
  induction l as [|z r IH]; simpl; [reflexivity |].
  destruct (before (createdAt z) (createdAt x)); [| reflexivity].
  rewrite perm_swap. now apply perm_skip.
Qed.

Lemma sort_threads_perm (l : list Thread) :
  Permutation l (sort_threads before l).
Proof.
  induction l as [|x l IH]; simpl; [reflexivity |].
  rewrite <- insert_thread_perm. now apply perm_skip.
Qed.

Lemma insert_thread_sorted (x : Thread) (l : list Thread) :
  StronglySorted precedes l -> StronglySorted precedes (insert_thread before x l).
Proof.
  induction 1 as [|z r Hr IH Hz]; simpl.
  - constructor; constructor.
  - destruct (before (createdAt z) (createdAt x)) eqn:E.
    + constructor; [exact IH |].
      apply List.Forall_forall. intros y Hy. apply insert_thread_In in Hy.
      destruct Hy as [-> | Hy]; [now apply before_precedes |].
      rewrite List.Forall_forall in Hz. now apply Hz.
    + apply not_before_precedes in E.
      constructor; [now constructor |].
      constructor; [exact E |].
      rewrite List.Forall_forall in Hz. apply List.Forall_forall.
      intros y Hy. apply (precedes_trans x z y E). now apply Hz.
Qed.

Lemma sort_threads_sorted (l : list Thread) :
  StronglySorted precedes (sort_threads before l).
Proof.
  induction l as [|x l IH]; simpl; [constructor | now apply insert_thread_sorted].
Qed.

End SortFacts.

Lemma newest_first_sorted (l : list Thread) :
  StronglySorted (fun x y => createdAt y <= createdAt x)
    (sort_threads newest_first l).
Proof.
  apply sort_threads_sorted; unfold newest_first; intros x y.
  - intros z. lia.
  - rewrite Z.ltb_lt. lia.
  - rewrite Z.ltb_ge. lia.
Qed.

Lemma oldest_first_sorted (l : list Thread) :
  StronglySorted (fun x y => createdAt x <= createdAt y)
    (sort_threads oldest_first l).
Proof.
  apply sort_threads_sorted; unfold oldest_first; intros x y.
  - intros z. lia.
  - rewrite Z.ltb_lt. lia.
  - rewrite Z.ltb_ge. lia.
Qed.

Lemma sort_threads_In (before : Z -> Z -> bool) (x : Thread) (l : list Thread) :
  In x (sort_threads before l) <-> In x l.
Proof.
  induction l as [|y l IH]; simpl; [reflexivity |].
  rewrite insert_thread_In, IH. intuition congruence.
Qed.

(** In a sorted list the first element that passes a test stands in
    front of every other one that passes. *)
Lemma find_sorted_first (R : Thread -> Thread -> Prop) (ok : Thread -> bool)
    (l : list Thread) (t : Thread) :
  StronglySorted R l -> List.find ok l = Some t ->
  forall t', In t' l -> ok t' = true -> t' = t \/ R t t'.
Proof.
  induction 1 as [|x r Hr IH Hx]; simpl; [discriminate |].
  intros Hf t' Hin Hok. destruct (ok x) eqn:E.
  - injection Hf as <-. destruct Hin as [-> | Hin]; [now left | right].
    rewrite List.Forall_forall in Hx. now apply Hx.
  - destruct Hin as [-> | Hin]; [congruence |]. now apply IH.
Qed.

(** X9: [findLatestTeamResponse] returns nothing exactly when no
    thread is a team message (type "message", written by a user, with
    a body); otherwise it returns the body, time and author of a team
    message that no other team message is later than. *)
Theorem findLatestTeamResponse_latest (threads : list Thread) :
  (findLatestTeamResponse (Some threads) = None
   <-> forall t, In t threads -> is_team_message t = false)
  /\ (forall r, findLatestTeamResponse (Some threads) = Some r ->
        exists t,
          In t threads /\ is_team_message t = true
          /\ body t = Some (latest_text r) /\ latest_text r <> EmptyString
          /\ latest_createdAt r = createdAt t
          /\ latest_createdBy r = createdBy t
          /\ forall t', In t' threads -> is_team_message t' = true ->
               createdAt t' <= createdAt t).
Proof.
  unfold findLatestTeamResponse.
  destruct (List.find is_team_message (sort_threads newest_first threads))
    as [t|] eqn:Hf.
  - pose proof (find_some _ _ Hf) as [Hin Hok].
    apply sort_threads_In in Hin. split.
    + split; [discriminate |]. intros Hno. rewrite (Hno t Hin) in Hok. discriminate.
    + intros r Hr. injection Hr as <-. exists t. simpl.
      assert (Hb : exists b, body t = Some b /\ b <> EmptyString).
      { unfold is_team_message in Hok. rewrite !andb_true_iff in Hok.
        destruct Hok as [_ Hb].
        destruct (present (body t)) as [b|] eqn:Hp; [| discriminate].
        apply present_truthy in Hp. destruct Hp as [Hp Ht].
        exists b. split; [exact Hp | now apply truthy_nonempty]. }
      destruct Hb as [b [Hb Hne]]. rewrite Hb. simpl.
      repeat split; try assumption.
      intros t' Hin' Hok'. apply (sort_threads_In newest_first) in Hin'.
      destruct (find_sorted_first _ _ _ _ (newest_first_sorted threads) Hf
                  t' Hin' Hok') as [-> | H]; [lia | exact H].
  - split; [| discriminate]. split; [| reflexivity]. intros _ t Hin.
    apply (sort_threads_In newest_first) in Hin.
    destruct (is_team_message t) eqn:E; [| reflexivity].
    now rewrite (find_none _ _ Hf t Hin) in E.
Qed.

Lemma sorted_app_order (R : Thread -> Thread -> Prop) (a b : list Thread) :
  StronglySorted R (a ++ b) -> forall x y, In x a -> In y b -> R x y.
Proof.
  induction a as [|z a IH]; simpl; intros Hs x y Hx Hy; [contradiction |].
  apply StronglySorted_inv in Hs. destruct Hs as [Hs Hz].
  destruct Hx as [-> | Hx]; [| now apply IH].
  rewrite List.Forall_forall in Hz. apply Hz, in_or_app. now right.
Qed.

(** X10: the conversation context is built from the threads that are
    latest in time, five of them or all when there are fewer: every
    thread left out is at most as late as every thread used; the
    context has at most five entries, each the line of a used thread
    and longer than ten characters, joined by blank lines. *)
Theorem conversation_context_window (decode : string -> string) (threads : list Thread) :
  exists older lines,
    Permutation threads (older ++ context_window threads)
    /\ List.length (context_window threads) = Nat.min 5 (List.length threads)
    /\ (forall o w, In o older -> In w (context_window threads) ->
          createdAt o <= createdAt w)
    /\ getConversationContext decode (Some threads) = join blank_line lines
    /\ (List.length lines <= 5)%nat
    /\ forall line, In line lines ->
         (10 < String.length line)%nat
         /\ exists t, In t (context_window threads) /\ line = context_line decode t.
Proof.
  set (sorted := sort_threads oldest_first threads).
  assert (Hlen : List.length sorted = List.length threads).
  { symmetry. apply Permutation_length, sort_threads_perm. }
  assert (Hw : List.length (context_window threads) = Nat.min 5 (List.length threads)).
  { unfold context_window, last_n. fold sorted. rewrite length_skipn, Hlen. lia. }
  exists (firstn (List.length sorted - 5) sorted).
  exists (List.filter (fun msg => (10 <? String.length msg)%nat)
            (map (context_line decode) (context_window threads))).
  split.
  { unfold context_window, last_n. fold sorted. rewrite firstn_skipn.
    apply sort_threads_perm. }
  split; [exact Hw |]. split.
  { intros o w Ho Hin.
    apply (sorted_app_order (fun x y => createdAt x <= createdAt y)
             (firstn (List.length sorted - 5) sorted) (context_window threads));
      [| exact Ho | exact Hin].
    unfold context_window, last_n. fold sorted. rewrite firstn_skipn.
    apply oldest_first_sorted. }
  split; [reflexivity |]. split.
  { etransitivity; [apply filter_length_le |]. rewrite length_map, Hw. lia. }
  intros line Hin. apply filter_In in Hin. destruct Hin as [Hin Hlong].
  apply Nat.ltb_lt in Hlong. split; [exact Hlong |].
  apply in_map_iff in Hin. destruct Hin as [t [<- Ht]]. now exists t.
Qed.

(* ================================================================== *)
(** * 36. [decodeHtml] *)
(* ================================================================== *)

Example decodeHtml_examples :
  decodeHtml (fun s => s) "<p>Thanks  for <b>reaching</b> out!</p>"
  = "Thanks for reaching out!"%string
  /\ strip_tags false "a<b<c>d" = "a d"%string
  /\ strip_tags false "1 < 2" = "1 < 2"%string
  /\ strip_tags false "a > b <i>c" = "a > b  c"%string.
Proof. repeat split. Qed.

Lemma collapse_single_spaced (b : bool) (s : string) :
  single_spaced b (collapse_spaces b s) = true.
Proof.
  revert b. induction s as [|c s IH]; intros b; [reflexivity |].
  simpl. destruct (is_space c) eqn:E.
  - destruct b; [apply IH |]. simpl. apply IH.
  - simpl. rewrite E. apply IH.
Qed.

Lemma single_spaced_weaken (s : string) :
  single_spaced true s = true -> single_spaced false s = true.
Proof.
  destruct s as [|c s]; [reflexivity |]. simpl.
  destruct (is_space c); [| tauto].
  rewrite andb_false_r. discriminate.
Qed.

Lemma single_spaced_trimStart (b : bool) (s : string) :
  single_spaced b s = true -> single_spaced true (trimStart s) = true.
Proof.
  revert b. induction s as [|c s IH]; intros b H; [reflexivity |].
  simpl in *. destruct (is_space c) eqn:E.
  - rewrite !andb_true_iff in H. destruct H as [_ H]. now apply (IH true).
  - simpl. now rewrite E.
Qed.

Lemma trimStart_fixed (s : string) :
  single_spaced true s = true -> trimStart s = s.
Proof.
  destruct s as [|c s]; [reflexivity |]. simpl.
  destruct (is_space c); [| reflexivity].
  rewrite andb_false_r. discriminate.
Qed.

Lemma single_spaced_trimEnd (b : bool) (s : string) :
  single_spaced b s = true -> single_spaced b (trimEnd s) = true.
Proof.
  revert b. induction s as [|c s IH]; intros b H; [reflexivity |].
  simpl in H. simpl trimEnd. destruct (is_space c) eqn:E.
  - rewrite !andb_true_iff in H. destruct H as [[Hc Hb] H].
    specialize (IH true H).
    destruct (trimEnd s) as [|d r]; [reflexivity |].
    cbn [single_spaced]. rewrite E, Hc, Hb. exact IH.
  - specialize (IH false H).
    destruct (trimEnd s) as [|d r]; simpl; rewrite E; [reflexivity | exact IH].
Qed.

Lemma trimEnd_no_space (s : string) : ends_in_space (trimEnd s) = false.
Proof.
  induction s as [|c s IH]; [reflexivity |].
  simpl. destruct (trimEnd s) as [|d r] eqn:Et.
  - destruct (is_space c) eqn:E; simpl; [reflexivity | exact E].
  - exact IH.
Qed.

Lemma trimEnd_fixed (s : string) :
  ends_in_space s = false -> trimEnd s = s.
Proof.
  induction s as [|c s IH]; [reflexivity |].
  intros H. simpl. destruct s as [|d r].
  - simpl in *. now rewrite H.
  - rewrite (IH H). reflexivity.
Qed.

Lemma not_space_not_blank (c : ascii) : is_space c = false -> Ascii.eqb " " c = false.
Proof. destruct (Ascii.eqb_spec " " c) as [<- | H]; [discriminate | reflexivity]. Qed.

Lemma single_spaced_no_double (b : bool) (s : string) :
  single_spaced b s = true -> includes s "  " = false.
Proof.
  revert b. induction s as [|c s IH]; intros b H; [reflexivity |].
  cbn [includes startsWith]. cbn [single_spaced] in H. apply orb_false_iff.
  destruct (is_space c) eqn:E.
  - rewrite !andb_true_iff in H. destruct H as [_ H]. split; [| now apply (IH true)].
    destruct s as [|d r]; [apply andb_false_r |].
    cbn [single_spaced] in H. destruct (is_space d) eqn:Ed.
    + rewrite andb_false_r in H. discriminate.
    + now rewrite (not_space_not_blank d Ed), andb_false_r.
  - split; [| now apply (IH false)].
    now rewrite (not_space_not_blank c E).
Qed.

Lemma single_spaced_only_spaces (b : bool) (s : string) :
  single_spaced b s = true ->
  all_chars (fun c => negb (is_space c) || Ascii.eqb c " ") s = true.
Proof.
  revert b. induction s as [|c s IH]; intros b H; [reflexivity |].
  simpl in *. destruct (is_space c).
  - rewrite !andb_true_iff in H. destruct H as [[Hc _] H].
    rewrite Hc. simpl. now apply (IH true).
  - simpl. now apply (IH false).
Qed.

(** X11: whatever [he.decode] returns, the text [decodeHtml] produces
    has its white space normalised: no white space at either end (a
    further [trim] changes nothing), no white space character other
    than the space, and never two spaces in a row. *)
Theorem decodeHtml_normalised (he_decode : string -> string) (text : string) :
  let cleanText := decodeHtml he_decode text in
  trim cleanText = cleanText
  /\ all_chars (fun c => negb (is_space c) || Ascii.eqb c " ") cleanText = true
  /\ includes cleanText "  " = false.
Proof.
  cbv zeta. unfold decodeHtml.
  set (s := collapse_spaces false (strip_tags false (he_decode text))).
  assert (Hs : single_spaced true (trim s) = true).
  { unfold trim. apply single_spaced_trimEnd.
    apply (single_spaced_trimStart false). apply collapse_single_spaced. }
  assert (He : ends_in_space (trim s) = false) by apply trimEnd_no_space.
  split.
  - unfold trim at 1. rewrite (trimStart_fixed _ Hs). now apply trimEnd_fixed.
  - split; [now apply (single_spaced_only_spaces true) |].
    now apply (single_spaced_no_double true).
Qed.

Lemma no_gt_no_tag (o : bool) (s : string) : has_gt s = false -> tag_scan o s = false.
Proof.
  revert o. induction s as [|c s IH]; intros o H; [reflexivity |].
  simpl in *. apply orb_false_iff in H. destruct H as [Hc H].
  rewrite Hc. simpl. now apply IH.
Qed.

Lemma strip_tags_no_tag (s : string) :
  tag_scan false (strip_tags false s) = false
  /\ tag_scan false (strip_tags true s) = false.
Proof.
  induction s as [|c s [IH1 IH2]]; [now split |]. split.
  - cbn [strip_tags]. destruct (Ascii.eqb_spec c "<") as [-> | Hc].
    + destruct (has_gt s) eqn:Hg.
      * exact IH2.
      * simpl. now apply no_gt_no_tag.
    + cbn [tag_scan]. rewrite andb_false_r. simpl.
      destruct (Ascii.eqb_spec c "<"); [contradiction | exact IH1].
  - cbn [strip_tags]. destruct (Ascii.eqb c ">"); assumption.
Qed.

Lemma space_not_bracket (c : ascii) :
  is_space c = true -> Ascii.eqb c ">" = false /\ Ascii.eqb c "<" = false.
Proof. destruct c as [[] [] [] [] [] [] [] []]; simpl; intros H; now try discriminate. Qed.

Lemma collapse_tag_scan (o b : bool) (s : string) :
  tag_scan o (collapse_spaces b s) = tag_scan o s.
Proof.
  revert o b. induction s as [|c s IH]; intros o b; [reflexivity |].
  simpl. destruct (is_space c) eqn:E.
  - destruct (space_not_bracket c E) as [Hg Hl]. rewrite Hg, Hl, orb_false_r. simpl.
    destruct b; [apply IH |]. simpl. rewrite orb_false_r. apply IH.
  - simpl. now rewrite IH.
Qed.

Lemma trimStart_tag_scan (o : bool) (s : string) :
  tag_scan o (trimStart s) = tag_scan o s.
Proof.
  induction s as [|c s IH]; [reflexivity |].
  simpl. destruct (is_space c) eqn:E; [| reflexivity].
  destruct (space_not_bracket c E) as [Hg Hl]. now rewrite Hg, Hl, orb_false_r.
Qed.

Lemma trimEnd_tag_scan (o : bool) (s : string) :
  tag_scan o s = false -> tag_scan o (trimEnd s) = false.
Proof.
  revert o. induction s as [|c s IH]; intros o H; [reflexivity |].
  simpl in H. simpl trimEnd.
  destruct (Ascii.eqb c ">" && o) eqn:E; [discriminate |].
  specialize (IH _ H).
  destruct (trimEnd s) as [|d r].
  - destruct (is_space c); [reflexivity |]. simpl. now rewrite E.
  - cbn [tag_scan]. rewrite E. exact IH.
Qed.

Lemma tag_scan_closing (b c : string) : tag_scan true (b +:+ ">" +:+ c) = true.
Proof.
  induction b as [|x b IH]; [reflexivity |].
  rewrite append_cons. simpl. destruct (Ascii.eqb x ">"); [reflexivity | exact IH].
Qed.

Lemma tag_scan_complete (o : bool) (a b c : string) :
  tag_scan o (a +:+ "<" +:+ b +:+ ">" +:+ c) = true.
Proof.
  revert o. induction a as [|x a IH]; intros o.
  - rewrite append_nil_l, append_cons. simpl. rewrite orb_true_r.
    apply tag_scan_closing.
  - rewrite append_cons. simpl. destruct (Ascii.eqb x ">" && o); [reflexivity | apply IH].
Qed.

(** X12: whatever [he.decode] returns, the text [decodeHtml] produces
    holds no tag: nowhere in it is a [<] followed, however far, by a
    [>]. *)
Theorem decodeHtml_no_tag (he_decode : string -> string) (text : string) :
  ~ exists a b c, decodeHtml he_decode text = a +:+ "<" +:+ b +:+ ">" +:+ c.
Proof.
  intros [a [b [c H]]].
  assert (Hs : tag_scan false (decodeHtml he_decode text) = false).
  { unfold decodeHtml, trim. apply trimEnd_tag_scan.
    rewrite trimStart_tag_scan, collapse_tag_scan. apply strip_tags_no_tag. }
  rewrite H, tag_scan_complete in Hs. discriminate.
Qed.

(* ================================================================== *)
(** * 37. Post-processor: what it keeps *)
(* ================================================================== *)

Lemma filter_twice (f : string -> bool) (l : list string) :
  List.filter f (List.filter f l) = List.filter f l.
Proof.
  induction l as [|x l IH]; [reflexivity |].
  simpl. destruct (f x) eqn:E; [| exact IH]. simpl. now rewrite E, IH.
Qed.

(** X13: the cleaned improvements list is never empty; it is either
    the single entry "No recommendations" or the entries of the
    original list that pass the filter, in their order; and cleaning a
    cleaned list changes nothing. *)
Theorem clean_improvements_hygiene (imps : list string) :
  clean_improvements imps <> []
  /\ (clean_improvements imps = ["No recommendations"%string]
      \/ clean_improvements imps = List.filter keep_improvement imps)
  /\ clean_improvements (clean_improvements imps) = clean_improvements imps.
Proof.
  unfold clean_improvements.
  destruct (List.filter keep_improvement imps) as [|x r] eqn:E.
  - split; [discriminate |]. split; [now left | reflexivity].
  - split; [discriminate |]. split; [now right |].
    rewrite <- E, filter_twice, E. reflexivity.
Qed.

(** X14: post-processing never lowers a score and touches nothing but
    the tone_empathy category, the problem_resolution feedback and the
    improvements list: the overall score, the error field, the other
    three scores and the clarity and English feedback come out as they
    went in, and a category that is there stays there. *)
Theorem validateEvaluation_keeps
    (config : TicketClassification) (evaluation : EvaluationResult)
    (responseText : string) (ticketData : Ticket) :
  let result := validateEvaluation config evaluation responseText ticketData in
  overall_score result = overall_score evaluation
  /\ error result = error evaluation
  /\ category clarity_completeness result = category clarity_completeness evaluation
  /\ category standard_of_english result = category standard_of_english evaluation
  /\ (forall p, category problem_resolution evaluation = Some p ->
        exists p', category problem_resolution result = Some p'
                   /\ score p' = score p)
  /\ (forall t, category tone_empathy evaluation = Some t ->
        exists t', category tone_empathy result = Some t'
                   /\ (score t <= score t')%num).
Proof.
  cbv zeta.
  unfold validateEvaluation, tidy_improvements, services_floor, fix_contradiction,
    category.
  destruct (includes _ _ && includes _ _);
    destruct (isServicesTicket config ticketData); simpl;
    destruct (categories evaluation) as [[te cc se pr]|]; simpl;
    repeat split; try discriminate;
    intros x Hx; subst; simpl; eexists; (split; [reflexivity |]); simpl;
    first [reflexivity | apply num_le_refl | apply Math_max_l].
Qed.

(* ================================================================== *)
(** * 38. Ledger: which row, what row *)
(* ================================================================== *)

Lemma find_app_none (f : Row -> bool) (a b : list Row) :
  (forall y, In y a -> f y = false) -> List.find f (a ++ b) = List.find f b.
Proof.
  induction a as [|x a IH]; intros H; [reflexivity |].
  simpl. rewrite (H x) by now left. apply IH. intros y Hy. apply H. now right.
Qed.

Lemma find_rev_last (f : Row -> bool) (rows : list Row) (row : Row) :
  List.find f (rev rows) = Some row
  <-> exists before after,
        rows = before ++ row :: after /\ f row = true
        /\ forall r, In r after -> f r = false.
Proof.
  split.
  - induction rows as [|z rows IH] using rev_ind; [discriminate |].
    rewrite rev_unit. simpl. destruct (f z) eqn:E.
    + intros H. injection H as <-. exists rows, []. now repeat split.
    + intros H. destruct (IH H) as [before [after [-> [Hr Ha]]]].
      exists before, (after ++ [z]). split; [now rewrite <- app_assoc |].
      split; [exact Hr |]. intros r Hin. apply in_app_or in Hin.
      destruct Hin as [Hin | [<- | []]]; [now apply Ha | exact E].
  - intros [before [after [-> [Hr Ha]]]].
    rewrite rev_app_distr. simpl. rewrite <- app_assoc.
    rewrite find_app_none.
    + simpl. now rewrite Hr.
    + intros y Hy. apply Ha. now apply in_rev.
Qed.

(** X15: the lookup answers from the last row of the sheet that is for
    the ticket and of today, whatever stands in front of it, and with
    nothing exactly when no row is for the ticket and of today. *)
Theorem lookup_takes_last_match (now : string) (ticketId : JsVal) (rows : list Row) :
  let today := before_first "T" now in
  (checkGoogleSheets now ticketId (Some (Resolved rows)) = None
   <-> forall row, In row rows -> row_matches today ticketId row = false)
  /\ (forall found,
        checkGoogleSheets now ticketId (Some (Resolved rows)) = Some found
        <-> exists before row after,
              rows = before ++ row :: after
              /\ row_matches today ticketId row = true
              /\ (forall r, In r after -> row_matches today ticketId r = false)
              /\ found = row_evaluation row).
Proof.
  cbv zeta. unfold checkGoogleSheets. split.
  - destruct (List.find _ (rev rows)) as [row|] eqn:Hf; simpl.
    + split; [discriminate |]. intros Hno.
      apply find_some in Hf. destruct Hf as [Hin Hm].
      apply in_rev in Hin. rewrite (Hno row Hin) in Hm. discriminate.
    + split; [| reflexivity]. intros _ row Hin.
      apply (find_none _ _ Hf). now apply in_rev in Hin.
  - intros found. split.
    + destruct (List.find _ (rev rows)) as [row|] eqn:Hf; [| discriminate].
      simpl. intros H. injection H as <-.
      apply find_rev_last in Hf. destruct Hf as [before [after [E [Hm Ha]]]].
      now exists before, row, after.
    + intros [before [row [after [E [Hm [Ha ->]]]]]].
      assert (Hf : List.find (row_matches (before_first "T" now) ticketId) (rev rows)
                   = Some row)
        by (apply find_rev_last; now exists before, after).
      now rewrite Hf.
Qed.

Lemma drop_trailing_empty_length (cells : list string) :
  (List.length (drop_trailing_empty cells) <= List.length cells)%nat.
Proof.
  induction cells as [|c r IH]; [reflexivity |].
  simpl. destruct (drop_trailing_empty r); [destruct (truthy c) |]; simpl in *; lia.
Qed.

(** X16: saving never changes or removes a row that is there: the
    sheet afterwards is the sheet before, or the sheet before with one
    row after it; that row starts with the time stamp and has between
    9 and 16 cells, the empty trailing ones being left out. *)
Theorem saveToGoogleSheets_appends
    (sheet : list Row) (timestamp : string) (accepted : bool) (ticket : Ticket)
    (response : Response) (evaluation : EvaluationResult) :
  saveToGoogleSheets sheet timestamp accepted ticket response evaluation = sheet
  \/ exists row,
       saveToGoogleSheets sheet timestamp accepted ticket response evaluation
       = sheet ++ [row]
       /\ accepted = true
       /\ row !! 0%nat = Some timestamp
       /\ (9 <= List.length row <= 16)%nat.
Proof.
  unfold saveToGoogleSheets.
  destruct (rowData timestamp ticket response evaluation) as [cells|] eqn:Hr;
    [| now left].
  destruct accepted; [| now left]. right.
  unfold rowData in Hr.
  destruct (agent response) as [a|]; [| discriminate].
  destruct (categories evaluation) as [[[t|] [c|] [e|] [p|]]|]; try discriminate.
  destruct (key_improvements evaluation) as [imps|]; [| discriminate].
  cbn in Hr. injection Hr as <-.
  eexists. split; [reflexivity |]. split; [reflexivity |].
  set (cells := map render_cell _).
  assert (Hkeep : forall i, (i <= 8)%nat ->
                    drop_trailing_empty cells !! i = cells !! i).
  { intros i Hi.
    apply (drop_trailing_empty_kept cells i 8 (number_text (score p)));
      [exact Hi | reflexivity | apply number_text_truthy]. }
  split; [now rewrite Hkeep by lia |]. split.
  - pose proof (Hkeep 8%nat (Nat.le_refl 8)) as H8.
    assert (H : drop_trailing_empty cells !! 8%nat = Some (number_text (score p)))
      by (rewrite H8; reflexivity).
    apply lookup_lt_Some in H. lia.
  - etransitivity; [apply drop_trailing_empty_length |]. reflexivity.
Qed.

(* ================================================================== *)
(** * 39. Ledger: improvements *)
(* ================================================================== *)

Lemma split_go_piece (x : string) :
  no_semicolon x = true ->
  forall fuel cur rest,
    (String.length x <= fuel)%nat ->
    split_go fuel "; " cur (x +:+ rest)
    = split_go (fuel - String.length x) "; " (cur +:+ x) rest.
Proof.
  intros Hx. induction x as [|c x IH]; intros fuel cur rest Hf.
  - rewrite append_nil_l, append_nil_r. now rewrite Nat.sub_0_r.
  - simpl in Hx. apply andb_prop in Hx. destruct Hx as [Hc Hx].
    simpl in Hf. destruct fuel as [|fuel]; [lia |].
    rewrite append_cons. cbn [split_go startsWith].
    rewrite Ascii.eqb_sym. apply negb_true_iff in Hc. rewrite Hc.
    cbn [andb]. rewrite (IH Hx) by lia.
    rewrite append_assoc, append_cons, append_nil_l. reflexivity.
Qed.

Lemma split_go_end (fuel : nat) (cur : string) :
  split_go fuel "; " cur EmptyString = [cur].
Proof. destruct fuel; simpl; [now rewrite append_nil_r | reflexivity]. Qed.

Lemma join_cons (x y : string) (r : list string) :
  join "; " (x :: y :: r) = x +:+ "; " +:+ join "; " (y :: r).
Proof. reflexivity. Qed.

Lemma split_go_join (imps : list string) :
  imps <> [] ->
  Forall (fun x => no_semicolon x = true) imps ->
  forall fuel,
    (String.length (join "; " imps) <= fuel)%nat ->
    split_go fuel "; " EmptyString (join "; " imps) = imps.
Proof.
  induction imps as [|x [|y r] IH]; intros Hne Hall fuel Hf; [contradiction | |].
  - apply Forall_inv in Hall. simpl in *.
    rewrite <- (append_nil_r x) at 1.
    rewrite (split_go_piece x Hall) by exact Hf.
    now rewrite split_go_end, append_nil_l.
  - pose proof (Forall_inv Hall) as Hx. apply Forall_inv_tail in Hall.
    rewrite join_cons in *. rewrite !append_length in Hf.
    rewrite (split_go_piece x Hx) by lia.
    rewrite append_nil_l.
    change (String.length "; ") with 2%nat in Hf.
    destruct (fuel - String.length x)%nat as [|f] eqn:Ef; [lia |].
    change ("; " +:+ join "; " (y :: r))
      with (String ";" (String " " (join "; " (y :: r)))).
    cbn [split_go startsWith]. rewrite !Ascii.eqb_refl. cbn [andb].
    cbn [String.length drop_str].
    f_equal. apply IH; [discriminate | exact Hall | lia].
Qed.

(** What was joined with [; ] is split into the same pieces. *)
Lemma split_join (imps : list string) :
  Forall plain_entry imps ->
  List.filter truthy (split "; " (join "; " imps)) = imps.
Proof.
  intros Hall. destruct imps as [|x r]; [reflexivity |].
  unfold split. rewrite split_go_join.
  - induction Hall as [|z l [Hz _] _ IH]; [reflexivity |].
    simpl. apply truthy_nonempty in Hz. rewrite Hz. now f_equal.
  - discriminate.
  - eapply List.Forall_impl; [| exact Hall]. now intros z [_ Hz].
  - apply Nat.le_refl.
Qed.

(** X17: the improvements of an evaluation that is appended to the
    sheet and looked up for the same ticket on the same day come back
    as the pieces between the separators of their joined text, the
    empty ones left out; they come back as they were when none of them
    is empty or holds a semicolon.  The evaluation that comes back
    carries no error, whatever the one that was appended carried. *)
Theorem ledger_returns_improvements
    (sheet : list Row) (timestamp now : string) (ticket : Ticket)
    (response : Response) (evaluation : EvaluationResult)
    (t c e p : CategoryDetail) (improvements : list string) (a : Agent) :
  categories evaluation
  = Some {| tone_empathy := Some t; clarity_completeness := Some c;
            standard_of_english := Some e; problem_resolution := Some p |} ->
  key_improvements evaluation = Some improvements ->
  agent response = Some a ->
  id ticket <> VUndefined ->
  timestamp <> EmptyString ->
  before_first "T" timestamp = before_first "T" now ->
  exists found,
    checkGoogleSheets now (id ticket)
      (Some (Resolved (saveToGoogleSheets sheet timestamp true
                         ticket response evaluation)))
    = Some found
    /\ error found = None
    /\ key_improvements found
       = Some (List.filter truthy (split "; " (join "; " improvements)))
    /\ (Forall plain_entry improvements ->
        key_improvements found = Some improvements).
Proof.
  intros Hcats Himps Hagent Hid Hstamp Hday.
  rewrite (lookup_after_save sheet timestamp now ticket response evaluation
             t c e p improvements a Hcats Himps Hagent Hid Hstamp Hday).
  eexists. split; [reflexivity |]. split; [reflexivity |].
  split; [reflexivity |].
  intros Hplain. cbn [key_improvements]. now rewrite (split_join _ Hplain).
Qed.

Lemma ledger_returns_improvements_witness :
  exists found,
    checkGoogleSheets "2025-01-15T23:59:59.000Z" (id services_ticket)
      (Some (Resolved (saveToGoogleSheets [["Timestamp"; "Ticket"]%string]
                         "2025-01-15T10:30:00.000Z" true
                         services_ticket sample_response prompt_evaluation)))
    = Some found
    /\ error found = None
    /\ key_improvements found
       = Some ["Consider suggesting an alternative approach";
               "Add a link to the relevant documentation"]%string.
Proof.
  destruct (ledger_returns_improvements [["Timestamp"; "Ticket"]%string]
              "2025-01-15T10:30:00.000Z" "2025-01-15T23:59:59.000Z"
              services_ticket sample_response prompt_evaluation
              {| score := 9; feedback := "Great empathetic tone, thanked customer at start" |}
              {| score := 8; feedback := "Clear explanation but could be more concise" |}
              {| score := 7; feedback := "Could use more natural phrasing in some areas" |}
              {| score := 8;
                 feedback := "Addressed the issue but could suggest more alternatives" |}
              ["Consider suggesting an alternative approach";
               "Add a link to the relevant documentation"]%string
              {| agent_id := VNum 7; agent_name := VStr "Alex" |}
              eq_refl eq_refl eq_refl ltac:(discriminate) ltac:(discriminate) eq_refl)
    as [found [Hfound [Herr [_ Himps]]]].
  exists found. split; [exact Hfound |]. split; [exact Herr |].
  apply Himps. repeat constructor; discriminate.
Defined.

(** An improvement that holds the separator comes back in two. *)
Example improvement_with_separator :
  List.filter truthy (split "; " (join "; " ["Be brief; be kind"; "ok"]%string))
  = ["Be brief"; "be kind"; "ok"]%string.
Proof. vm_compute. reflexivity. Qed.

(* ================================================================== *)
(** * 40. Orchestrator: ledger hits, restarts, invariants *)
(* ================================================================== *)


(** What the ledger gives has its categories and no error, so it is
    shown with the evaluation template. *)
Lemma ledger_lookup_scorecard (w : World) (data : Data) (now : string)
    (reachable : bool) (found : EvaluationResult) :
  ledger_lookup w data now reachable = Some found ->
  renderEvaluation (Some found) = Scorecard found.
Proof.
  unfold ledger_lookup, checkGoogleSheets.
  destruct (sheets data); [| discriminate].
  destruct reachable; [| discriminate].
  destruct (List.find _ _); [| discriminate].
  intros H. injection H as <-. reflexivity.
Qed.

(** A call of [process] for a key that is neither cached nor running
    and that the ledger knows: the entry of the ledger is shown and
    cached, and nothing is started. *)
Lemma process_alone_ledger_hit (w : World) (data : Data) (now : string)
    (reachable : bool) (found : EvaluationResult) :
  cache_has (key data) (evaluationCache w) = false ->
  key data ∉ runningEvaluations w ->
  ledger_lookup w data now reachable = Some found ->
  exists w', process_alone w data now reachable = (w', Scorecard found)
             /\ cached (key data) (evaluationCache w') found
             /\ dispatched w' = dispatched w
             /\ runningEvaluations w' = runningEvaluations w
             /\ ledger w' = ledger w.
Proof.
  intros Hc Hr Hl. unfold process_alone, process_head.
  rewrite Hc, (bool_decide_eq_false_2 _ Hr), Hl.
  cbn [process_tail]. rewrite (ledger_lookup_scorecard _ _ _ _ _ Hl).
  eexists. split; [reflexivity |]. simpl.
  split; [apply cache_set_cached | now repeat split].
Qed.



(** X19: an evaluation that the background job saved to the sheet is
    served by a new process on the same day: the first call for the
    ticket and response shows the scores and feedback that were saved,
    without an error mark, caches them, and starts no evaluation. *)
Theorem restart_served_from_ledger
    (config : TicketClassification) (env : Env) (openai_model : string)
    (decode : string -> string)
    (w : World) (data : Data) (reply : ApiReply) (timestamp now : string)
    (t c e p : CategoryDetail) (improvements : list string) (a : Agent) :
  let evaluation :=
    evaluateResponse config env openai_model (decode (text (response data)))
      (ticket data) reply in
  let saved :=
    background_settle config env openai_model decode w data reply timestamp true in
  sheets data = true ->
  agent (response data) = Some a ->
  categories evaluation
  = Some {| tone_empathy := Some t; clarity_completeness := Some c;
            standard_of_english := Some e; problem_resolution := Some p |} ->
  key_improvements evaluation = Some improvements ->
  id (ticket data) <> VUndefined ->
  timestamp <> EmptyString ->
  before_first "T" timestamp = before_first "T" now ->
  exists w' found,
    process_alone (restart saved) data now true = (w', Scorecard found)
    /\ overall_score found = overall_score evaluation
    /\ categories found = categories evaluation
    /\ error found = None
    /\ cached (key data) (evaluationCache w') found
    /\ dispatched w' = []
    /\ runningEvaluations w' = ∅.
Proof.
  cbv zeta. intros Hs Ha Hcats Himps Hid Hstamp Hday.
  set (evaluation := evaluateResponse _ _ _ _ _ _) in *.
  edestruct (process_alone_ledger_hit
               (restart (background_settle config env openai_model decode w data
                           reply timestamp true))
               data now true) as [w' [E [Hc [Hd [Hr _]]]]].
  - reflexivity.
  - apply not_elem_of_empty.
  - unfold ledger_lookup. rewrite Hs.
    unfold restart, background_settle. cbn [ledger]. rewrite Hs, Ha.
    fold evaluation.
    apply (lookup_after_save (ledger w) timestamp now (ticket data) (response data)
             evaluation t c e p improvements a Hcats Himps Ha Hid Hstamp Hday).
  - exists w'. eexists. split; [exact E |].
    cbn [overall_score categories error].
    now repeat split.
Qed.

Lemma restart_served_from_ledger_witness :
  exists w' found,
    process_alone
      (restart (background_settle sample_config sample_env "gpt-4" (fun s => s)
                  initial_world sample_data (Threw sample_error)
                  "2025-01-15T10:30:00.000Z" true))
      sample_data "2025-01-15T23:59:59.000Z" true
    = (w', Scorecard found)
    /\ overall_score found
       = overall_score
           (evaluateResponse sample_config sample_env "gpt-4"
              (text (response sample_data)) (ticket sample_data) (Threw sample_error))
    /\ categories found
       = categories
           (evaluateResponse sample_config sample_env "gpt-4"
              (text (response sample_data)) (ticket sample_data) (Threw sample_error))
    /\ error found = None
    /\ cached (key sample_data) (evaluationCache w') found
    /\ dispatched w' = []
    /\ runningEvaluations w' = ∅.
Proof.
  eapply (restart_served_from_ledger sample_config sample_env "gpt-4" (fun s => s)
            initial_world sample_data (Threw sample_error)
            "2025-01-15T10:30:00.000Z" "2025-01-15T23:59:59.000Z").
  - reflexivity.
  - reflexivity.
  - reflexivity.
  - reflexivity.
  - discriminate.
  - discriminate.
  - reflexivity.
Defined.

Lemma cache_without_length (k : string) (c : LRUCache) :
  (List.length (cache_without k c) <= List.length c)%nat.
Proof.
  unfold cache_without. induction c as [|x c IH]; [reflexivity |].
  simpl. destruct (negb (is_key k x)); simpl; lia.
Qed.

Lemma cache_get_bounded (k : string) (c : LRUCache) :
  (List.length (snd (cache_get k c)) <= List.length c)%nat.
Proof.
  unfold cache_get. destruct (List.find (is_key k) c) as [[k' v]|] eqn:Hf;
    [| reflexivity].
  cbn [snd]. revert Hf. unfold cache_without.
  induction c as [|x c IH]; [discriminate |].
  simpl. destruct (is_key k x) eqn:E; simpl.
  - intros _. pose proof (cache_without_length k c) as H.
    unfold cache_without in H. lia.
  - intros Hf. specialize (IH Hf). simpl in IH. lia.
Qed.

Lemma process_head_bounded (w : World) (data : Data) (n : nat) :
  (List.length (evaluationCache w) <= n)%nat ->
  (List.length (evaluationCache (fst (process_head w data))) <= n)%nat.
Proof.
  intros H. unfold process_head.
  destruct (cache_has _ _).
  - pose proof (cache_get_bounded (key data) (evaluationCache w)) as Hg.
    destruct (cache_get _ _) as [v c]. simpl in *. lia.
  - now destruct (bool_decide _).
Qed.

Lemma process_tail_bounded (w : World) (data : Data)
    (sheetsEvaluation : option EvaluationResult) :
  (List.length (evaluationCache w) <= cache_max)%nat ->
  (List.length (evaluationCache (fst (process_tail w data sheetsEvaluation)))
   <= cache_max)%nat.
Proof.
  intros H. destruct sheetsEvaluation; cbn [process_tail fst evaluationCache];
    [apply cache_set_bounded | exact H].
Qed.

(** X20: the cache never holds more than 500 entries, whatever
    requests, ledger answers, engine answers and completions arrive
    and in whatever order. *)
Theorem cache_stays_bounded
    (config : TicketClassification) (env : Env) (openai_model : string)
    (decode : string -> string) (schedule : list Event) (w : World) :
  (List.length (evaluationCache w) <= cache_max)%nat ->
  (List.length
     (evaluationCache (fst (run config env openai_model decode w schedule)))
   <= cache_max)%nat.
Proof.
  revert w. induction schedule as [|ev schedule IH]; intros w H; [exact H |].
  cbn [run].
  assert (Hstep : (List.length
                     (evaluationCache (fst (step config env openai_model decode w ev)))
                   <= cache_max)%nat).
  { destruct ev as [data | data now reachable | data reply timestamp accepted | data];
      cbn [step].
    - pose proof (process_head_bounded w data cache_max H) as Hh.
      destruct (process_head w data) as [w' [html|]]; [exact Hh |].
      destruct (sheets data); [exact Hh |].
      pose proof (process_tail_bounded w' data None Hh) as Ht.
      now destruct (process_tail w' data None).
    - destruct (take_one _ _) as [rest|]; [| exact H].
      pose proof (process_tail_bounded (wake w rest) data
                    (ledger_lookup w data now reachable) H) as Ht.
      now destruct (process_tail _ _ _).
    - apply cache_set_bounded.
    - exact H. }
  destruct (step config env openai_model decode w ev) as [w1 out].
  specialize (IH w1 Hstep).
  now destruct (run config env openai_model decode w1 schedule).
Qed.

Lemma cache_stays_bounded_witness :
  (List.length
     (evaluationCache
        (fst (run sample_config sample_env "gpt-4" (fun s => s) initial_world
                [Arrives sample_data;
                 EngineReplied sample_data (Threw sample_error)
                   "2025-01-15T10:30:00.000Z" true;
                 Finally sample_data])))
   <= cache_max)%nat.
Proof.
  apply (cache_stays_bounded sample_config sample_env "gpt-4" (fun s => s)
           [Arrives sample_data;
            EngineReplied sample_data (Threw sample_error)
              "2025-01-15T10:30:00.000Z" true;
            Finally sample_data] initial_world).
  vm_compute. lia.
Defined.

Lemma save_appends (sheet : list Row) (timestamp : string) (accepted : bool)
    (ticket : Ticket) (response : Response) (evaluation : EvaluationResult) :
  exists extra,
    saveToGoogleSheets sheet timestamp accepted ticket response evaluation
    = sheet ++ extra
    /\ (List.length extra <= if accepted then 1 else 0)%nat.
Proof.
  unfold saveToGoogleSheets, values_append.
  destruct (rowData _ _ _ _); [destruct accepted |].
  - eexists. split; [reflexivity | simpl; lia].
  - exists []. now rewrite app_nil_r.
  - exists []. rewrite app_nil_r. split; [reflexivity | simpl; lia].
Qed.

Lemma process_head_ledger (w : World) (data : Data) :
  ledger (fst (process_head w data)) = ledger w.
Proof.
  unfold process_head. destruct (cache_has _ _).
  - now destruct (cache_get _ _).
  - now destruct (bool_decide _).
Qed.

Lemma process_tail_ledger (w : World) (data : Data)
    (sheetsEvaluation : option EvaluationResult) :
  ledger (fst (process_tail w data sheetsEvaluation)) = ledger w.
Proof. now destruct sheetsEvaluation. Qed.

(** X21: the service only ever appends to the sheet: after any
    schedule of requests, ledger answers, engine answers and
    completions the rows that were there are there, unchanged and in
    front, and the rows added are at most as many as the engine
    answers whose append was accepted.  A request by itself writes
    nothing. *)
Theorem ledger_append_only
    (config : TicketClassification) (env : Env) (openai_model : string)
    (decode : string -> string) (schedule : list Event) (w : World) :
  exists extra,
    ledger (fst (run config env openai_model decode w schedule))
    = ledger w ++ extra
    /\ (List.length extra <= accepted_answers schedule)%nat.
Proof.
  revert w. induction schedule as [|ev schedule IH]; intros w.
  - exists []. now rewrite app_nil_r.
  - cbn [run].
    assert (Hstep : exists extra,
               ledger (fst (step config env openai_model decode w ev))
               = ledger w ++ extra
               /\ (List.length extra <= accepted_answers [ev])%nat).
    { destruct ev as [data | data now reachable | data reply timestamp accepted | data];
        cbn [step].
      - exists []. rewrite app_nil_r. split; [| simpl; lia].
        pose proof (process_head_ledger w data) as Hh.
        destruct (process_head w data) as [w' [html|]]; [exact Hh |].
        destruct (sheets data); [exact Hh |].
        pose proof (process_tail_ledger w' data None) as Ht.
        destruct (process_tail w' data None). simpl in *. congruence.
      - exists []. rewrite app_nil_r. split; [| simpl; lia].
        destruct (take_one _ _) as [rest|]; [| reflexivity].
        pose proof (process_tail_ledger (wake w rest) data
                      (ledger_lookup w data now reachable)) as Ht.
        now destruct (process_tail _ _ _).
      - unfold background_settle, accepted_answers. cbn [fst ledger List.filter].
        destruct (sheets data), (agent (response data));
          try (exists []; rewrite app_nil_r; split;
               [reflexivity | destruct accepted; simpl; lia]).
        destruct (save_appends (ledger w) timestamp accepted (ticket data)
                    (response data)
                    (evaluateResponse config env openai_model
                       (decode (text (response data))) (ticket data) reply))
          as [extra [E Hl]].
        exists extra. split; [exact E |]. destruct accepted; simpl in *; lia.
      - exists []. rewrite app_nil_r. split; [reflexivity | simpl; lia]. }
    destruct (step config env openai_model decode w ev) as [w1 out].
    destruct Hstep as [extra1 [E1 H1]].
    destruct (IH w1) as [extra2 [E2 H2]].
    destruct (run config env openai_model decode w1 schedule) as [w2 outs].
    simpl in *. exists (extra1 ++ extra2).
    split; [now rewrite E2, E1, <- app_assoc |].
    rewrite List.length_app. unfold accepted_answers in *. simpl in *.
    destruct ev as [data | data now reachable | data reply timestamp [] | data];
      simpl in *; lia.
Qed.


